(** * Investment tracker: timeline derivation and growth statistics

    A shallow embedding of the derivation logic of [src/App.jsx]
    (component [InvestmentTracker]): [currentStatus], [timelineData],
    [filteredTimeline], [calculateTrailingGrowth] and
    [calculateAnnualGrowth], together with the part of the JavaScript
    platform they rest on (Number, Date, Array.prototype.sort, Set).

    - JavaScript Numbers are IEEE-754 binary64 values: [float], with the
      primitive operations of the kernel in the place of [+], [-], [*], [/]
      and [===].
    - Time values (milliseconds since the epoch) are integral Numbers of at
      most 8.64e15 in magnitude, which binary64 holds exactly; they are
      modelled by [Z], and a NaN time value (Invalid Date) by [None].
    - The calendar functions of [Date] follow ECMA-262.  Local time differs
      from UTC by the offset of the host's time zone, [LocalTZA(t, isUTC)],
      a parameter of everything that reads the calendar fields of a Date;
      [fixedOffset tza] is a zone whose offset never changes.
    - [new Date()] reads the clock; the readings are arguments of the
      function that takes them.
    - Strings are [string]; the program compares dates, asset types and
      years, all of them ASCII, where code units are bytes.
    - The React state ([assets], [chartMode], ...) a function closes over is
      an argument of its model. *)

From Stdlib Require Import ZArith List String Ascii Bool Lia.
From Stdlib Require Import Floats.
From Stdlib Require Import Permutation Sorted.
Import ListNotations.

Local Open Scope Z_scope.

(** ** ECMAScript time values (ECMA-262, "Time Values and Time Range") *)

Module JSDate.

Definition msPerDay : Z := 86400000.

Definition Day (t : Z) : Z := t / msPerDay.

Definition TimeWithinDay (t : Z) : Z := t mod msPerDay.

Definition isLeap (y : Z) : bool :=
  if negb (y mod 4 =? 0) then false
  else if negb (y mod 100 =? 0) then true
  else if negb (y mod 400 =? 0) then false
  else true.

Definition DaysInYear (y : Z) : Z := if isLeap y then 366 else 365.

Definition DayFromYear (y : Z) : Z :=
  365 * (y - 1970) + (y - 1969) / 4 - (y - 1901) / 100 + (y - 1601) / 400.

Definition TimeFromYear (y : Z) : Z := msPerDay * DayFromYear y.

(** [YearFromTime t] is "the largest integer y such that TimeFromYear(y) <= t".
    It is computed from an estimate that is off by at most one year. *)
Definition YearFromDay (d : Z) : Z :=
  let y0 := 1970 + (400 * d) / 146097 in
  if DayFromYear (y0 + 1) <=? d then y0 + 1
  else if DayFromYear y0 <=? d then y0
  else y0 - 1.

Definition YearFromTime (t : Z) : Z := YearFromDay (Day t).

Definition InLeapYear (t : Z) : Z :=
  if isLeap (YearFromTime t) then 1 else 0.

Definition DayWithinYear (t : Z) : Z := Day t - DayFromYear (YearFromTime t).

(** Number of days of the year that precede month [m] (0 = January). *)
Definition monthStart (leap : Z) (m : Z) : Z :=
  match m with
  | 0 => 0
  | 1 => 31
  | 2 => 59 + leap
  | 3 => 90 + leap
  | 4 => 120 + leap
  | 5 => 151 + leap
  | 6 => 181 + leap
  | 7 => 212 + leap
  | 8 => 243 + leap
  | 9 => 273 + leap
  | 10 => 304 + leap
  | _ => 334 + leap
  end.

(** The month (0 = January) that day [d] of a year falls in, [l] being 1 in
    a leap year and 0 otherwise. *)
Definition monthOfDay (l d : Z) : Z :=
  if d <? 31 then 0
  else if d <? 59 + l then 1
  else if d <? 90 + l then 2
  else if d <? 120 + l then 3
  else if d <? 151 + l then 4
  else if d <? 181 + l then 5
  else if d <? 212 + l then 6
  else if d <? 243 + l then 7
  else if d <? 273 + l then 8
  else if d <? 304 + l then 9
  else if d <? 334 + l then 10
  else 11.

Definition MonthFromTime (t : Z) : Z :=
  monthOfDay (InLeapYear t) (DayWithinYear t).

Definition DateFromTime (t : Z) : Z :=
  DayWithinYear t - monthStart (InLeapYear t) (MonthFromTime t) + 1.

(** [MakeDay year month date]: months outside 0..11 carry into the year, and
    a day of the month past the end of the month runs into the next one. *)
Definition MakeDay (year month date : Z) : Z :=
  let ym := year + month / 12 in
  let mn := month mod 12 in
  DayFromYear ym + monthStart (if isLeap ym then 1 else 0) mn + date - 1.

Definition MakeDate (day time : Z) : Z := day * msPerDay + time.

(** Days of month [m] (1 = January) of year [y]. *)
Definition DaysInMonth (y m : Z) : Z :=
  match m with
  | 2 => if isLeap y then 29 else 28
  | 4 | 6 | 9 | 11 => 30
  | _ => 31
  end.

(** Time values range over 100,000,000 days around the epoch; [TimeClip]
    turns anything beyond into NaN ([None]). *)
Definition maxTime : Z := 8640000000000000.

Definition TimeClip (t : Z) : option Z :=
  if Z.abs t <=? maxTime then Some t else None.

Section LocalTime.

(** [LocalTZA(t, isUTC)]: the offset of the host's local time from UTC, in
    milliseconds, in force at the instant [t] when [isUTC] is true, and at
    the local time [t] when it is false. *)
Variable LocalTZA : Z -> bool -> Z.

Definition LocalTime (t : Z) : Z := t + LocalTZA t true.
Definition UTC (t : Z) : Z := t - LocalTZA t false.

(** Date.prototype.getMonth / getFullYear on a valid Date. *)
Definition getMonth (t : Z) : Z := MonthFromTime (LocalTime t).
Definition getFullYear (t : Z) : Z := YearFromTime (LocalTime t).

(** Date.prototype.setMonth(month) and setFullYear(year) on a valid Date of
    time value [t]: the new time value of the Date, NaN ([None]) when it
    falls out of the time range. *)
Definition setMonth (t month : Z) : option Z :=
  let lt := LocalTime t in
  TimeClip
    (UTC (MakeDate (MakeDay (YearFromTime lt) month (DateFromTime lt))
                   (TimeWithinDay lt))).

Definition setFullYear (t year : Z) : option Z :=
  let lt := LocalTime t in
  TimeClip
    (UTC (MakeDate (MakeDay year (MonthFromTime lt) (DateFromTime lt))
                   (TimeWithinDay lt))).

End LocalTime.

(** A zone without transitions: the offset is [tza] throughout. *)
Definition fixedOffset (tza : Z) : Z -> bool -> Z := fun _ _ => tza.

(** *** Parsing the date-only ISO form [YYYY-MM-DD]

    [new Date(s)] reads a date-only ISO string as midnight UTC.  Any other
    string is treated as an Invalid Date here (the ledger only stores the
    values of [<input type="date">]).  A date of a four-digit year is always
    within the time range ([ParseFacts.getTime_in_range]). *)

Definition digit (c : ascii) : option Z :=
  let n := Z.of_N (N_of_ascii c) in
  if (48 <=? n) && (n <=? 57) then Some (n - 48) else None.

Definition num2 (a b : ascii) : option Z :=
  match digit a, digit b with
  | Some x, Some y => Some (10 * x + y)
  | _, _ => None
  end.

Definition num4 (a b c d : ascii) : option Z :=
  match num2 a b, num2 c d with
  | Some x, Some y => Some (100 * x + y)
  | _, _ => None
  end.

Definition isDash (c : ascii) : bool := Ascii.eqb c "-"%char.

(** Year, month (1..12) and day of a well-formed calendar date. *)
Definition parseYMD (s : string) : option (Z * Z * Z) :=
  match s with
  | String y1 (String y2 (String y3 (String y4 (String s1
      (String m1 (String m2 (String s2
        (String d1 (String d2 EmptyString))))))))) =>
      match num4 y1 y2 y3 y4, num2 m1 m2, num2 d1 d2 with
      | Some y, Some m, Some d =>
          if isDash s1 && isDash s2
             && (1 <=? m) && (m <=? 12)
             && (1 <=? d) && (d <=? DaysInMonth y m)
          then Some (y, m, d) else None
      | _, _, _ => None
      end
  | _ => None
  end.

(** [new Date(s).getTime()]; [None] stands for NaN. *)
Definition getTime (s : string) : option Z :=
  match parseYMD s with
  | Some (y, m, d) => Some (MakeDate (MakeDay y (m - 1) d) 0)
  | None => None
  end.

End JSDate.

(** ** Arrays and sets of the JavaScript platform *)

Module JSArray.

Section Sort.

Context {A : Type}.

(** The comparator of [Array.prototype.sort]; a NaN result counts as +0,
    which the caller folds into the integer it returns. *)
Variable compareFn : A -> A -> Z.

(** [Array.prototype.sort] is stable: elements that compare equal keep
    their relative order.  For a consistent comparator every stable sort
    computes the same array; insertion from the right is one of them. *)
Fixpoint insert (x : A) (l : list A) : list A :=
  match l with
  | [] => [x]
  | y :: l' => if 0 <? compareFn x y then y :: insert x l' else x :: l
  end.

Definition sort (l : list A) : list A := fold_right insert [] l.

End Sort.

(** The default comparator of [sort()] on strings: code-unit order. *)
Definition defaultCompare (x y : string) : Z :=
  match String.compare x y with
  | Lt => -1
  | Eq => 0
  | Gt => 1
  end.

(** [Array.from(new Set(l))]: the elements of [l] in order of first
    occurrence, [seen] being the elements already in the set. *)
Fixpoint setFrom (seen l : list string) : list string :=
  match l with
  | [] => []
  | x :: r =>
      if existsb (String.eqb x) seen then setFrom seen r
      else x :: setFrom (x :: seen) r
  end.

Definition arrayFromSet (l : list string) : list string := setFrom [] l.

End JSArray.

(** ** The ledger and the derived timeline *)

Module Asset.
Record t : Type := mk {
  id : string;
  date : string;
  type : string;
  amount : float;
  exchangeRate : float;
  note : string
}.
End Asset.

Module Point.
Record t : Type := mk {
  date : string;
  total : float;
  investment : float;
  us_inv : float;
  tw_inv : float
}.
End Point.

Module App.

Import JSDate JSArray.

Local Open Scope string_scope.

(** Keys of [ASSET_LABELS], in insertion order. *)
Definition ASSET_LABELS_keys : list string :=
  ["tw_stock"; "us_stock"; "tw_cash"; "us_cash"].

(** [latest.amount * latest.exchangeRate] *)
Definition value (a : Asset.t) : float :=
  (Asset.amount a * Asset.exchangeRate a)%float.

(** [(a, b) => new Date(b.date).getTime() - new Date(a.date).getTime()] *)
Definition byDateDesc (a b : Asset.t) : Z :=
  match getTime (Asset.date b), getTime (Asset.date a) with
  | Some tb, Some ta => tb - ta
  | _, _ => 0
  end.

(** [x <= y] on time values; a comparison with NaN is false. *)
Definition leTime (x y : option Z) : bool :=
  match x, y with
  | Some a, Some b => (a <=? b)%Z
  | _, _ => false
  end.

(** *** currentStatus *)

(** The [status] object: its own properties in insertion order. *)
Definition Status : Type := list (string * float).

Fixpoint setProp (k : string) (v : float) (o : Status) : Status :=
  match o with
  | [] => [(k, v)]
  | (k', v') :: o' =>
      if k' =? k then (k', v) :: o' else (k', v') :: setProp k v o'
  end.

Fixpoint getProp (k : string) (o : Status) : option float :=
  match o with
  | [] => None
  | (k', v') :: o' => if k' =? k then Some v' else getProp k o'
  end.

Definition statusInit : Status :=
  [("tw_stock", 0%float); ("us_stock", 0%float);
   ("tw_cash", 0%float); ("us_cash", 0%float)].

Definition currentStatusStep (assets : list Asset.t)
    (status : Status) (type : string) : Status :=
  let recordsOfType := filter (fun a => Asset.type a =? type) assets in
  match recordsOfType with
  | [] => status
  | _ :: _ =>
      match sort byDateDesc recordsOfType with
      | latest :: _ => setProp type (value latest) status
      | [] => status
      end
  end.

Definition currentStatus (assets : list Asset.t) : Status :=
  fold_left (currentStatusStep assets) ASSET_LABELS_keys statusInit.

(** [Object.values(currentStatus).reduce((a, b) => a + b, 0)] *)
Definition totalAssetsTwd (assets : list Asset.t) : float :=
  fold_left (fun a b => (a + b)%float) (map snd (currentStatus assets)) 0%float.

(** *** timelineData *)

(** The four accumulators of one data point. *)
Record Vals : Type := mkVals {
  twStockVal : float;
  usStockVal : float;
  twCashVal : float;
  usCashVal : float
}.

Definition assign (type : string) (val : float) (v : Vals) : Vals :=
  let v := if type =? "tw_stock"
           then mkVals val (usStockVal v) (twCashVal v) (usCashVal v) else v in
  let v := if type =? "us_stock"
           then mkVals (twStockVal v) val (twCashVal v) (usCashVal v) else v in
  let v := if type =? "tw_cash"
           then mkVals (twStockVal v) (usStockVal v) val (usCashVal v) else v in
  let v := if type =? "us_cash"
           then mkVals (twStockVal v) (usStockVal v) (twCashVal v) val else v in
  v.

Definition relevantRecords (assets : list Asset.t) (type : string)
    (currentMoment : option Z) : list Asset.t :=
  filter (fun a => (Asset.type a =? type)
                   && leTime (getTime (Asset.date a)) currentMoment) assets.

Definition timelineStep (assets : list Asset.t) (currentMoment : option Z)
    (v : Vals) (type : string) : Vals :=
  match relevantRecords assets type currentMoment with
  | [] => v
  | _ :: _ =>
      match sort byDateDesc (relevantRecords assets type currentMoment) with
      | latest :: _ => assign type (value latest) v
      | [] => v
      end
  end.

Definition categoryVals (assets : list Asset.t) (date : string) : Vals :=
  fold_left (timelineStep assets (getTime date))
            ["tw_stock"; "us_stock"; "tw_cash"; "us_cash"]
            (mkVals 0 0 0 0).

Definition dataPoint (assets : list Asset.t) (date : string) : Point.t :=
  let v := categoryVals assets date in
  Point.mk date
    (twStockVal v + usStockVal v + twCashVal v + usCashVal v)%float
    (twStockVal v + usStockVal v)%float
    (usStockVal v)
    (twStockVal v).

Definition uniqueDates (assets : list Asset.t) : list string :=
  sort defaultCompare (arrayFromSet (map Asset.date assets)).

Definition timelineData (assets : list Asset.t) : list Point.t :=
  match assets with
  | [] => []
  | _ :: _ => map (dataPoint assets) (uniqueDates assets)
  end.

(** [l[l.length - 1]]; [None] stands for [undefined]. *)
Definition lastElem {A : Type} (l : list A) : option A :=
  nth_error l (List.length l - 1).

(** [mode === 'total' ? p.total : p.investment] *)
Definition metric (mode : string) (p : Point.t) : float :=
  if mode =? "total" then Point.total p else Point.investment p.

(** [((currentValue - prevValue) / prevValue) * 100] *)
Definition growthRate (currentValue prevValue : float) : float :=
  ((currentValue - prevValue) / prevValue * 100)%float.

Section Clock.

(** The host's time zone: [LocalTZA] of ECMA-262. *)
Variable zone : Z -> bool -> Z.

(** *** filteredTimeline *)

(** [now] and [cutoff0] are the time values of the two [new Date()]
    readings the function takes, in this order; the result is the time
    value of [cutoffDate] after the five conditional updates. *)
Definition cutoffDate (chartPeriod : string) (now cutoff0 : Z) : option Z :=
  let set (c : option Z) (f : Z -> option Z) : option Z :=
    match c with
    | Some t => f t
    | None => None
    end in
  let c := Some cutoff0 in
  let c := if chartPeriod =? "1m"
           then set c (fun t => setMonth zone t (getMonth zone now - 1))
           else c in
  let c := if chartPeriod =? "3m"
           then set c (fun t => setMonth zone t (getMonth zone now - 3))
           else c in
  let c := if chartPeriod =? "6m"
           then set c (fun t => setMonth zone t (getMonth zone now - 6))
           else c in
  let c := if chartPeriod =? "1y"
           then set c (fun t => setFullYear zone t (getFullYear zone now - 1))
           else c in
  let c := if chartPeriod =? "3y"
           then set c (fun t => setFullYear zone t (getFullYear zone now - 3))
           else c in
  c.

(** [new Date(d.date) >= cutoffDate]; false when either date is invalid. *)
Definition notBefore (cutoff : option Z) (d : Point.t) : bool :=
  match getTime (Point.date d), cutoff with
  | Some t, Some c => (c <=? t)%Z
  | _, _ => false
  end.

Definition filteredTimeline (timelineData : list Point.t)
    (chartPeriod : string) (now cutoff0 : Z) : list Point.t :=
  if chartPeriod =? "all" then timelineData
  else filter (notBefore (cutoffDate chartPeriod now cutoff0)) timelineData.

(** *** calculateTrailingGrowth *)

(** [targetDate] after [setMonth(getMonth() - months)], as a time value. *)
Definition targetDate (lastDate : string) (months : Z) : option Z :=
  match getTime lastDate with
  | Some now => setMonth zone now (getMonth zone now - months)
  | None => None
  end.

(** [Math.abs(pDate.getTime() - targetDate.getTime())]; [None] is NaN. *)
Definition absDiff (pTime target : option Z) : option Z :=
  match pTime, target with
  | Some a, Some b => Some (Z.abs (a - b))
  | _, _ => None
  end.

(** [diff < minDiff], where [minDiff = None] stands for [Infinity] and
    [diff = None] for NaN. *)
Definition ltDiff (diff minDiff : option Z) : bool :=
  match diff, minDiff with
  | Some d, Some m => (d <? m)%Z
  | Some _, None => true
  | None, _ => false
  end.

(** One turn of the [forEach] that looks for the nearest point; the state
    is [(comparisonPoint, minDiff)]. *)
Definition nearestStep (target : option Z)
    (st : Point.t * option Z) (p : Point.t) : Point.t * option Z :=
  let diff := absDiff (getTime (Point.date p)) target in
  if ltDiff diff (snd st) then (p, diff) else st.

Definition comparisonPoint (timelineData : list Point.t)
    (first : Point.t) (target : option Z) : Point.t :=
  fst (fold_left (nearestStep target) timelineData (first, None)).

(** [None] stands for [null]. *)
Definition calculateTrailingGrowth (timelineData : list Point.t)
    (months : Z) (mode : string) : option float :=
  if (List.length timelineData <? 2)%nat then None
  else
    match timelineData, lastElem timelineData with
    | first :: _, Some lastPoint =>
        let currentValue := metric mode lastPoint in
        let target := targetDate (Point.date lastPoint) months in
        let prevValue :=
          metric mode (comparisonPoint timelineData first target) in
        if (prevValue =? 0)%float then Some 0%float
        else Some (growthRate currentValue prevValue)
    | _, _ => None
    end.

End Clock.

(** *** calculateAnnualGrowth *)

Record AnnualStats : Type := mkAnnualStats {
  growth : option float;
  startVal : float;
  endVal : float
}.

Definition pointsInYear (timelineData : list Point.t) (year : string)
    : list Point.t :=
  filter (fun d => String.prefix year (Point.date d)) timelineData.

Definition pointsBeforeYear (timelineData : list Point.t) (year : string)
    : list Point.t :=
  filter (fun d => String.ltb (Point.date d) (year ++ "-01-01")) timelineData.

Definition calculateAnnualGrowth (timelineData : list Point.t)
    (chartMode : string) (year : string) : AnnualStats :=
  match timelineData with
  | [] => mkAnnualStats None 0 0
  | _ :: _ =>
      let inYear := pointsInYear timelineData year in
      let beforeYear := pointsBeforeYear timelineData year in
      match inYear, lastElem inYear with
      | startPoint :: _, Some endPoint =>
          let endVal := metric chartMode endPoint in
          let finish (startVal : float) :=
            if (startVal =? 0)%float then mkAnnualStats None startVal endVal
            else mkAnnualStats (Some (growthRate endVal startVal))
                               startVal endVal in
          match lastElem beforeYear with
          | Some prevEndPoint => finish (metric chartMode prevEndPoint)
          | None =>
              if (List.length inYear =? 1)%nat then mkAnnualStats None 0 endVal
              else finish (metric chartMode startPoint)
          end
      | _, _ => mkAnnualStats None 0 0
      end
  end.

End App.

(** ** Vocabulary of the specification *)

Module Spec.

Import JSDate JSArray App.

(** Code-unit order on strings. *)
Definition lt (s1 s2 : string) : Prop := String.compare s1 s2 = Lt.
Definition le (s1 s2 : string) : Prop := String.compare s1 s2 <> Gt.

(** [r] is the first element of [l] that carries the greatest key. *)
Definition firstMax {A : Type} (key : A -> Z) (l : list A) (r : A) : Prop :=
  exists l1 l2, l = l1 ++ r :: l2
    /\ (forall x, In x l1 -> key x < key r)
    /\ (forall x, In x l2 -> key x <= key r).

(** The instant of a record's date; only read for records with a valid date. *)
Definition timeKey (a : Asset.t) : Z :=
  match getTime (Asset.date a) with
  | Some t => t
  | None => 0
  end.

(** The record's date is on or before the date [d]. *)
Definition atOrBefore (d : string) (a : Asset.t) : Prop :=
  exists ta td,
    getTime (Asset.date a) = Some ta /\ getTime d = Some td /\ ta <= td.

(** [r] is a record of category [type] dated on or before [d]. *)
Definition candidate (assets : list Asset.t) (type d : string)
    (r : Asset.t) : Prop :=
  In r assets /\ Asset.type r = type /\ atOrBefore d r.

(** [r] is a candidate that no other candidate is more recent than. *)
Definition mostRecent (assets : list Asset.t) (type d : string)
    (r : Asset.t) : Prop :=
  candidate assets type d r
  /\ forall r', candidate assets type d r' -> timeKey r' <= timeKey r.

(** [r] is the first of the most recent candidates, in ledger order. *)
Definition firstMostRecent (assets : list Asset.t) (type d : string)
    (r : Asset.t) : Prop :=
  mostRecent assets type d r
  /\ exists l1 l2, assets = l1 ++ r :: l2
       /\ forall x, In x l1 -> ~ mostRecent assets type d x.

(** Last observation carried forward: [v] is what category [type] is worth
    on date [d], namely the amount times the exchange rate of a most recent
    record of the category dated on or before [d] (the first of them in
    ledger order), and zero when there is no such record. *)
Definition locfValue (assets : list Asset.t) (type d : string)
    (v : float) : Prop :=
  ((exists r, candidate assets type d r) ->
     exists r, firstMostRecent assets type d r
               /\ v = (Asset.amount r * Asset.exchangeRate r)%float)
  /\ ((forall r, ~ candidate assets type d r) -> v = 0%float).

(** The four category values [tw], [us], [twc] and [usc] of the date of
    the point [p], as a point holds them: the two equity values, their sum
    as the investment, and the four added from left to right as the
    total. *)
Definition holds (p : Point.t) (tw us twc usc : float) : Prop :=
  Point.tw_inv p = tw
  /\ Point.us_inv p = us
  /\ Point.investment p = (tw + us)%float
  /\ Point.total p = (tw + us + twc + usc)%float.

(** The one of four category values that belongs to [type]. *)
Definition ofCategory (type : string) (tw us twc usc : float) : float :=
  if (type =? "tw_stock")%string then tw
  else if (type =? "us_stock")%string then us
  else if (type =? "tw_cash")%string then twc
  else if (type =? "us_cash")%string then usc
  else 0%float.

(** The value a data point holds for category [type]. *)
Definition categoryValue (type : string) (v : Vals) : float :=
  if (type =? "tw_stock")%string then twStockVal v
  else if (type =? "us_stock")%string then usStockVal v
  else if (type =? "tw_cash")%string then twCashVal v
  else if (type =? "us_cash")%string then usCashVal v
  else 0%float.

(** The record [timelineData] and [currentStatus] read a value from: the
    head of the sorted array, if any. *)
Definition latest (l : list Asset.t) : option Asset.t :=
  hd_error (sort byDateDesc l).

Definition latestValue (l : list Asset.t) : float :=
  match latest l with
  | Some r => value r
  | None => 0%float
  end.

(** Records that share a category and a date are worth the same. *)
Definition consistent (assets : list Asset.t) : Prop :=
  forall r r' t,
    In r assets -> In r' assets -> Asset.type r = Asset.type r' ->
    getTime (Asset.date r) = Some t -> getTime (Asset.date r') = Some t ->
    value r = value r'.

(** Every record carries a well-formed calendar date. *)
Definition validLedger (assets : list Asset.t) : Prop :=
  forall a, In a assets -> getTime (Asset.date a) <> None.

(** Date [d1] is strictly earlier than date [d2]. *)
Definition earlier (d1 d2 : string) : Prop :=
  exists t1 t2, getTime d1 = Some t1 /\ getTime d2 = Some t2 /\ t1 < t2.

(** Calendar order on (year, month, day) triples. *)
Definition ymdCompare (a b : Z * Z * Z) : comparison :=
  let '(y1, m1, d1) := a in
  let '(y2, m2, d2) := b in
  match y1 ?= y2 with
  | Eq => match m1 ?= m2 with
          | Eq => d1 ?= d2
          | c => c
          end
  | c => c
  end.

(** A calendar year as the interface shows it: four decimal digits. *)
Definition parseYear (ys : string) : option Z :=
  match ys with
  | String a (String b (String c (String d EmptyString))) => num4 a b c d
  | _ => None
  end.

(** The calendar year of a well-formed date. *)
Definition yearOfDate (s : string) : option Z :=
  match parseYMD s with
  | Some (y, _, _) => Some y
  | None => None
  end.

(** Every point of a timeline carries a well-formed calendar date. *)
Definition validPoints (points : list Point.t) : Prop :=
  forall p, In p points -> getTime (Point.date p) <> None.

(** [x] is the last element of [l]. *)
Definition lastOf {A : Type} (l : list A) (x : A) : Prop :=
  exists init, l = init ++ [x].

(** [l'] is [l] with exactly the elements that satisfy [P] kept, in their
    order. *)
Inductive kept {A : Type} (P : A -> Prop) : list A -> list A -> Prop :=
| kept_nil : kept P [] []
| kept_cons (x : A) (l l' : list A) :
    P x -> kept P l l' -> kept P (x :: l) (x :: l')
| kept_skip (x : A) (l l' : list A) :
    ~ P x -> kept P l l' -> kept P (x :: l) l'.

(** [v] is the figure of the point [p] that the chart mode selects: the
    total in the mode "total", the investment in any other mode. *)
Definition measures (mode : string) (p : Point.t) (v : float) : Prop :=
  (mode = "total"%string -> v = Point.total p)
  /\ (mode <> "total"%string -> v = Point.investment p).

(** The growth an annual result reports for the baseline and closing value
    it reports: none for a zero baseline, and otherwise the closing value
    less the baseline, over the baseline, times 100. *)
Definition growthReported (r : AnnualStats) : Prop :=
  if (startVal r =? 0)%float then growth r = None
  else growth r
       = Some ((endVal r - startVal r) / startVal r * 100)%float.

(** The point is dated in the calendar year [Y]; before the year [Y]. *)
Definition datedIn (Y : Z) (p : Point.t) : bool :=
  match yearOfDate (Point.date p) with
  | Some y => y =? Y
  | None => false
  end.

Definition datedBefore (Y : Z) (p : Point.t) : bool :=
  match yearOfDate (Point.date p) with
  | Some y => y <? Y
  | None => false
  end.

(** The instant of a point's date; only read for points with a valid date. *)
Definition pointTime (p : Point.t) : Z :=
  match getTime (Point.date p) with
  | Some t => t
  | None => 0
  end.

(** How far the date of [p] is from the instant [target]. *)
Definition distanceTo (target : Z) (p : Point.t) : Z :=
  Z.abs (pointTime p - target).

(** [cp] is the first point of [points] at the least distance from
    [target]: every point before it is strictly farther, no point after it
    is nearer. *)
Definition nearestFirst (target : Z) (points : list Point.t)
    (cp : Point.t) : Prop :=
  exists l1 l2, points = l1 ++ cp :: l2
    /\ (forall p, In p l1 -> distanceTo target cp < distanceTo target p)
    /\ (forall p, In p l2 -> distanceTo target cp <= distanceTo target p).

(** Year, month (0 = January), day of the month and time of day that a
    clock reading shows. *)
Definition fieldsOf (w : Z) : Z * Z * Z * Z :=
  (YearFromTime w, MonthFromTime w, DateFromTime w, TimeWithinDay w).

(** The reading [w'] is the reading [w] moved [k] calendar months back:
    the same time of day, as many days after the first of the month [k]
    months earlier as [w] is after the first of its month; hence the same
    day of that month when the month has such a day. *)
Definition monthsBack (k w w' : Z) : Prop :=
  let '(Y, M, D, T) := fieldsOf w in
  let Y' := Y + (M - k) / 12 in
  let M' := (M - k) mod 12 in
  w' = MakeDate (MakeDay Y' M' 1 + (D - 1)) T
  /\ (D <= DaysInMonth Y' (M' + 1) -> fieldsOf w' = (Y', M', D, T)).

(** The reading [w'] is the reading [w] moved [n] calendar years back, in
    the same sense. *)
Definition yearsBack (n w w' : Z) : Prop :=
  let '(Y, M, D, T) := fieldsOf w in
  w' = MakeDate (MakeDay (Y - n) M 1 + (D - 1)) T
  /\ (D <= DaysInMonth (Y - n) (M + 1) -> fieldsOf w' = (Y - n, M, D, T)).

(** The offsets of the zone are at most a day. *)
Definition boundedZone (zone : Z -> bool -> Z) : Prop :=
  forall t b, Z.abs (zone t b) <= msPerDay.

(** Local clocks show the same month, the same year, at both instants. *)
Definition sameLocalMonth (zone : Z -> bool -> Z) (t t' : Z) : Prop :=
  MonthFromTime (LocalTime zone t) = MonthFromTime (LocalTime zone t').

Definition sameLocalYear (zone : Z -> bool -> Z) (t t' : Z) : Prop :=
  YearFromTime (LocalTime zone t) = YearFromTime (LocalTime zone t').

(** The point is dated at or after the instant [cutoff]. *)
Definition onOrAfter (cutoff : Z) (p : Point.t) : Prop :=
  exists t, getTime (Point.date p) = Some t /\ cutoff <= t.

End Spec.

(** ** Ledgers used as concrete inputs *)

Module Examples.

Local Open Scope string_scope.
Local Open Scope float_scope.
Local Set Warnings "-inexact-float".

(** The ledger the application starts with when nothing is stored. *)
Definition defaultAssets : list Asset.t :=
  [ Asset.mk "1" "2025-01-05" "us_stock" 78130 32.5 "";
    Asset.mk "2" "2025-01-05" "tw_stock" 107947 1 "";
    Asset.mk "3" "2026-01-05" "us_stock" 94937 32.5 "";
    Asset.mk "4" "2026-01-05" "tw_stock" 147107 1 "" ].

(** One day, three categories, amounts with decimals. *)
Definition decimalAssets : list Asset.t :=
  [ Asset.mk "a" "2025-01-05" "tw_stock" 0.1 1 "";
    Asset.mk "b" "2025-01-05" "tw_cash" 0.2 1 "";
    Asset.mk "c" "2025-01-05" "us_cash" 0.3 1 "" ].

(** Two records of one category on one day, worth different amounts. *)
Definition clashA : Asset.t :=
  Asset.mk "a" "2025-01-05" "tw_stock" 100 1 "".
Definition clashB : Asset.t :=
  Asset.mk "b" "2025-01-05" "tw_stock" 200 1 "".

(** A ledger with all four categories over three dates. *)
Definition mixedAssets : list Asset.t :=
  [ Asset.mk "1" "2025-03-31" "us_cash" 1000 31.5 "";
    Asset.mk "2" "2024-12-31" "tw_stock" 500000 1 "";
    Asset.mk "3" "2025-03-31" "tw_stock" 520000 1 "";
    Asset.mk "4" "2025-06-30" "us_stock" 20000 30 "";
    Asset.mk "5" "2024-12-31" "tw_cash" 80000 1 "" ].

(** A timeline of a single point. *)
Definition singlePoint : list Point.t :=
  [ Point.mk "2026-01-05" 3232559.5 3232559.5 3085452.5 147107 ].

(** A timeline over two years, with a zero investment value in 2024. *)
Definition twoYears : list Point.t :=
  [ Point.mk "2024-12-31" 80000 0 0 0;
    Point.mk "2025-03-31" 631500 520000 0 520000;
    Point.mk "2025-06-30" 1231500 1120000 600000 520000 ].

(** Three points, the first three days before the second. *)
Definition westPoints : list Point.t :=
  [ Point.mk "2025-01-29" 100 100 0 100;
    Point.mk "2025-02-01" 200 200 0 200;
    Point.mk "2025-03-01" 300 300 0 300 ].

(** A point of the middle of December 2026. *)
Definition decemberPoint : Point.t :=
  Point.mk "2026-12-15" 100 100 0 100.

(** Midnight of 1 January 2027 on clocks eight hours east of Greenwich. *)
Definition newYear2027 : Z := 1798732800000.

End Examples.

(** ** The date the forms start with *)

Module ISODate.

Import JSDate.

(** The decimal digit [n] as a character. *)
Definition digitChar (n : Z) : ascii := ascii_of_N (Z.to_N (48 + n)).

Definition pad2 (n : Z) : string :=
  String (digitChar (n / 10)) (String (digitChar (n mod 10)) EmptyString).

Definition pad4 (n : Z) : string :=
  String.append (pad2 (n / 100)) (pad2 (n mod 100)).

Definition pad6 (n : Z) : string :=
  String.append (pad2 (n / 10000)) (pad4 (n mod 10000)).

(** The year of the ISO format: four digits from 0 to 9999, and otherwise
    a sign and six digits. *)
Definition isoYear (y : Z) : string :=
  if (0 <=? y) && (y <=? 9999) then pad4 y
  else String (if y <? 0 then "-"%char else "+"%char) (pad6 (Z.abs y)).

(** [new Date(t).toISOString().split('T')[0]] for a time value [t]: the
    calendar date of [t] in UTC. *)
Definition toISODate (t : Z) : string :=
  String.append (isoYear (YearFromTime t))
    (String "-"%char
       (String.append (pad2 (MonthFromTime t + 1))
          (String "-"%char (pad2 (DateFromTime t))))).

End ISODate.

(** ** The store: forms, handlers and what the dashboard shows besides *)

Module Contribution.
Record t : Type := mk {
  id : string;
  person : string;
  date : string;
  amount : float
}.
End Contribution.

(** The [newAsset] state: what the asset form holds. *)
Module AssetForm.
Record t : Type := mk {
  date : string;
  type : string;
  exchangeRate : float;
  amount : float;
  note : string
}.
End AssetForm.

(** The [newContribution] state. *)
Module ContributionForm.
Record t : Type := mk {
  date : string;
  person : string;
  amount : float
}.
End ContributionForm.

Module Store.

Import JSDate JSArray App.

Local Open Scope string_scope.

(** The pieces of React state the handlers read and write. *)
Record State : Type := mkState {
  assets : list Asset.t;
  contributions : list Contribution.t;
  editingAssetId : option string;
  newAsset : AssetForm.t;
  newContribution : ContributionForm.t
}.

(** [!x] for a Number: zero, negative zero and NaN are falsy. *)
Definition falsyNumber (x : float) : bool :=
  (x =? 0)%float || PrimFloat.is_nan x.

(** [!s] for a string: only the empty string is falsy. *)
Definition falsyString (s : string) : bool := s =? "".

(** [if (editingAssetId)]: [null] and the empty string are falsy. *)
Definition truthyId (e : option string) : option string :=
  match e with
  | Some s => if s =? "" then None else Some s
  | None => None
  end.

(** [type === 'us_stock' || type === 'us_cash'] *)
Definition isForeign (type : string) : bool :=
  (type =? "us_stock") || (type =? "us_cash").

(** The exchange rate a saved record gets.  The form holds Numbers, on
    which [Number(...)] is the identity. *)
Definition formRate (f : AssetForm.t) : float :=
  if isForeign (AssetForm.type f) then AssetForm.exchangeRate f else 1%float.

(** The form after a reset; [today] is
    [new Date().toISOString().split('T')[0]]. *)
Definition blankAsset (today : string) : AssetForm.t :=
  AssetForm.mk today "tw_stock" 1 0 "".

(** [{...a, date, type, amount, exchangeRate, note}]: all fields but the
    id are replaced.  On a string, [note || ''] is the note. *)
Definition updated (a : Asset.t) (f : AssetForm.t) : Asset.t :=
  Asset.mk (Asset.id a) (AssetForm.date f) (AssetForm.type f)
           (AssetForm.amount f) (formRate f) (AssetForm.note f).

(** [handleSaveAsset]; [newId] is what [generateId()] returns and [today]
    the date the form is reset to. *)
Definition handleSaveAsset (st : State) (newId today : string) : State :=
  let f := newAsset st in
  if falsyNumber (AssetForm.amount f) || falsyString (AssetForm.date f)
  then st
  else
    match truthyId (editingAssetId st) with
    | Some eid =>
        mkState
          (map (fun a => if Asset.id a =? eid then updated a f else a)
               (assets st))
          (contributions st) None (blankAsset today) (newContribution st)
    | None =>
        mkState
          (assets st
           ++ [Asset.mk newId (AssetForm.date f) (AssetForm.type f)
                        (AssetForm.amount f) (formRate f) (AssetForm.note f)])
          (contributions st) (editingAssetId st) (blankAsset today)
          (newContribution st)
    end.

Definition handleEditAsset (st : State) (record : Asset.t) : State :=
  mkState (assets st) (contributions st) (Some (Asset.id record))
    (AssetForm.mk (Asset.date record) (Asset.type record)
                  (Asset.exchangeRate record) (Asset.amount record)
                  (Asset.note record))
    (newContribution st).

Definition handleCancelEdit (st : State) (today : string) : State :=
  mkState (assets st) (contributions st) None (blankAsset today)
          (newContribution st).

(** [handleDeleteAsset]; [confirmed] is what [confirm(...)] returns. *)
Definition handleDeleteAsset (st : State) (id : string) (confirmed : bool)
    (today : string) : State :=
  if confirmed then
    let editingThis :=
      match editingAssetId st with
      | Some e => e =? id
      | None => false
      end in
    let st1 := if editingThis then handleCancelEdit st today else st in
    mkState (filter (fun a => negb (Asset.id a =? id)) (assets st))
            (contributions st1) (editingAssetId st1) (newAsset st1)
            (newContribution st1)
  else st.

Definition handleAddContribution (st : State) (newId : string) : State :=
  let f := newContribution st in
  if falsyNumber (ContributionForm.amount f)
     || falsyString (ContributionForm.date f)
  then st
  else
    mkState (assets st)
      (contributions st
       ++ [Contribution.mk newId (ContributionForm.person f)
             (ContributionForm.date f) (ContributionForm.amount f)])
      (editingAssetId st) (newAsset st)
      (ContributionForm.mk (ContributionForm.date f)
                           (ContributionForm.person f) 0).

Definition handleDeleteContribution (st : State) (id : string)
    (confirmed : bool) : State :=
  if confirmed then
    mkState (assets st)
      (filter (fun c => negb (Contribution.id c =? id)) (contributions st))
      (editingAssetId st) (newAsset st) (newContribution st)
  else st.

(** The comparator of the two history tables, on contributions. *)
Definition contributionByDateDesc (a b : Contribution.t) : Z :=
  match getTime (Contribution.date b), getTime (Contribution.date a) with
  | Some tb, Some ta => tb - ta
  | _, _ => 0
  end.

(** [renderAssets] and [renderContributions] sort the state array itself:
    [assets.sort(...)] works in place, so the state the handlers and the
    dashboard read next is the sorted one. *)
Definition renderAssets (st : State) : State :=
  mkState (sort byDateDesc (assets st)) (contributions st)
          (editingAssetId st) (newAsset st) (newContribution st).

Definition renderContributions (st : State) : State :=
  mkState (assets st) (sort contributionByDateDesc (contributions st))
          (editingAssetId st) (newAsset st) (newContribution st).

(** [contributions.filter(c => c.person === p)
       .reduce((sum, c) => sum + c.amount, 0)] *)
Definition personTotal (contributions : list Contribution.t)
    (person : string) : float :=
  fold_left (fun sum c => (sum + Contribution.amount c)%float)
    (filter (fun c => Contribution.person c =? person) contributions)
    0%float.

(** One slice of the pie chart. *)
Record PieEntry : Type := mkPieEntry {
  name : string;
  value : float;
  type : string
}.

(** [currentStatus.k]; a missing property is [undefined], which compares
    like NaN. *)
Definition statusOf (o : Status) (k : string) : float :=
  match getProp k o with
  | Some v => v
  | None => nan
  end.

Definition pieData (assets : list Asset.t) : list PieEntry :=
  let status := currentStatus assets in
  filter (fun d => (0 <? value d)%float)
    [ mkPieEntry "台股" (statusOf status "tw_stock") "tw_stock";
      mkPieEntry "美股" (statusOf status "us_stock") "us_stock";
      mkPieEntry "台幣現金" (statusOf status "tw_cash") "tw_cash";
      mkPieEntry "美元現金" (statusOf status "us_cash") "us_cash" ].

(** What the user and the interface can do to the store.  The [onChange]
    handlers of the two forms replace one field each. *)
Inductive Event : Type :=
| ChangeAssetDate (v : string)
| ChangeAssetType (v : string)
| ChangeAssetAmount (x : float)
| ChangeAssetRate (x : float)
| ChangeAssetNote (v : string)
| EditAsset (record : Asset.t)
| SaveAsset (newId today : string)
| CancelEdit (today : string)
| DeleteAsset (id : string) (confirmed : bool) (today : string)
| ChangeContributionDate (v : string)
| ChangeContributionPerson (v : string)
| ChangeContributionAmount (x : float)
| AddContribution (newId : string)
| DeleteContribution (id : string) (confirmed : bool)
| RenderAssets
| RenderContributions.

Definition withAssetForm (st : State) (f : AssetForm.t) : State :=
  mkState (assets st) (contributions st) (editingAssetId st) f
          (newContribution st).

Definition withContributionForm (st : State) (f : ContributionForm.t)
    : State :=
  mkState (assets st) (contributions st) (editingAssetId st) (newAsset st) f.

Definition step (st : State) (e : Event) : State :=
  let f := newAsset st in
  let g := newContribution st in
  match e with
  | ChangeAssetDate v =>
      withAssetForm st
        (AssetForm.mk v (AssetForm.type f) (AssetForm.exchangeRate f)
                      (AssetForm.amount f) (AssetForm.note f))
  | ChangeAssetType v =>
      withAssetForm st
        (AssetForm.mk (AssetForm.date f) v (AssetForm.exchangeRate f)
                      (AssetForm.amount f) (AssetForm.note f))
  | ChangeAssetAmount x =>
      withAssetForm st
        (AssetForm.mk (AssetForm.date f) (AssetForm.type f)
                      (AssetForm.exchangeRate f) x (AssetForm.note f))
  | ChangeAssetRate x =>
      withAssetForm st
        (AssetForm.mk (AssetForm.date f) (AssetForm.type f) x
                      (AssetForm.amount f) (AssetForm.note f))
  | ChangeAssetNote v =>
      withAssetForm st
        (AssetForm.mk (AssetForm.date f) (AssetForm.type f)
                      (AssetForm.exchangeRate f) (AssetForm.amount f) v)
  | EditAsset record => handleEditAsset st record
  | SaveAsset newId today => handleSaveAsset st newId today
  | CancelEdit today => handleCancelEdit st today
  | DeleteAsset id confirmed today => handleDeleteAsset st id confirmed today
  | ChangeContributionDate v =>
      withContributionForm st
        (ContributionForm.mk v (ContributionForm.person g)
                             (ContributionForm.amount g))
  | ChangeContributionPerson v =>
      withContributionForm st
        (ContributionForm.mk (ContributionForm.date g) v
                             (ContributionForm.amount g))
  | ChangeContributionAmount x =>
      withContributionForm st
        (ContributionForm.mk (ContributionForm.date g)
                             (ContributionForm.person g) x)
  | AddContribution newId => handleAddContribution st newId
  | DeleteContribution id confirmed => handleDeleteContribution st id confirmed
  | RenderAssets => renderAssets st
  | RenderContributions => renderContributions st
  end.

(** The edit button belongs to a row of the table: the record it passes is
    one of the ledger. *)
Definition enabled (st : State) (e : Event) : Prop :=
  match e with
  | EditAsset record => In record (assets st)
  | _ => True
  end.

Inductive reachable (init : State) : State -> Prop :=
| reach_init : reachable init init
| reach_step (st : State) (e : Event) :
    reachable init st -> enabled st e -> reachable init (step st e).

End Store.

(** ** Vocabulary for the store *)

Module StoreSpec.

Import JSDate JSArray App Spec Store.

(** The comparator orders the elements of [l] by descending [key]. *)
Definition keyed {A : Type} (compareFn : A -> A -> Z) (key : A -> Z)
    (l : list A) : Prop :=
  forall a b, In a l -> In b l -> compareFn a b = key b - key a.

(** [a] may stand before [b] in descending order of [key]. *)
Definition descBy {A : Type} (key : A -> Z) (a b : A) : Prop :=
  key b <= key a.

(** A record as the asset form writes it: a date, an amount that is
    neither zero nor NaN, and the rate 1 unless the category is foreign. *)
Definition recordOk (r : Asset.t) : Prop :=
  Asset.date r <> ""%string
  /\ falsyNumber (Asset.amount r) = false
  /\ (isForeign (Asset.type r) = false -> Asset.exchangeRate r = 1%float).

Definition contributionOk (c : Contribution.t) : Prop :=
  Contribution.date c <> ""%string
  /\ falsyNumber (Contribution.amount c) = false.

(** The records are as the forms write them, and the record being edited,
    if any, is one of the ledger. *)
Definition storeOk (st : State) : Prop :=
  (forall r, In r (assets st) -> recordOk r)
  /\ (forall c, In c (contributions st) -> contributionOk c)
  /\ (forall e, editingAssetId st = Some e ->
                In e (map Asset.id (assets st))).

(** No other record of the ledger has the id of [r]. *)
Definition uniqueId (assets : list Asset.t) (r : Asset.t) : Prop :=
  forall a, In a assets -> Asset.id a = Asset.id r -> a = r.

(** The instant [k] calendar months before [t], as the Date setters
    compute it in local time. *)
Definition monthsBackInstant (tza t k : Z) : Z :=
  let lt := LocalTime (fixedOffset tza) t in
  UTC (fixedOffset tza)
    (MakeDate (MakeDay (YearFromTime lt) (MonthFromTime lt - k)
                       (DateFromTime lt))
              (TimeWithinDay lt)).

(** The periods of the chart with the months they span. *)
Definition periodMonths : list (string * Z) :=
  [ ("1m"%string, 1); ("3m"%string, 3); ("6m"%string, 6);
    ("1y"%string, 12); ("3y"%string, 36) ].

End StoreSpec.

(** ** States used as concrete inputs *)

Module StoreExamples.

Import Store Examples.

Local Open Scope string_scope.
Local Open Scope float_scope.

(** The state the application starts in when nothing is stored, the forms
    showing 2026-11-03. *)
Definition initialState : State :=
  mkState defaultAssets
    [ Contribution.mk "1" "A_Hui" "2026-12-31" 350000 ]
    None
    (AssetForm.mk "2026-11-03" "tw_stock" 1 0 "")
    (ContributionForm.mk "2026-11-03" "A_Ru" 0).

(** A later snapshot of foreign cash. *)
Definition laterRecord : Asset.t :=
  Asset.mk "9" "2026-06-30" "us_cash" 1000 32 "".

(** The initial state with that snapshot typed into the asset form. *)
Definition readyToSave : State :=
  mkState defaultAssets
    [ Contribution.mk "1" "A_Hui" "2026-12-31" 350000 ]
    None
    (AssetForm.mk "2026-06-30" "us_cash" 32 1000 "")
    (ContributionForm.mk "2026-11-03" "A_Ru" 0).

End StoreExamples.

(** * Facts about the platform model *)

(** ** Lists *)

Module ListFacts.

Import App Spec.

Lemma lastElem_cons {A : Type} (x : A) (l : list A) :
  exists y, lastElem (x :: l) = Some y /\ In y (x :: l).
Proof.
  unfold lastElem.
  destruct (nth_error (x :: l) (List.length (x :: l) - 1)) as [y|] eqn:E.
  - exists y. split; [reflexivity|]. eapply nth_error_In; eauto.
  - apply nth_error_None in E. simpl in E. lia.
Qed.

Lemma lastElem_cons2 {A : Type} (a b : A) (l : list A) :
  lastElem (a :: b :: l) = lastElem (b :: l).
Proof.
  unfold lastElem. cbn [List.length]. rewrite !Nat.sub_succ, !Nat.sub_0_r.
  reflexivity.
Qed.

Lemma lastElem_map {A B : Type} (f : A -> B) (l : list A) :
  lastElem (map f l) = option_map f (lastElem l).
Proof.
  unfold lastElem. rewrite length_map. apply nth_error_map.
Qed.

Lemma lastElem_in {A : Type} (l : list A) (x : A) :
  lastElem l = Some x -> In x l.
Proof. unfold lastElem. apply nth_error_In. Qed.

(** An element of a filtered list splits the list it was filtered from. *)
Lemma filter_split {A : Type} (f : A -> bool) (l l1' l2' : list A) (r : A) :
  filter f l = l1' ++ r :: l2' ->
  exists l1 l2, l = l1 ++ r :: l2 /\ filter f l1 = l1' /\ filter f l2 = l2'.
Proof.
  revert l1'. induction l as [|x l IH]; intros l1' H; simpl in H.
  - destruct l1'; discriminate.
  - destruct (f x) eqn:Ex.
    + destruct l1' as [|y l1']; simpl in H; injection H as -> H.
      * exists [], l. simpl. auto.
      * destruct (IH _ H) as (l1 & l2 & -> & H1 & H2).
        exists (y :: l1), l2. simpl. rewrite Ex, H1. auto.
    + destruct (IH _ H) as (l1 & l2 & -> & H1 & H2).
      exists (x :: l1), l2. simpl. rewrite Ex. auto.
Qed.

Lemma firstMax_in {A : Type} (key : A -> Z) (l : list A) (r : A) :
  firstMax key l r -> In r l /\ forall x, In x l -> key x <= key r.
Proof.
  intros (l1 & l2 & -> & H1 & H2). split; [apply in_elt|].
  intros x Hx. apply in_app_or in Hx.
  destruct Hx as [Hx|[<-|Hx]]; [specialize (H1 x Hx)|lia|now apply H2]. lia.
Qed.

Lemma lastElem_snoc {A : Type} (init : list A) (x : A) :
  lastElem (init ++ [x]) = Some x.
Proof.
  unfold lastElem. rewrite length_app. cbn [List.length].
  replace (List.length init + 1 - 1)%nat with (List.length init) by lia.
  rewrite nth_error_app2 by lia. now rewrite Nat.sub_diag.
Qed.

Lemma measures_metric (mode : string) (p : Point.t) :
  measures mode p (metric mode p).
Proof.
  unfold measures, metric.
  destruct (String.eqb_spec mode "total"); split; congruence.
Qed.

Lemma lastOf_lastElem {A : Type} (l : list A) (x : A) :
  lastOf l x -> lastElem l = Some x.
Proof. intros (init & ->). apply lastElem_snoc. Qed.

End ListFacts.

(** ** The code-unit order of strings *)

Module StringOrder.

Import Spec.

Lemma ascii_compare_refl (c : ascii) : Ascii.compare c c = Eq.
Proof. unfold Ascii.compare. apply N.compare_refl. Qed.

Lemma compare_refl (s : string) : String.compare s s = Eq.
Proof.
  induction s as [|c s IH]; simpl; [reflexivity|].
  now rewrite ascii_compare_refl.
Qed.

Lemma compare_eq (s1 s2 : string) : String.compare s1 s2 = Eq <-> s1 = s2.
Proof.
  split; [apply String.compare_eq_iff|].
  intros ->. apply compare_refl.
Qed.

Lemma compare_gt_lt (s1 s2 : string) :
  String.compare s1 s2 = Gt <-> String.compare s2 s1 = Lt.
Proof.
  rewrite (String.compare_antisym s2 s1).
  destruct (String.compare s1 s2); simpl; split; congruence.
Qed.

Lemma lt_irrefl (s : string) : ~ lt s s.
Proof. unfold lt. rewrite compare_refl. discriminate. Qed.

Lemma lt_trans (s1 s2 s3 : string) : lt s1 s2 -> lt s2 s3 -> lt s1 s3.
Proof.
  unfold lt. revert s2 s3.
  induction s1 as [|a s1 IH]; intros [|b s2] [|c s3]; simpl;
    try discriminate; try reflexivity.
  unfold Ascii.compare.
  destruct (N.compare_spec (N_of_ascii a) (N_of_ascii b)) as [Hab|Hab|Hab];
    try discriminate;
    destruct (N.compare_spec (N_of_ascii b) (N_of_ascii c)) as [Hbc|Hbc|Hbc];
    try discriminate; intros H1 H2.
  - rewrite Hab, Hbc, N.compare_refl. eauto.
  - rewrite Hab. now apply N.compare_lt_iff in Hbc as ->.
  - rewrite <- Hbc. now apply N.compare_lt_iff in Hab as ->.
  - assert (H : (N_of_ascii a < N_of_ascii c)%N) by lia.
    now apply N.compare_lt_iff in H as ->.
Qed.

Lemma ltb_lt (s1 s2 : string) : String.ltb s1 s2 = true <-> lt s1 s2.
Proof.
  unfold String.ltb, lt.
  destruct (String.compare s1 s2); split; congruence.
Qed.

End StringOrder.

(** ** Sorting and sets *)

Module SortFacts.

Import JSArray Spec.

Section Generic.

Context {A : Type} (compareFn : A -> A -> Z).

Lemma insert_perm (x : A) (l : list A) :
  Permutation (x :: l) (insert compareFn x l).
Proof.
  induction l as [|y l IH]; simpl; [reflexivity|].
  destruct (0 <? compareFn x y); [|reflexivity].
  rewrite perm_swap. now constructor.
Qed.

Lemma sort_perm (l : list A) : Permutation l (sort compareFn l).
Proof.
  induction l as [|x l IH]; simpl; [constructor|].
  rewrite <- insert_perm. now constructor.
Qed.

Lemma sort_nil_inv (l : list A) : sort compareFn l = [] -> l = [].
Proof.
  intros H. apply Permutation_nil. rewrite <- H.
  symmetry. apply sort_perm.
Qed.

Lemma sort_in (l : list A) (x : A) : In x (sort compareFn l) <-> In x l.
Proof.
  split; apply Permutation_in;
    [symmetry|]; apply sort_perm.
Qed.

(** Descending order by an integer key: the head of the sorted array is
    the first element of the input that carries the greatest key. *)
Variable key : A -> Z.

Lemma sort_desc_head (l : list A) :
  (forall a b, In a l -> In b l -> compareFn a b = key b - key a) ->
  forall r rest, sort compareFn l = r :: rest -> firstMax key l r.
Proof.
  induction l as [|x l IH]; intros Hc r rest Hs; [discriminate|].
  simpl in Hs.
  destruct (sort compareFn l) as [|r0 rest0] eqn:Hl.
  - apply sort_nil_inv in Hl. subst l. simpl in Hs.
    injection Hs as <- _. exists [], []. repeat split; simpl; tauto.
  - assert (Hr0 : firstMax key l r0).
    { apply (IH (fun a b Ha Hb => Hc a b (or_intror Ha) (or_intror Hb))
                r0 rest0 eq_refl). }
    assert (Hin : In r0 l).
    { apply sort_in. rewrite Hl. now left. }
    simpl in Hs. rewrite (Hc x r0 (or_introl eq_refl) (or_intror Hin)) in Hs.
    destruct Hr0 as (l1 & l2 & El & H1 & H2).
    destruct (0 <? key r0 - key x) eqn:Hlt.
    + injection Hs as <- _. apply Z.ltb_lt in Hlt.
      exists (x :: l1), l2. split; [now rewrite El|]. split; [|exact H2].
      intros y [<-|Hy]; [lia|now apply H1].
    + injection Hs as <- _. apply Z.ltb_ge in Hlt.
      exists [], l. split; [reflexivity|]. split; [simpl; tauto|].
      intros y Hy. rewrite El in Hy. apply in_app_or in Hy.
      destruct Hy as [Hy|[<-|Hy]];
        [specialize (H1 y Hy)|lia|specialize (H2 y Hy)]; lia.
Qed.

Lemma firstMax_unique (l : list A) (r1 r2 : A) :
  firstMax key l r1 -> firstMax key l r2 -> r1 = r2.
Proof.
  intros (a1 & a2 & E1 & Ha1 & Ha2) (b1 & b2 & E2 & Hb1 & Hb2).
  subst l. revert b1 E2 Hb1.
  induction a1 as [|x a1 IH]; intros [|y b1] E2 Hb1; simpl in *.
  - congruence.
  - injection E2 as <- E2.
    assert (In r2 a2) by (rewrite E2; apply in_elt).
    specialize (Hb1 r1 (or_introl eq_refl)). specialize (Ha2 r2 H). lia.
  - injection E2 as -> E2.
    assert (In r1 b2) by (rewrite <- E2; apply in_elt).
    specialize (Ha1 r2 (or_introl eq_refl)). specialize (Hb2 r1 H). lia.
  - injection E2 as <- E2.
    apply (IH (fun z Hz => Ha1 z (or_intror Hz)) b1 E2
              (fun z Hz => Hb1 z (or_intror Hz))).
Qed.

End Generic.

(** *** The default sort of an array of strings *)

Lemma insert_sorted (x : string) (l : list string) :
  Sorted le l -> Sorted le (insert defaultCompare x l).
Proof.
  induction 1 as [|y l Hs IH Hhd]; simpl.
  - repeat constructor.
  - unfold defaultCompare at 1.
    destruct (String.compare x y) eqn:E; simpl.
    + constructor; [now constructor|]. constructor. unfold le. congruence.
    + constructor; [now constructor|]. constructor. unfold le. congruence.
    + constructor; [exact IH|].
      assert (Hyx : le y x).
      { unfold le. apply StringOrder.compare_gt_lt in E. congruence. }
      destruct Hhd as [|z l Hyz]; simpl.
      * now constructor.
      * destruct (0 <? defaultCompare x z); now constructor.
Qed.

Lemma sort_sorted (l : list string) : Sorted le (sort defaultCompare l).
Proof.
  induction l as [|x l IH]; simpl; [constructor|].
  now apply insert_sorted.
Qed.

Lemma le_trans (s1 s2 s3 : string) : le s1 s2 -> le s2 s3 -> le s1 s3.
Proof.
  unfold le. intros H1 H2 H3.
  destruct (String.compare s1 s2) eqn:E1; try congruence;
    destruct (String.compare s2 s3) eqn:E2; try congruence.
  - apply StringOrder.compare_eq in E1, E2. subst.
    rewrite StringOrder.compare_refl in H3. discriminate.
  - apply StringOrder.compare_eq in E1. subst. congruence.
  - apply StringOrder.compare_eq in E2. subst. congruence.
  - pose proof (StringOrder.lt_trans _ _ _ E1 E2) as H.
    unfold lt in H. congruence.
Qed.

Lemma sorted_nodup_strict (l : list string) :
  Sorted le l -> NoDup l -> StronglySorted lt l.
Proof.
  intros Hs Hn.
  apply Sorted_StronglySorted in Hs; [|exact le_trans].
  induction Hs as [|x l Hs IH Hall]; constructor.
  - apply IH. now inversion Hn.
  - inversion Hn as [|? ? Hnotin _]; subst.
    rewrite Forall_forall in *. intros y Hy.
    specialize (Hall y Hy). unfold le in Hall. unfold lt.
    destruct (String.compare x y) eqn:E; try congruence.
    apply StringOrder.compare_eq in E. subst. contradiction.
Qed.

(** Two strictly ascending lists with the same elements are equal. *)
Lemma strict_sorted_unique (l1 l2 : list string) :
  StronglySorted lt l1 -> StronglySorted lt l2 ->
  (forall x, In x l1 <-> In x l2) -> l1 = l2.
Proof.
  intros H1. revert l2.
  induction H1 as [|x l1 Hs1 IH Hx]; intros l2 H2 Hin.
  - destruct l2 as [|y l2]; [reflexivity|].
    exfalso. apply (proj2 (Hin y)). now left.
  - destruct H2 as [|y l2 Hs2 Hy].
    + exfalso. apply (proj1 (Hin x)). now left.
    + rewrite Forall_forall in Hx, Hy.
      assert (x = y).
      { destruct (proj1 (Hin x) (or_introl eq_refl)) as [E|Hxl2]; [auto|].
        destruct (proj2 (Hin y) (or_introl eq_refl)) as [E|Hyl1]; [auto|].
        exfalso. apply (StringOrder.lt_irrefl x).
        eapply StringOrder.lt_trans; eauto. }
      subst y. f_equal. apply IH; [exact Hs2|].
      intros z; split; intros Hz.
      * destruct (proj1 (Hin z) (or_intror Hz)) as [E|]; [|assumption].
        subst z. exfalso. apply (StringOrder.lt_irrefl x). now apply Hx.
      * destruct (proj2 (Hin z) (or_intror Hz)) as [E|]; [|assumption].
        subst z. exfalso. apply (StringOrder.lt_irrefl x). now apply Hy.
Qed.

(** *** [Array.from(new Set(l))] *)

Lemma existsb_eqb_in (x : string) (l : list string) :
  existsb (String.eqb x) l = true <-> In x l.
Proof.
  rewrite existsb_exists. split.
  - intros (y & Hy & E). apply String.eqb_eq in E. now subst.
  - intros H. exists x. split; [exact H|apply String.eqb_refl].
Qed.

Lemma setFrom_in (l seen : list string) (x : string) :
  In x (setFrom seen l) <-> In x l /\ ~ In x seen.
Proof.
  revert seen. induction l as [|y l IH]; intros seen; simpl; [tauto|].
  destruct (existsb (String.eqb y) seen) eqn:E.
  - apply existsb_eqb_in in E. rewrite IH.
    split; [tauto|]. intros [[<-|H] Hn]; tauto.
  - assert (Hy : ~ In y seen).
    { intros H. apply existsb_eqb_in in H. congruence. }
    simpl. rewrite IH. simpl.
    destruct (string_dec y x) as [<-|Hne]; tauto.
Qed.

Lemma setFrom_nodup (l seen : list string) : NoDup (setFrom seen l).
Proof.
  revert seen. induction l as [|y l IH]; intros seen; simpl; [constructor|].
  destruct (existsb (String.eqb y) seen); [apply IH|].
  constructor; [|apply IH].
  rewrite setFrom_in. simpl. tauto.
Qed.

Lemma arrayFromSet_in (l : list string) (x : string) :
  In x (arrayFromSet l) <-> In x l.
Proof. unfold arrayFromSet. rewrite setFrom_in. simpl. tauto. Qed.

Lemma arrayFromSet_nodup (l : list string) : NoDup (arrayFromSet l).
Proof. apply setFrom_nodup. Qed.

End SortFacts.

(** ** The calendar *)

Module DateFacts.

Import JSDate.

Lemma isLeap_cases (y : Z) :
  (isLeap y = true /\ y mod 4 = 0 /\ (y mod 100 <> 0 \/ y mod 400 = 0))
  \/ (isLeap y = false /\ (y mod 4 <> 0 \/ (y mod 100 = 0 /\ y mod 400 <> 0))).
Proof.
  unfold isLeap.
  destruct (y mod 4 =? 0) eqn:E4; simpl;
    [apply Z.eqb_eq in E4|apply Z.eqb_neq in E4; right; tauto].
  destruct (y mod 100 =? 0) eqn:E100; simpl;
    [apply Z.eqb_eq in E100|apply Z.eqb_neq in E100; left; tauto].
  destruct (y mod 400 =? 0) eqn:E400; simpl;
    [apply Z.eqb_eq in E400; left; tauto|apply Z.eqb_neq in E400; right; tauto].
Qed.

(** A year has as many days as the distance to the next new year. *)
Lemma DayFromYear_succ (y : Z) :
  DayFromYear (y + 1) = DayFromYear y + DaysInYear y.
Proof.
  unfold DayFromYear, DaysInYear.
  destruct (isLeap_cases y) as [(-> & H)|(-> & H)];
    Z.div_mod_to_equations; lia.
Qed.

Lemma DayFromYear_mono (y y' : Z) : y <= y' -> DayFromYear y <= DayFromYear y'.
Proof.
  unfold DayFromYear. intros H. Z.div_mod_to_equations. lia.
Qed.

Lemma YearFromDay_bounds (d : Z) :
  DayFromYear (1970 + (400 * d) / 146097 - 1) <= d
    < DayFromYear (1970 + (400 * d) / 146097 + 2).
Proof.
  unfold DayFromYear. Z.div_mod_to_equations. lia.
Qed.

(** [YearFromDay d] is the year whose span of days holds [d]. *)
Lemma YearFromDay_spec (d : Z) :
  DayFromYear (YearFromDay d) <= d < DayFromYear (YearFromDay d + 1).
Proof.
  pose proof (YearFromDay_bounds d) as Hb.
  unfold YearFromDay.
  set (y0 := 1970 + (400 * d) / 146097) in *.
  destruct (DayFromYear (y0 + 1) <=? d) eqn:E1.
  - apply Z.leb_le in E1. replace (y0 + 1 + 1) with (y0 + 2) by lia. lia.
  - apply Z.leb_gt in E1.
    destruct (DayFromYear y0 <=? d) eqn:E2.
    + apply Z.leb_le in E2. lia.
    + apply Z.leb_gt in E2. replace (y0 - 1 + 1) with y0 by lia. lia.
Qed.

Lemma YearFromDay_unique (y d : Z) :
  DayFromYear y <= d < DayFromYear (y + 1) -> YearFromDay d = y.
Proof.
  intros H. pose proof (YearFromDay_spec d) as Hs.
  destruct (Z.lt_trichotomy (YearFromDay d) y) as [Hlt|[Heq|Hgt]];
    [exfalso|exact Heq|exfalso].
  - pose proof (DayFromYear_mono (YearFromDay d + 1) y). lia.
  - pose proof (DayFromYear_mono (y + 1) (YearFromDay d)). lia.
Qed.

Lemma Day_MakeDate (day time : Z) :
  0 <= time < msPerDay -> Day (MakeDate day time) = day.
Proof.
  unfold Day, MakeDate, msPerDay. intros H. Z.div_mod_to_equations. lia.
Qed.

Lemma TimeWithinDay_MakeDate (day time : Z) :
  0 <= time < msPerDay -> TimeWithinDay (MakeDate day time) = time.
Proof.
  unfold TimeWithinDay, MakeDate, msPerDay. intros H.
  Z.div_mod_to_equations. lia.
Qed.

Lemma MakeDate_Day (t : Z) : MakeDate (Day t) (TimeWithinDay t) = t.
Proof.
  unfold Day, MakeDate, TimeWithinDay, msPerDay. Z.div_mod_to_equations. lia.
Qed.

Lemma TimeWithinDay_range (t : Z) : 0 <= TimeWithinDay t < msPerDay.
Proof. unfold TimeWithinDay, msPerDay. Z.div_mod_to_equations. lia. Qed.

Lemma month_cases (m : Z) :
  0 <= m <= 11 ->
  m = 0 \/ m = 1 \/ m = 2 \/ m = 3 \/ m = 4 \/ m = 5 \/ m = 6 \/ m = 7
  \/ m = 8 \/ m = 9 \/ m = 10 \/ m = 11.
Proof. lia. Qed.

Ltac each_month H :=
  apply month_cases in H;
  destruct H as [H|[H|[H|[H|[H|[H|[H|[H|[H|[H|[H|H]]]]]]]]]]]; subst.

(** Evaluates the month tables at a literal month, leaving sums alone. *)
Ltac month_tables :=
  repeat match goal with
         | |- context [DaysInMonth ?y (?a + 1)] =>
             let v := eval vm_compute in (a + 1) in change (a + 1) with v
         end;
  unfold monthStart, DaysInMonth; cbv beta iota.

(** [MakeDay] folds a month outside 0..11 into the year. *)
Lemma MakeDay_normal (y m dt : Z) :
  MakeDay y m dt = MakeDay (y + m / 12) (m mod 12) dt.
Proof.
  unfold MakeDay.
  assert (H : 0 <= m mod 12 < 12) by (apply Z.mod_pos_bound; lia).
  rewrite (Z.div_small (m mod 12) 12 H), (Z.mod_small (m mod 12) 12 H).
  now rewrite Z.add_0_r.
Qed.

Lemma MakeDay_in_year (y m dt : Z) :
  0 <= m <= 11 -> 1 <= dt <= DaysInMonth y (m + 1) ->
  MakeDay y m dt
    = DayFromYear y + monthStart (if isLeap y then 1 else 0) m + dt - 1
  /\ 0 <= monthStart (if isLeap y then 1 else 0) m + dt - 1 < DaysInYear y.
Proof.
  intros Hm Hd. unfold MakeDay.
  rewrite (Z.div_small m 12), (Z.mod_small m 12), Z.add_0_r by lia.
  split; [reflexivity|].
  unfold DaysInYear. revert Hd.
  each_month Hm; month_tables; destruct (isLeap y); cbv iota; lia.
Qed.

(** The calendar fields of an instant built from a valid date are the ones
    it was built from. *)
Lemma fields_of_MakeDate (y m dt time : Z) :
  0 <= m <= 11 -> 1 <= dt <= DaysInMonth y (m + 1) ->
  0 <= time < msPerDay ->
  YearFromTime (MakeDate (MakeDay y m dt) time) = y
  /\ MonthFromTime (MakeDate (MakeDay y m dt) time) = m
  /\ DateFromTime (MakeDate (MakeDay y m dt) time) = dt
  /\ TimeWithinDay (MakeDate (MakeDay y m dt) time) = time.
Proof.
  intros Hm Hd Ht.
  destruct (MakeDay_in_year y m dt Hm Hd) as [Hday Hrange].
  assert (HY : YearFromTime (MakeDate (MakeDay y m dt) time) = y).
  { unfold YearFromTime. rewrite Day_MakeDate by exact Ht.
    apply YearFromDay_unique. rewrite DayFromYear_succ. lia. }
  assert (HW : DayWithinYear (MakeDate (MakeDay y m dt) time)
               = monthStart (if isLeap y then 1 else 0) m + dt - 1).
  { unfold DayWithinYear. rewrite HY, Day_MakeDate by exact Ht. lia. }
  assert (HM : MonthFromTime (MakeDate (MakeDay y m dt) time) = m).
  { unfold MonthFromTime, InLeapYear. rewrite HW, HY. clear HW HY Hday.
    unfold DaysInYear in Hrange. revert Hd Hrange. unfold monthOfDay.
    each_month Hm; month_tables; destruct (isLeap y); cbv iota;
      intros Hd Hrange;
      repeat match goal with
             | |- context [?a <? ?b] => destruct (Z.ltb_spec a b); try lia
             end. }
  repeat split; [exact HY|exact HM| |now apply TimeWithinDay_MakeDate].
  unfold DateFromTime, InLeapYear. rewrite HW, HM, HY. lia.
Qed.


Lemma monthOfDay_spec (y w : Z) :
  0 <= w < DaysInYear y ->
  0 <= monthOfDay (if isLeap y then 1 else 0) w <= 11
  /\ 1 <= w - monthStart (if isLeap y then 1 else 0)
                        (monthOfDay (if isLeap y then 1 else 0) w) + 1
       <= DaysInMonth y (monthOfDay (if isLeap y then 1 else 0) w + 1).
Proof.
  unfold DaysInYear, monthOfDay.
  destruct (isLeap y) eqn:El; intros Hw;
    repeat match goal with
           | |- context [?a <? ?b] => destruct (Z.ltb_spec a b)
           end;
    month_tables; rewrite ?El; lia.
Qed.

(** Every instant has well-formed calendar fields, and is the instant they
    denote. *)
Lemma fields_valid (t : Z) :
  0 <= MonthFromTime t <= 11
  /\ 1 <= DateFromTime t <= DaysInMonth (YearFromTime t) (MonthFromTime t + 1)
  /\ MakeDate (MakeDay (YearFromTime t) (MonthFromTime t) (DateFromTime t))
              (TimeWithinDay t) = t.
Proof.
  pose proof (YearFromDay_spec (Day t)) as Hs.
  rewrite DayFromYear_succ in Hs. fold (YearFromTime t) in Hs.
  assert (Hw : 0 <= DayWithinYear t < DaysInYear (YearFromTime t))
    by (unfold DayWithinYear; lia).
  destruct (monthOfDay_spec _ _ Hw) as [Hm Hd].
  fold (InLeapYear t) in Hm, Hd. fold (MonthFromTime t) in Hm, Hd.
  fold (DateFromTime t) in Hd.
  split; [exact Hm|]. split; [exact Hd|].
  destruct (MakeDay_in_year _ _ _ Hm Hd) as [-> _].
  fold (InLeapYear t). unfold DateFromTime.
  transitivity (MakeDate (Day t) (TimeWithinDay t)); [|apply MakeDate_Day].
  f_equal. unfold DayWithinYear. lia.
Qed.

End DateFacts.

(** ** Date strings *)

Module ParseFacts.

Import JSDate Spec DateFacts.

Lemma compare_transfer (a b c d : Z) :
  (a < b <-> c < d) -> (a = b <-> c = d) -> (a ?= b) = (c ?= d).
Proof.
  intros Hlt Heq.
  destruct (Z.compare_spec a b), (Z.compare_spec c d); try reflexivity; lia.
Qed.

Lemma digit_spec (c : ascii) (x : Z) :
  digit c = Some x -> 0 <= x <= 9 /\ Z.of_N (N_of_ascii c) = x + 48.
Proof.
  unfold digit.
  destruct (48 <=? Z.of_N (N_of_ascii c)) eqn:E1; [|discriminate].
  destruct (Z.of_N (N_of_ascii c) <=? 57) eqn:E2; [|discriminate].
  simpl. intros [= <-]. apply Z.leb_le in E1, E2. lia.
Qed.

Lemma digit_compare (c c' : ascii) (x x' : Z) :
  digit c = Some x -> digit c' = Some x' ->
  Ascii.compare c c' = (x ?= x').
Proof.
  intros H H'. apply digit_spec in H, H'.
  unfold Ascii.compare. rewrite <- N2Z.inj_compare.
  destruct H as [_ ->], H' as [_ ->]. apply compare_transfer; lia.
Qed.

Lemma lex_compare (B hi lo hi' lo' : Z) :
  0 <= lo < B -> 0 <= lo' < B ->
  (B * hi + lo ?= B * hi' + lo')
  = match hi ?= hi' with
    | Eq => lo ?= lo'
    | c => c
    end.
Proof.
  intros H H'. destruct (Z.compare_spec hi hi') as [->|Hlt|Hgt].
  - apply compare_transfer; lia.
  - apply Z.compare_lt_iff. nia.
  - apply Z.compare_gt_iff. nia.
Qed.

Lemma num2_inv (a b : ascii) (n : Z) :
  num2 a b = Some n ->
  exists x y, digit a = Some x /\ digit b = Some y /\ n = 10 * x + y
              /\ 0 <= x <= 9 /\ 0 <= y <= 9.
Proof.
  unfold num2. destruct (digit a) as [x|] eqn:Ea; [|discriminate].
  destruct (digit b) as [y|] eqn:Eb; [|discriminate].
  intros [= <-]. exists x, y.
  apply digit_spec in Ea as Ha. apply digit_spec in Eb as Hb. intuition.
Qed.

Lemma num2_compare (a b a' b' : ascii) (n n' : Z) :
  num2 a b = Some n -> num2 a' b' = Some n' ->
  (n ?= n')
  = match Ascii.compare a a' with
    | Eq => Ascii.compare b b'
    | c => c
    end.
Proof.
  intros H H'.
  destruct (num2_inv _ _ _ H) as (x & y & Hx & Hy & -> & Rx & Ry).
  destruct (num2_inv _ _ _ H') as (x' & y' & Hx' & Hy' & -> & Rx' & Ry').
  rewrite (digit_compare _ _ _ _ Hx Hx'), (digit_compare _ _ _ _ Hy Hy').
  apply lex_compare; lia.
Qed.

Lemma num2_range (a b : ascii) (n : Z) : num2 a b = Some n -> 0 <= n <= 99.
Proof.
  intros H. destruct (num2_inv _ _ _ H) as (x & y & _ & _ & -> & Rx & Ry).
  lia.
Qed.

Lemma num4_inv (a b c d : ascii) (n : Z) :
  num4 a b c d = Some n ->
  exists x y, num2 a b = Some x /\ num2 c d = Some y /\ n = 100 * x + y.
Proof.
  unfold num4. destruct (num2 a b) as [x|]; [|discriminate].
  destruct (num2 c d) as [y|]; [|discriminate].
  intros [= <-]. now exists x, y.
Qed.

Lemma num4_compare (a b c d a' b' c' d' : ascii) (n n' : Z) :
  num4 a b c d = Some n -> num4 a' b' c' d' = Some n' ->
  (n ?= n')
  = match Ascii.compare a a' with
    | Eq => match Ascii.compare b b' with
            | Eq => match Ascii.compare c c' with
                    | Eq => Ascii.compare d d'
                    | r => r
                    end
            | r => r
            end
    | r => r
    end.
Proof.
  intros H H'.
  destruct (num4_inv _ _ _ _ _ H) as (x & y & Hx & Hy & ->).
  destruct (num4_inv _ _ _ _ _ H') as (x' & y' & Hx' & Hy' & ->).
  pose proof (num2_range _ _ _ Hy). pose proof (num2_range _ _ _ Hy').
  rewrite lex_compare by lia.
  rewrite (num2_compare _ _ _ _ _ _ Hx Hx'), (num2_compare _ _ _ _ _ _ Hy Hy').
  destruct (Ascii.compare a a'); reflexivity.
Qed.

(** A string that parses is [YYYY-MM-DD] with a day that exists. *)
Lemma parseYMD_inv (s : string) (y m d : Z) :
  parseYMD s = Some (y, m, d) ->
  exists y1 y2 y3 y4 m1 m2 d1 d2,
    s = String y1 (String y2 (String y3 (String y4 (String "-"
          (String m1 (String m2 (String "-"
            (String d1 (String d2 EmptyString)))))))))
    /\ num4 y1 y2 y3 y4 = Some y /\ num2 m1 m2 = Some m
    /\ num2 d1 d2 = Some d
    /\ 1 <= m <= 12 /\ 1 <= d <= DaysInMonth y m.
Proof.
  unfold parseYMD. intros H.
  repeat match type of H with
         | match ?s with EmptyString => _ | String _ _ => _ end = _ =>
             destruct s; try discriminate
         end.
  destruct (num4 a a0 a1 a2) as [y'|] eqn:Ey; [|discriminate].
  destruct (num2 a4 a5) as [m'|] eqn:Em; [|discriminate].
  destruct (num2 a7 a8) as [d'|] eqn:Ed; [|discriminate].
  match type of H with (if ?c then _ else _) = _ => destruct c eqn:Ec end;
    [|discriminate].
  injection H as <- <- <-.
  repeat (apply andb_true_iff in Ec; destruct Ec as [Ec ?]).
  unfold isDash in *.
  repeat match goal with
         | H : Ascii.eqb _ _ = true |- _ => apply Ascii.eqb_eq in H; subst
         | H : (_ <=? _) = true |- _ => apply Z.leb_le in H
         end.
  exists a, a0, a1, a2, a4, a5, a7, a8. intuition.
Qed.

Lemma parseYMD_compare (s s' : string) (a b : Z * Z * Z) :
  parseYMD s = Some a -> parseYMD s' = Some b ->
  String.compare s s' = ymdCompare a b.
Proof.
  destruct a as [[y m] d], b as [[y' m'] d']. intros H H'.
  destruct (parseYMD_inv _ _ _ _ H)
    as (y1 & y2 & y3 & y4 & m1 & m2 & d1 & d2 & -> & Hy & Hm & Hd & _).
  destruct (parseYMD_inv _ _ _ _ H')
    as (z1 & z2 & z3 & z4 & n1 & n2 & e1 & e2 & -> & Hy' & Hm' & Hd' & _).
  unfold ymdCompare.
  rewrite (num4_compare _ _ _ _ _ _ _ _ _ _ Hy Hy'),
    (num2_compare _ _ _ _ _ _ Hm Hm'), (num2_compare _ _ _ _ _ _ Hd Hd').
  cbn [String.compare]. rewrite !StringOrder.ascii_compare_refl.
  repeat match goal with
         | |- context [Ascii.compare ?x ?y] =>
             destruct (Ascii.compare x y); try reflexivity
         end.
Qed.

(** Calendar order is the order of the day numbers. *)
Lemma ymdCompare_days (y m d y' m' d' : Z) :
  1 <= m <= 12 -> 1 <= d <= DaysInMonth y m ->
  1 <= m' <= 12 -> 1 <= d' <= DaysInMonth y' m' ->
  ymdCompare (y, m, d) (y', m', d')
  = (MakeDay y (m - 1) d ?= MakeDay y' (m' - 1) d').
Proof.
  intros Hm Hd Hm' Hd'.
  assert (Ek : exists k, m = k + 1 /\ 0 <= k <= 11) by (exists (m - 1); lia).
  assert (Ek' : exists k, m' = k + 1 /\ 0 <= k <= 11) by (exists (m' - 1); lia).
  destruct Ek as (k & -> & Hk), Ek' as (k' & -> & Hk').
  replace (k + 1 - 1) with k by lia. replace (k' + 1 - 1) with k' by lia.
  destruct (MakeDay_in_year y k d Hk Hd) as [-> Hr].
  destruct (MakeDay_in_year y' k' d' Hk' Hd') as [-> Hr'].
  unfold ymdCompare. symmetry.
  pose proof (DayFromYear_succ y) as Hs.
  pose proof (DayFromYear_succ y') as Hs'.
  destruct (Z.compare_spec y y') as [->|Hlt|Hgt].
  - clear Hs Hs' Hr Hr' Hm Hm'. revert Hd Hd'.
    destruct (Z.compare_spec (k + 1) (k' + 1)) as [E|Hlt|Hgt].
    + assert (k = k') as -> by lia. intros _ _. apply compare_transfer; lia.
    + intros Hd Hd'. apply Z.compare_lt_iff. revert Hd Hd'.
      each_month Hk; each_month Hk'; try lia;
        month_tables; destruct (isLeap y'); cbv iota; lia.
    + intros Hd Hd'. apply Z.compare_gt_iff. revert Hd Hd'.
      each_month Hk; each_month Hk'; try lia;
        month_tables; destruct (isLeap y'); cbv iota; lia.
  - apply Z.compare_lt_iff.
    pose proof (DayFromYear_mono (y + 1) y'). lia.
  - apply Z.compare_gt_iff.
    pose proof (DayFromYear_mono (y' + 1) y). lia.
Qed.

(** On well-formed dates the code-unit order of the strings is the order of
    the instants they denote. *)
Lemma getTime_compare (s s' : string) (t t' : Z) :
  getTime s = Some t -> getTime s' = Some t' ->
  String.compare s s' = (t ?= t').
Proof.
  unfold getTime.
  destruct (parseYMD s) as [[[y m] d]|] eqn:E; [|discriminate].
  destruct (parseYMD s') as [[[y' m'] d']|] eqn:E'; [|discriminate].
  intros [= <-] [= <-].
  rewrite (parseYMD_compare _ _ _ _ E E').
  destruct (parseYMD_inv _ _ _ _ E) as (? & ? & ? & ? & ? & ? & ? & ? & _ & _ & _ & _ & Hm & Hd).
  destruct (parseYMD_inv _ _ _ _ E') as (? & ? & ? & ? & ? & ? & ? & ? & _ & _ & _ & _ & Hm' & Hd').
  rewrite (ymdCompare_days _ _ _ _ _ _ Hm Hd Hm' Hd').
  unfold MakeDate, msPerDay. apply compare_transfer; lia.
Qed.

Lemma num4_range (a b c d : ascii) (n : Z) :
  num4 a b c d = Some n -> 0 <= n <= 9999.
Proof.
  intros H. destruct (num4_inv _ _ _ _ _ H) as (x & y & Hx & Hy & ->).
  apply num2_range in Hx, Hy. lia.
Qed.

(** Dates of four-digit years lie between 0000-01-01 and 9999-12-31. *)
Lemma getTime_range (s : string) (t : Z) :
  getTime s = Some t -> -62167219200000 <= t <= 253402214400000.
Proof.
  unfold getTime.
  destruct (parseYMD s) as [[[y m] d]|] eqn:E; [|discriminate].
  intros [= <-].
  destruct (parseYMD_inv _ _ _ _ E)
    as (? & ? & ? & ? & ? & ? & ? & ? & _ & Hy & _ & _ & Hm & Hd).
  apply num4_range in Hy.
  assert (Hm0 : 0 <= m - 1 <= 11) by lia.
  replace m with (m - 1 + 1) in Hd by lia.
  destruct (MakeDay_in_year y (m - 1) d Hm0 Hd) as [-> Hr].
  pose proof (DayFromYear_mono 0 y (proj1 Hy)) as H0.
  assert (H1 : DayFromYear (y + 1) <= DayFromYear 10000)
    by (apply DayFromYear_mono; lia).
  rewrite DayFromYear_succ in H1.
  change (DayFromYear 0) with (-719528) in H0.
  change (DayFromYear 10000) with 2932897 in H1.
  unfold MakeDate, msPerDay. lia.
Qed.

Lemma getTime_in_range (s : string) (t : Z) :
  getTime s = Some t -> TimeClip t = Some t.
Proof.
  intros H. apply getTime_range in H. unfold TimeClip, maxTime.
  destruct (Z.leb_spec (Z.abs t) 8640000000000000); [reflexivity|lia].
Qed.

Lemma getTime_lt (s s' : string) (t t' : Z) :
  getTime s = Some t -> getTime s' = Some t' -> (lt s s' <-> t < t').
Proof.
  intros H H'. unfold lt. rewrite (getTime_compare _ _ _ _ H H').
  apply Z.compare_lt_iff.
Qed.

Lemma getTime_inj (s s' : string) (t : Z) :
  getTime s = Some t -> getTime s' = Some t -> s = s'.
Proof.
  intros H H'. apply String.compare_eq_iff.
  rewrite (getTime_compare _ _ _ _ H H'). apply Z.compare_refl.
Qed.

End ParseFacts.

(** ** Calendar years of date strings *)

Module YearFacts.

Import JSDate App Spec DateFacts ParseFacts.

Lemma getTime_parse (s : string) :
  getTime s <> None -> exists y m d, parseYMD s = Some (y, m, d).
Proof.
  unfold getTime. destruct (parseYMD s) as [[[y m] d]|]; [|congruence].
  intros _. now exists y, m, d.
Qed.

Lemma parseYear_inv (ys : string) (Y : Z) :
  parseYear ys = Some Y ->
  exists a b c d,
    ys = String a (String b (String c (String d EmptyString)))
    /\ num4 a b c d = Some Y.
Proof.
  unfold parseYear. intros H.
  repeat match type of H with
         | match ?s with EmptyString => _ | String _ _ => _ end = _ =>
             destruct s; try discriminate
         end.
  now exists a, a0, a1, a2.
Qed.

Lemma ascii_compare_eq (a b : ascii) : Ascii.compare a b = Eq <-> a = b.
Proof.
  split; [apply Ascii.compare_eq_iff|].
  intros ->. apply StringOrder.ascii_compare_refl.
Qed.

(** [date.startsWith(year)] holds exactly for the dates of the year. *)
Lemma prefix_year (s ys : string) (y m d Y : Z) :
  parseYMD s = Some (y, m, d) -> parseYear ys = Some Y ->
  String.prefix ys s = (y =? Y).
Proof.
  intros Hs Hy.
  destruct (parseYMD_inv _ _ _ _ Hs)
    as (y1 & y2 & y3 & y4 & m1 & m2 & d1 & d2 & -> & Ey & _).
  destruct (parseYear_inv _ _ Hy) as (a & b & c & e & -> & EY).
  pose proof (num4_compare _ _ _ _ _ _ _ _ _ _ Ey EY) as Hc.
  cbn [String.prefix].
  destruct (Z.eqb_spec y Y) as [E|E].
  - subst Y. rewrite Z.compare_refl in Hc.
    destruct (Ascii.compare y1 a) eqn:E1; try discriminate.
    destruct (Ascii.compare y2 b) eqn:E2; try discriminate.
    destruct (Ascii.compare y3 c) eqn:E3; try discriminate.
    symmetry in Hc.
    apply ascii_compare_eq in E1, E2, E3, Hc. subst.
    repeat match goal with
           | |- context [ascii_dec ?x ?x] =>
               destruct (ascii_dec x x); [|congruence]
           end.
    reflexivity.
  - repeat match goal with
           | |- context [ascii_dec ?x ?z] =>
               destruct (ascii_dec x z); [subst|reflexivity]
           end.
    exfalso. apply E. rewrite !StringOrder.ascii_compare_refl in Hc.
    now apply Z.compare_eq_iff.
Qed.

Lemma parse_new_year (ys : string) (Y : Z) :
  parseYear ys = Some Y ->
  parseYMD (ys ++ "-01-01") = Some (Y, 1, 1).
Proof.
  intros Hy. destruct (parseYear_inv _ _ Hy) as (a & b & c & e & -> & EY).
  cbn [String.append parseYMD]. rewrite EY. reflexivity.
Qed.

(** [date < year + "-01-01"] holds exactly for the dates of earlier years. *)
Lemma ltb_year (s ys : string) (y m d Y : Z) :
  parseYMD s = Some (y, m, d) -> parseYear ys = Some Y ->
  String.ltb s (ys ++ "-01-01") = (y <? Y).
Proof.
  intros Hs Hy. unfold String.ltb.
  rewrite (parseYMD_compare _ _ _ _ Hs (parse_new_year _ _ Hy)).
  destruct (parseYMD_inv _ _ _ _ Hs)
    as (? & ? & ? & ? & ? & ? & ? & ? & _ & _ & _ & _ & Hm & Hd).
  unfold ymdCompare.
  destruct (Z.compare_spec y Y) as [->|Hlt|Hgt].
  - rewrite Z.ltb_irrefl.
    destruct (Z.compare_spec m 1) as [->|Hlt|Hgt]; [|lia|reflexivity].
    destruct (Z.compare_spec d 1) as [->|Hlt|Hgt]; [reflexivity|lia|reflexivity].
  - symmetry. now apply Z.ltb_lt.
  - symmetry. apply Z.ltb_ge. lia.
Qed.

Lemma in_year_spec (points : list Point.t) (year : string) (Y : Z)
    (p : Point.t) :
  validPoints points -> parseYear year = Some Y ->
  (In p (pointsInYear points year)
   <-> In p points /\ yearOfDate (Point.date p) = Some Y).
Proof.
  intros Hv Hy. unfold pointsInYear. rewrite filter_In.
  split; intros [Hin H]; (split; [exact Hin|]);
    destruct (getTime_parse _ (Hv p Hin)) as (y & m & d & E);
    unfold yearOfDate in *; rewrite E in *;
    rewrite (prefix_year _ _ _ _ _ _ E Hy) in *.
  - apply Z.eqb_eq in H. now subst.
  - injection H as ->. apply Z.eqb_refl.
Qed.

Lemma before_year_spec (points : list Point.t) (year : string) (Y : Z)
    (p : Point.t) :
  validPoints points -> parseYear year = Some Y ->
  (In p (pointsBeforeYear points year)
   <-> In p points
       /\ exists y, yearOfDate (Point.date p) = Some y /\ y < Y).
Proof.
  intros Hv Hy. unfold pointsBeforeYear. rewrite filter_In.
  split; intros [Hin H]; (split; [exact Hin|]);
    destruct (getTime_parse _ (Hv p Hin)) as (y & m & d & E);
    unfold yearOfDate in *; rewrite E in *;
    rewrite (ltb_year _ _ _ _ _ _ E Hy) in *.
  - exists y. split; [reflexivity|now apply Z.ltb_lt].
  - destruct H as (y' & [= <-] & Hlt). now apply Z.ltb_lt.
Qed.

End YearFacts.

(** ** Calendar subtraction *)

Module CalendarFacts.

Import JSDate Spec DateFacts.

Lemma MakeDay_first (y m dt : Z) :
  0 <= m <= 11 -> MakeDay y m dt = MakeDay y m 1 + (dt - 1).
Proof.
  intros Hm. unfold MakeDay.
  rewrite (Z.div_small m 12), (Z.mod_small m 12) by lia. lia.
Qed.

Lemma LocalTime_UTC (tza t : Z) :
  LocalTime (fixedOffset tza) (UTC (fixedOffset tza) t) = t.
Proof. unfold LocalTime, UTC, fixedOffset. lia. Qed.

Lemma TimeClip_some (t c : Z) : TimeClip t = Some c -> c = t.
Proof.
  unfold TimeClip. destruct (Z.abs t <=? maxTime); congruence.
Qed.

Lemma TimeClip_in_range (t : Z) : Z.abs t <= maxTime -> TimeClip t = Some t.
Proof.
  intros H. unfold TimeClip.
  destruct (Z.leb_spec (Z.abs t) maxTime); [reflexivity|lia].
Qed.

(** The reading [setMonth(M - k)] builds is the reading it starts from,
    moved [k] calendar months back. *)
Lemma monthsBack_reading (k lt : Z) :
  monthsBack k lt
    (MakeDate (MakeDay (YearFromTime lt) (MonthFromTime lt - k)
                       (DateFromTime lt))
              (TimeWithinDay lt)).
Proof.
  unfold monthsBack, fieldsOf.
  set (Y' := YearFromTime lt + (MonthFromTime lt - k) / 12).
  set (M' := (MonthFromTime lt - k) mod 12).
  assert (HM : 0 <= M' <= 11).
  { unfold M'. pose proof (Z.mod_pos_bound (MonthFromTime lt - k) 12). lia. }
  rewrite MakeDay_normal. fold Y' M'.
  rewrite (MakeDay_first Y' M' _ HM).
  split; [reflexivity|].
  intros HD.
  destruct (fields_valid lt) as (_ & [HD1 _] & _).
  rewrite <- (MakeDay_first Y' M' _ HM).
  destruct (fields_of_MakeDate Y' M' (DateFromTime lt) (TimeWithinDay lt))
    as (-> & -> & -> & ->);
    [exact HM|lia|apply TimeWithinDay_range|reflexivity].
Qed.

(** The reading [setFullYear(Y - n)] builds is the reading it starts from,
    moved [n] calendar years back. *)
Lemma yearsBack_reading (n lt : Z) :
  yearsBack n lt
    (MakeDate (MakeDay (YearFromTime lt - n) (MonthFromTime lt)
                       (DateFromTime lt))
              (TimeWithinDay lt)).
Proof.
  unfold yearsBack, fieldsOf.
  destruct (fields_valid lt) as (HM & [HD1 _] & _).
  rewrite (MakeDay_first _ _ _ HM).
  split; [reflexivity|].
  intros HD.
  rewrite <- (MakeDay_first _ _ _ HM).
  destruct (fields_of_MakeDate (YearFromTime lt - n) (MonthFromTime lt)
              (DateFromTime lt) (TimeWithinDay lt))
    as (-> & -> & -> & ->);
    [exact HM|lia|apply TimeWithinDay_range|reflexivity].
Qed.

(** *** How far the setters move an instant *)

Lemma DayFromYear_diff (y q : Z) :
  Z.abs (DayFromYear (y + q) - DayFromYear y) <= 366 * Z.abs q + 3.
Proof. unfold DayFromYear. Z.div_mod_to_equations. lia. Qed.

Lemma monthStart_bound (l m : Z) :
  0 <= l <= 1 -> 0 <= monthStart l m <= 335.
Proof.
  intros Hl. unfold monthStart.
  repeat match goal with
         | |- context [match ?x with _ => _ end] => destruct x
         end; lia.
Qed.

Lemma leap_bit (y : Z) : 0 <= (if isLeap y then 1 else 0) <= 1.
Proof. destruct (isLeap y); lia. Qed.

Lemma MakeDay_diff (y y' m m' d : Z) :
  Z.abs (MakeDay y m d - MakeDay y' m' d)
  <= 366 * Z.abs (y + m / 12 - (y' + m' / 12)) + 338.
Proof.
  unfold MakeDay.
  pose proof (DayFromYear_diff (y' + m' / 12) (y + m / 12 - (y' + m' / 12))) as H.
  replace (y' + m' / 12 + (y + m / 12 - (y' + m' / 12))) with (y + m / 12)
    in H by lia.
  pose proof (monthStart_bound _ (m mod 12) (leap_bit (y + m / 12))).
  pose proof (monthStart_bound _ (m' mod 12) (leap_bit (y' + m' / 12))).
  lia.
Qed.

(** The setters move a reading by whole days. *)
Lemma reading_shift (lt y m : Z) :
  MakeDate (MakeDay y m (DateFromTime lt)) (TimeWithinDay lt)
  = lt + (MakeDay y m (DateFromTime lt)
          - MakeDay (YearFromTime lt) (MonthFromTime lt) (DateFromTime lt))
         * msPerDay.
Proof.
  destruct (fields_valid lt) as (_ & _ & H). revert H.
  generalize (MakeDay y m (DateFromTime lt)).
  generalize (MakeDay (YearFromTime lt) (MonthFromTime lt) (DateFromTime lt)).
  generalize (TimeWithinDay lt).
  unfold MakeDate. intros T b a H. lia.
Qed.

Lemma month_shift_bound (lt k : Z) :
  Z.abs k <= 1200 ->
  Z.abs (MakeDay (YearFromTime lt) (MonthFromTime lt - k) (DateFromTime lt)
         - MakeDay (YearFromTime lt) (MonthFromTime lt) (DateFromTime lt))
  <= 40000.
Proof.
  intros Hk. destruct (fields_valid lt) as (HM & _ & _).
  pose proof (MakeDay_diff (YearFromTime lt) (YearFromTime lt)
                (MonthFromTime lt - k) (MonthFromTime lt) (DateFromTime lt)) as H.
  rewrite (Z.div_small (MonthFromTime lt) 12) in H by lia.
  revert H. generalize (MakeDay (YearFromTime lt) (MonthFromTime lt - k)
                          (DateFromTime lt)
                        - MakeDay (YearFromTime lt) (MonthFromTime lt)
                            (DateFromTime lt)).
  intros delta H. Z.div_mod_to_equations. lia.
Qed.

Lemma year_shift_bound (lt n : Z) :
  Z.abs n <= 100 ->
  Z.abs (MakeDay (YearFromTime lt - n) (MonthFromTime lt) (DateFromTime lt)
         - MakeDay (YearFromTime lt) (MonthFromTime lt) (DateFromTime lt))
  <= 40000.
Proof.
  intros Hn.
  pose proof (MakeDay_diff (YearFromTime lt - n) (YearFromTime lt)
                (MonthFromTime lt) (MonthFromTime lt) (DateFromTime lt)) as H.
  revert H. generalize (MakeDay (YearFromTime lt - n) (MonthFromTime lt)
                          (DateFromTime lt)
                        - MakeDay (YearFromTime lt) (MonthFromTime lt)
                            (DateFromTime lt)).
  intros delta H.
  replace (YearFromTime lt - n + MonthFromTime lt / 12
           - (YearFromTime lt + MonthFromTime lt / 12)) with (- n) in H by lia.
  lia.
Qed.

(** In a zone of fixed offset the setters always give a time value. *)
Lemma setMonth_defined (tza t k : Z) :
  Z.abs k <= 1200 -> Z.abs t <= 8000000000000000 ->
  exists c, setMonth (fixedOffset tza) t (getMonth (fixedOffset tza) t - k)
            = Some c.
Proof.
  intros Hk Ht. unfold setMonth, getMonth. rewrite reading_shift.
  pose proof (month_shift_bound (LocalTime (fixedOffset tza) t) k Hk) as H.
  eexists. apply TimeClip_in_range. revert H.
  generalize (MakeDay (YearFromTime (LocalTime (fixedOffset tza) t))
                (MonthFromTime (LocalTime (fixedOffset tza) t) - k)
                (DateFromTime (LocalTime (fixedOffset tza) t))
              - MakeDay (YearFromTime (LocalTime (fixedOffset tza) t))
                  (MonthFromTime (LocalTime (fixedOffset tza) t))
                  (DateFromTime (LocalTime (fixedOffset tza) t))).
  unfold UTC, LocalTime, fixedOffset, maxTime, msPerDay. intros delta H. lia.
Qed.

Lemma setFullYear_defined (tza t n : Z) :
  Z.abs n <= 100 -> Z.abs t <= 8000000000000000 ->
  exists c, setFullYear (fixedOffset tza) t
              (getFullYear (fixedOffset tza) t - n) = Some c.
Proof.
  intros Hn Ht. unfold setFullYear, getFullYear. rewrite reading_shift.
  pose proof (year_shift_bound (LocalTime (fixedOffset tza) t) n Hn) as H.
  eexists. apply TimeClip_in_range. revert H.
  generalize (MakeDay (YearFromTime (LocalTime (fixedOffset tza) t) - n)
                (MonthFromTime (LocalTime (fixedOffset tza) t))
                (DateFromTime (LocalTime (fixedOffset tza) t))
              - MakeDay (YearFromTime (LocalTime (fixedOffset tza) t))
                  (MonthFromTime (LocalTime (fixedOffset tza) t))
                  (DateFromTime (LocalTime (fixedOffset tza) t))).
  unfold UTC, LocalTime, fixedOffset, maxTime, msPerDay. intros delta H. lia.
Qed.

(** In any zone whose offsets are at most a day, [setMonth(getMonth() - k)]
    gives the instant of the reading moved [k] calendar months back. *)
Lemma setMonth_back (zone : Z -> bool -> Z) (t k : Z) :
  boundedZone zone -> Z.abs k <= 1200 -> Z.abs t <= 8000000000000000 ->
  exists w, monthsBack k (LocalTime zone t) w
            /\ setMonth zone t (getMonth zone t - k) = Some (UTC zone w).
Proof.
  intros Hz Hk Ht. unfold setMonth, getMonth.
  set (lt := LocalTime zone t).
  exists (MakeDate (MakeDay (YearFromTime lt) (MonthFromTime lt - k)
                            (DateFromTime lt))
                   (TimeWithinDay lt)).
  split; [apply monthsBack_reading|].
  apply TimeClip_in_range. rewrite reading_shift.
  pose proof (month_shift_bound lt k Hk) as H. revert H.
  generalize (MakeDay (YearFromTime lt) (MonthFromTime lt - k)
                (DateFromTime lt)
              - MakeDay (YearFromTime lt) (MonthFromTime lt)
                  (DateFromTime lt)).
  intros delta H. unfold UTC.
  pose proof (Hz (lt + delta * msPerDay) false) as H1.
  revert H1. generalize (zone (lt + delta * msPerDay) false). intros o1 H1.
  subst lt. unfold LocalTime. pose proof (Hz t true) as H2.
  revert H2. generalize (zone t true). intros o2 H2.
  unfold maxTime, msPerDay in *. lia.
Qed.

Lemma setFullYear_back (zone : Z -> bool -> Z) (t n : Z) :
  boundedZone zone -> Z.abs n <= 100 -> Z.abs t <= 8000000000000000 ->
  exists w, yearsBack n (LocalTime zone t) w
            /\ setFullYear zone t (getFullYear zone t - n) = Some (UTC zone w).
Proof.
  intros Hz Hn Ht. unfold setFullYear, getFullYear.
  set (lt := LocalTime zone t).
  exists (MakeDate (MakeDay (YearFromTime lt - n) (MonthFromTime lt)
                            (DateFromTime lt))
                   (TimeWithinDay lt)).
  split; [apply yearsBack_reading|].
  apply TimeClip_in_range. rewrite reading_shift.
  pose proof (year_shift_bound lt n Hn) as H. revert H.
  generalize (MakeDay (YearFromTime lt - n) (MonthFromTime lt)
                (DateFromTime lt)
              - MakeDay (YearFromTime lt) (MonthFromTime lt)
                  (DateFromTime lt)).
  intros delta H. unfold UTC.
  pose proof (Hz (lt + delta * msPerDay) false) as H1.
  revert H1. generalize (zone (lt + delta * msPerDay) false). intros o1 H1.
  subst lt. unfold LocalTime. pose proof (Hz t true) as H2.
  revert H2. generalize (zone t true). intros o2 H2.
  unfold maxTime, msPerDay in *. lia.
Qed.

End CalendarFacts.

(** ** Binary64 addition and the two zeros *)

Module FloatFacts.

Lemma neg_zero_dec (x : float) : {x = neg_zero} + {x <> neg_zero}.
Proof.
  destruct (Prim2SF x) as [[|]| | |] eqn:E.
  - left. apply Prim2SF_inj. now rewrite E.
  - right. intros ->. vm_compute in E. discriminate.
  - right. intros ->. vm_compute in E. discriminate.
  - right. intros ->. vm_compute in E. discriminate.
  - right. intros ->. vm_compute in E. discriminate.
Qed.

(** Adding to +0 changes nothing, except that it turns -0 into +0. *)
Lemma add_zero_l (x : float) : x <> neg_zero -> (0 + x)%float = x.
Proof.
  intros Hx. apply Prim2SF_inj. rewrite add_spec.
  change (Prim2SF 0) with (S754_zero false).
  destruct (Prim2SF x) as [[|]| | |] eqn:E; try reflexivity.
  exfalso. apply Hx. apply Prim2SF_inj. now rewrite E.
Qed.

(** Adding to -0 changes nothing. *)
Lemma add_neg_zero_l (x : float) : (neg_zero + x)%float = x.
Proof.
  apply Prim2SF_inj. rewrite add_spec.
  change (Prim2SF neg_zero) with (S754_zero true).
  destruct (Prim2SF x) as [[|]| | |] eqn:E; reflexivity.
Qed.

(** A sum of four numbers that starts from +0 is the sum that starts from
    the first number, unless all four are -0. *)
Lemma sum4_from_zero (a b c d : float) :
  (0 + a + b + c + d = a + b + c + d)%float
  \/ (a = neg_zero /\ b = neg_zero /\ c = neg_zero /\ d = neg_zero).
Proof.
  destruct (neg_zero_dec a) as [->|Ha]; [|left; now rewrite add_zero_l].
  change (0 + neg_zero)%float with 0%float. rewrite add_neg_zero_l.
  destruct (neg_zero_dec b) as [->|Hb]; [|left; now rewrite add_zero_l].
  change (0 + neg_zero)%float with 0%float. rewrite add_neg_zero_l.
  destruct (neg_zero_dec c) as [->|Hc]; [|left; now rewrite add_zero_l].
  change (0 + neg_zero)%float with 0%float. rewrite add_neg_zero_l.
  destruct (neg_zero_dec d) as [->|Hd]; [|left; now rewrite add_zero_l].
  right. auto.
Qed.

End FloatFacts.

(** ** The records behind a data point *)

Module TimelineFacts.

Import JSDate JSArray App Spec ListFacts SortFacts.

Lemma byDateDesc_key (a b : Asset.t) :
  getTime (Asset.date a) <> None -> getTime (Asset.date b) <> None ->
  byDateDesc a b = timeKey b - timeKey a.
Proof.
  unfold byDateDesc, timeKey.
  destruct (getTime (Asset.date a)), (getTime (Asset.date b)); congruence.
Qed.

Lemma relevant_in (assets : list Asset.t) (type d : string) (r : Asset.t) :
  In r (relevantRecords assets type (getTime d)) <-> candidate assets type d r.
Proof.
  unfold relevantRecords, candidate, atOrBefore, leTime.
  rewrite filter_In, andb_true_iff, String.eqb_eq.
  destruct (getTime (Asset.date r)) as [ta|], (getTime d) as [td|].
  - rewrite Z.leb_le. split.
    + intros (Hin & Ht & Hle). repeat split; auto. now exists ta, td.
    + intros (Hin & Ht & (ta' & td' & [= <-] & [= <-] & Hle)). auto.
  - split; [intros (_ & _ & [=])|intros (_ & _ & (? & ? & _ & [=] & _))].
  - split; [intros (_ & _ & [=])|intros (_ & _ & (? & ? & [=] & _))].
  - split; [intros (_ & _ & [=])|intros (_ & _ & (? & ? & [=] & _))].
Qed.

Lemma candidate_valid (assets : list Asset.t) (type d : string) (r : Asset.t) :
  candidate assets type d r -> getTime (Asset.date r) <> None.
Proof. intros (_ & _ & (ta & _ & -> & _)). discriminate. Qed.

Lemma latest_nil_iff (l : list Asset.t) : latest l = None <-> l = [].
Proof.
  unfold latest. split.
  - destruct (sort byDateDesc l) eqn:E; [|discriminate].
    intros _. now apply sort_nil_inv in E.
  - now intros ->.
Qed.

Lemma latest_firstMax (l : list Asset.t) (r : Asset.t) :
  (forall a, In a l -> getTime (Asset.date a) <> None) ->
  latest l = Some r -> firstMax timeKey l r.
Proof.
  unfold latest. intros Hv H.
  destruct (sort byDateDesc l) as [|r' rest] eqn:E; [discriminate|].
  injection H as ->.
  apply (sort_desc_head byDateDesc timeKey l) with (rest := rest); [|exact E].
  intros a b Ha Hb. apply byDateDesc_key; auto.
Qed.

Lemma timelineStep_latest (assets : list Asset.t) (m : option Z)
    (v : Vals) (type : string) :
  timelineStep assets m v type
  = match latest (relevantRecords assets type m) with
    | Some r => assign type (value r) v
    | None => v
    end.
Proof.
  unfold timelineStep, latest.
  destruct (relevantRecords assets type m) as [|a l]; [reflexivity|].
  destruct (sort byDateDesc (a :: l)); reflexivity.
Qed.

(** The value a data point holds for a category is the value of the latest
    relevant record, and zero when there is none. *)
Lemma categoryVals_latest (assets : list Asset.t) (d type : string) :
  In type ASSET_LABELS_keys ->
  categoryValue type (categoryVals assets d)
  = latestValue (relevantRecords assets type (getTime d)).
Proof.
  intros Htype. unfold categoryVals. cbn [fold_left].
  rewrite !timelineStep_latest. unfold latestValue.
  destruct Htype as [<-|[<-|[<-|[<-|[]]]]];
    destruct (latest (relevantRecords assets "tw_stock" (getTime d)));
    destruct (latest (relevantRecords assets "us_stock" (getTime d)));
    destruct (latest (relevantRecords assets "tw_cash" (getTime d)));
    destruct (latest (relevantRecords assets "us_cash" (getTime d)));
    reflexivity.
Qed.

Lemma latest_mostRecent (assets : list Asset.t) (type d : string)
    (r : Asset.t) :
  latest (relevantRecords assets type (getTime d)) = Some r ->
  firstMostRecent assets type d r.
Proof.
  intros E. apply latest_firstMax in E.
  2:{ intros a Ha. apply relevant_in in Ha. eapply candidate_valid; eauto. }
  pose proof (firstMax_in _ _ _ E) as [Hin Hmax].
  assert (Hr : mostRecent assets type d r).
  { split; [now apply relevant_in|].
    intros r' Hr'. apply Hmax. now apply relevant_in. }
  split; [exact Hr|].
  destruct E as (l1' & l2' & E & H1 & _).
  destruct (filter_split _ _ _ _ _ E) as (l1 & l2 & Ea & F1 & _).
  exists l1, l2. split; [exact Ea|].
  intros x Hx [Cx Mx].
  assert (Hx' : In x l1').
  { rewrite <- F1. apply filter_In. split; [exact Hx|].
    apply relevant_in in Cx. unfold relevantRecords in Cx.
    now apply filter_In in Cx. }
  specialize (H1 x Hx'). specialize (Mx r (proj1 Hr)). lia.
Qed.

Lemma latestValue_locf (assets : list Asset.t) (type d : string) :
  locfValue assets type d
    (latestValue (relevantRecords assets type (getTime d))).
Proof.
  unfold locfValue, latestValue.
  destruct (latest (relevantRecords assets type (getTime d))) as [r|] eqn:E.
  - apply latest_mostRecent in E. split.
    + intros _. now exists r.
    + intros Hno. exfalso. destruct E as [[Hc _] _]. exact (Hno r Hc).
  - apply latest_nil_iff in E. split; [|reflexivity].
    intros (r & Hr). apply relevant_in in Hr. rewrite E in Hr. destruct Hr.
Qed.

(** Two dates with no record of the category between them see the same
    relevant records. *)
Lemma first_unique {A : Type} (P : A -> Prop) (l1 l2 l1' l2' : list A)
    (r r' : A) :
  l1 ++ r :: l2 = l1' ++ r' :: l2' -> P r -> P r' ->
  (forall x, In x l1 -> ~ P x) -> (forall x, In x l1' -> ~ P x) -> r = r'.
Proof.
  revert l1'. induction l1 as [|x l1 IH]; intros [|y l1'] E Hr Hr' H H'.
  - now injection E.
  - injection E as -> _. destruct (H' y (or_introl eq_refl) Hr).
  - injection E as -> _. destruct (H r' (or_introl eq_refl) Hr').
  - injection E as _ E.
    apply (IH l1' E Hr Hr'); intros z Hz; [apply H|apply H']; now right.
Qed.

(** At most one value is carried forward to a date. *)
Lemma locfValue_unique (assets : list Asset.t) (type d : string)
    (v v' : float) :
  locfValue assets type d v -> locfValue assets type d v' -> v = v'.
Proof.
  intros [Hs Hn] [Hs' Hn'].
  destruct (relevantRecords assets type (getTime d)) as [|r0 l] eqn:E.
  - assert (Hno : forall r, ~ candidate assets type d r).
    { intros r Hr. apply relevant_in in Hr. rewrite E in Hr. destruct Hr. }
    now rewrite (Hn Hno), (Hn' Hno).
  - assert (Hex : exists r, candidate assets type d r).
    { exists r0. apply relevant_in. rewrite E. now left. }
    destruct (Hs Hex) as (r & [Hr (l1 & l2 & El & Hl)] & ->).
    destruct (Hs' Hex) as (r' & [Hr' (l1' & l2' & El' & Hl')] & ->).
    rewrite El in El'.
    now rewrite (first_unique _ _ _ _ _ _ _ El' Hr Hr' Hl Hl').
Qed.

Lemma relevant_carried (assets : list Asset.t) (type d1 d2 : string) :
  earlier d1 d2 ->
  (forall r, In r assets -> Asset.type r = type ->
             ~ (earlier d1 (Asset.date r) /\ atOrBefore d2 r)) ->
  relevantRecords assets type (getTime d2)
  = relevantRecords assets type (getTime d1).
Proof.
  intros (t1 & t2 & E1 & E2 & Hlt) Hno.
  unfold relevantRecords. apply filter_ext_in. intros r Hr.
  destruct (String.eqb_spec (Asset.type r) type) as [Ht|]; [|reflexivity].
  simpl. rewrite E1, E2. unfold leTime.
  destruct (getTime (Asset.date r)) as [tr|] eqn:Er; [|reflexivity].
  specialize (Hno r Hr Ht). unfold earlier, atOrBefore in Hno.
  rewrite Er, E1, E2 in Hno.
  destruct (Z.leb_spec tr t2), (Z.leb_spec tr t1); try reflexivity; try lia.
  exfalso. apply Hno. split.
  - exists t1, tr. auto.
  - exists tr, t2. auto.
Qed.

Lemma uniqueDates_in (assets : list Asset.t) (d : string) :
  In d (uniqueDates assets) <-> In d (map Asset.date assets).
Proof. unfold uniqueDates. now rewrite sort_in, arrayFromSet_in. Qed.

Lemma uniqueDates_nodup (assets : list Asset.t) : NoDup (uniqueDates assets).
Proof.
  unfold uniqueDates.
  eapply Permutation_NoDup; [apply sort_perm|apply arrayFromSet_nodup].
Qed.

Lemma uniqueDates_sorted (assets : list Asset.t) :
  StronglySorted lt (uniqueDates assets).
Proof.
  apply sorted_nodup_strict; [apply sort_sorted|apply uniqueDates_nodup].
Qed.

Lemma timeline_dates (assets : list Asset.t) :
  map Point.date (timelineData assets) = uniqueDates assets.
Proof.
  destruct assets as [|a l]; [reflexivity|].
  unfold timelineData. rewrite map_map. apply map_id.
Qed.

Lemma timeline_in (assets : list Asset.t) (p : Point.t) :
  In p (timelineData assets)
  <-> In (Point.date p) (map Asset.date assets)
      /\ p = dataPoint assets (Point.date p).
Proof.
  destruct assets as [|a l]; [simpl; tauto|].
  unfold timelineData. rewrite in_map_iff. split.
  - intros (d & <- & Hd). split; [|reflexivity].
    now apply uniqueDates_in.
  - intros (Hd & Hp). exists (Point.date p). split; [now symmetry|].
    now apply uniqueDates_in.
Qed.

End TimelineFacts.

(** * The claims of the specification *)

(** ** The timeline *)

Module TimelineClaims.

Import JSDate JSArray App Spec ListFacts SortFacts TimelineFacts ParseFacts.
Import Examples.

Local Set Warnings "-inexact-float".

Lemma sorted_chronological (l : list string) :
  (forall d, In d l -> getTime d <> None) ->
  StronglySorted lt l -> StronglySorted earlier l.
Proof.
  intros Hv Hs. induction Hs as [|x l Hs IH Hx]; constructor.
  - apply IH. intros d Hd. apply Hv. now right.
  - rewrite Forall_forall in *. intros y Hy.
    destruct (getTime x) as [tx|] eqn:Ex; [|now destruct (Hv x (or_introl eq_refl))].
    destruct (getTime y) as [ty|] eqn:Ey; [|now destruct (Hv y (or_intror Hy))].
    exists tx, ty. repeat split; auto.
    apply (getTime_lt x y tx ty Ex Ey). now apply Hx.
Qed.

(** C1. For every ledger and every date [d] that occurs in it, the timeline
    holds exactly one point of date [d].  Each of the four categories is
    worth on [d] the amount times the exchange rate of a most recent record
    of the category dated on or before [d] (of the first such record in
    ledger order), and zero when the category has no such record; the
    point holds the two equity values, their sum as the investment, and the
    four values added from left to right as the total.  Hence a category is
    worth on [d] what it is worth on any earlier date [d1] such that no
    record of the category is dated after [d1] and on or before [d]. *)
Theorem timeline_locf (assets : list Asset.t) (d : string) :
  In d (map Asset.date assets) ->
  exists p tw us twc usc,
    In p (timelineData assets) /\ Point.date p = d
    /\ (forall q, In q (timelineData assets) -> Point.date q = d -> q = p)
    /\ locfValue assets "tw_stock" d tw
    /\ locfValue assets "us_stock" d us
    /\ locfValue assets "tw_cash" d twc
    /\ locfValue assets "us_cash" d usc
    /\ holds p tw us twc usc
    /\ (forall type d1 v1,
          In type ASSET_LABELS_keys -> earlier d1 d ->
          (forall r, In r assets -> Asset.type r = type ->
                     ~ (earlier d1 (Asset.date r) /\ atOrBefore d r)) ->
          locfValue assets type d1 v1 ->
          ofCategory type tw us twc usc = v1).
Proof.
  intros Hd.
  assert (Hv : forall type, In type ASSET_LABELS_keys ->
            locfValue assets type d
              (categoryValue type (categoryVals assets d))).
  { intros type Ht. rewrite categoryVals_latest by exact Ht.
    apply latestValue_locf. }
  exists (dataPoint assets d), (twStockVal (categoryVals assets d)),
    (usStockVal (categoryVals assets d)), (twCashVal (categoryVals assets d)),
    (usCashVal (categoryVals assets d)).
  split; [apply timeline_in; split; [exact Hd|reflexivity]|].
  split; [reflexivity|].
  split; [intros q Hq <-; now apply timeline_in in Hq|].
  split; [apply (Hv "tw_stock"%string); simpl; auto|].
  split; [apply (Hv "us_stock"%string); simpl; auto|].
  split; [apply (Hv "tw_cash"%string); simpl; auto|].
  split; [apply (Hv "us_cash"%string); simpl; auto|].
  split; [repeat split|].
  intros type d1 v1 Ht He Hno Hv1.
  apply (locfValue_unique assets type d1); [|exact Hv1].
  replace (ofCategory type _ _ _ _)
    with (categoryValue type (categoryVals assets d))
    by (destruct Ht as [<-|[<-|[<-|[<-|[]]]]]; reflexivity).
  rewrite categoryVals_latest by exact Ht.
  rewrite (relevant_carried assets type d1 d He Hno).
  apply latestValue_locf.
Qed.

Lemma timeline_locf_witness :
  exists p tw us twc usc,
    In p (timelineData mixedAssets) /\ Point.date p = "2025-06-30"%string
    /\ (forall q, In q (timelineData mixedAssets) ->
                  Point.date q = "2025-06-30"%string -> q = p)
    /\ locfValue mixedAssets "tw_stock" "2025-06-30" tw
    /\ locfValue mixedAssets "us_stock" "2025-06-30" us
    /\ locfValue mixedAssets "tw_cash" "2025-06-30" twc
    /\ locfValue mixedAssets "us_cash" "2025-06-30" usc
    /\ holds p tw us twc usc
    /\ (forall type d1 v1,
          In type ASSET_LABELS_keys -> earlier d1 "2025-06-30" ->
          (forall r, In r mixedAssets -> Asset.type r = type ->
                     ~ (earlier d1 (Asset.date r)
                        /\ atOrBefore "2025-06-30" r)) ->
          locfValue mixedAssets type d1 v1 ->
          ofCategory type tw us twc usc = v1).
Proof.
  assert (H : In "2025-06-30"%string (map Asset.date mixedAssets))
    by (simpl; auto).
  exact (timeline_locf mixedAssets "2025-06-30" H).
Defined.

(** C2. The timeline of the empty ledger is empty.  For every ledger the
    dates of the timeline are exactly the dates that occur in the ledger,
    each once, in strictly ascending order of the date strings, so the
    timeline has as many points as the ledger has distinct dates; when all
    dates are well-formed the order is the chronological one. *)
Theorem timeline_one_point_per_date (assets : list Asset.t) :
  timelineData [] = []
  /\ (forall d, In d (map Point.date (timelineData assets))
                <-> In d (map Asset.date assets))
  /\ NoDup (map Point.date (timelineData assets))
  /\ StronglySorted lt (map Point.date (timelineData assets))
  /\ List.length (timelineData assets)
     = List.length (nodup string_dec (map Asset.date assets))
  /\ (validLedger assets ->
      StronglySorted earlier (map Point.date (timelineData assets))).
Proof.
  rewrite timeline_dates. split; [reflexivity|].
  split; [apply uniqueDates_in|].
  split; [apply uniqueDates_nodup|].
  split; [apply uniqueDates_sorted|].
  split.
  - rewrite <- (length_map Point.date), timeline_dates.
    apply Permutation_length, NoDup_Permutation.
    + apply uniqueDates_nodup.
    + apply NoDup_nodup.
    + intros d. rewrite uniqueDates_in, nodup_In. tauto.
  - intros Hv. apply sorted_chronological; [|apply uniqueDates_sorted].
    intros d Hd. apply uniqueDates_in, in_map_iff in Hd.
    destruct Hd as (a & <- & Ha). now apply Hv.
Qed.

Lemma timeline_one_point_per_date_witness :
  StronglySorted earlier (map Point.date (timelineData mixedAssets)).
Proof.
  apply (timeline_one_point_per_date mixedAssets).
  intros a Ha. simpl in Ha.
  repeat (destruct Ha as [<-|Ha]; [vm_compute; discriminate|]).
  destruct Ha.
Defined.

(** C3 fails as stated: with the values 0.1 (local stock), 0.2 (local cash)
    and 0.3 (foreign cash) the total is 0.6000000000000001, whereas the
    investment value plus the sum of the two cash values is 0.6. *)
Lemma total_not_investment_plus_cash :
  let p := dataPoint decimalAssets "2025-01-05" in
  let v := categoryVals decimalAssets "2025-01-05" in
  In p (timelineData decimalAssets)
  /\ Point.total p = 0.6000000000000001%float
  /\ (Point.investment p + (twCashVal v + usCashVal v))%float = 0.6%float
  /\ (Point.total p
      =? Point.investment p + (twCashVal v + usCashVal v))%float = false
  /\ Point.total p
     <> (Point.investment p + (twCashVal v + usCashVal v))%float.
Proof.
  split; [|split; [|split; [|split]]].
  - vm_compute. now left.
  - vm_compute. reflexivity.
  - vm_compute. reflexivity.
  - vm_compute. reflexivity.
  - intros E.
    apply (f_equal (fun x => PrimFloat.eqb x (Point.total
             (dataPoint decimalAssets "2025-01-05")))) in E.
    vm_compute in E. discriminate.
Qed.

(** C3, amended.  For every point of the timeline, the investment value is
    the sum of the two stock values, and the total is the sum of the four
    category values added from left to right in binary64 arithmetic: the
    investment value, plus the local cash value, plus the foreign cash
    value.  The point also carries the two stock values themselves. *)
Theorem timeline_sums (assets : list Asset.t) (p : Point.t) :
  In p (timelineData assets) ->
  let v := categoryVals assets (Point.date p) in
  Point.investment p = (twStockVal v + usStockVal v)%float
  /\ Point.total p
     = (twStockVal v + usStockVal v + twCashVal v + usCashVal v)%float
  /\ Point.total p = (Point.investment p + twCashVal v + usCashVal v)%float
  /\ Point.tw_inv p = twStockVal v
  /\ Point.us_inv p = usStockVal v.
Proof.
  intros Hp v. apply timeline_in in Hp. destruct Hp as [_ Hp].
  subst v. set (d := Point.date p) in *. clearbody d. subst p.
  simpl. auto.
Qed.

Lemma timeline_sums_witness :
  let p := dataPoint decimalAssets "2025-01-05" in
  let v := categoryVals decimalAssets "2025-01-05" in
  Point.total p = (Point.investment p + twCashVal v + usCashVal v)%float.
Proof.
  apply (timeline_sums decimalAssets (dataPoint decimalAssets "2025-01-05")).
  vm_compute. now left.
Defined.

(** *** Reordering the ledger *)

Lemma perm_uniqueDates (l1 l2 : list Asset.t) :
  Permutation l1 l2 -> uniqueDates l1 = uniqueDates l2.
Proof.
  intros Hp. apply strict_sorted_unique; try apply uniqueDates_sorted.
  intros d. rewrite !uniqueDates_in.
  split; apply Permutation_in; [|symmetry]; now apply Permutation_map.
Qed.

Lemma perm_candidate (l1 l2 : list Asset.t) (type d : string) (r : Asset.t) :
  Permutation l1 l2 -> candidate l1 type d r -> candidate l2 type d r.
Proof.
  intros Hp (Hin & Ht & Hb). repeat split; auto.
  now apply (Permutation_in r Hp).
Qed.

Lemma perm_latest_value (l1 l2 : list Asset.t) (type d : string) :
  Permutation l1 l2 -> consistent l1 ->
  option_map value (latest (relevantRecords l1 type (getTime d)))
  = option_map value (latest (relevantRecords l2 type (getTime d))).
Proof.
  intros Hp Hc.
  assert (Hv : forall l a, In a (relevantRecords l type (getTime d)) ->
                           getTime (Asset.date a) <> None).
  { intros l a Ha. apply relevant_in in Ha. eapply candidate_valid; eauto. }
  destruct (latest (relevantRecords l1 type (getTime d))) as [r1|] eqn:E1;
    destruct (latest (relevantRecords l2 type (getTime d))) as [r2|] eqn:E2;
    simpl; try reflexivity.
  - apply latest_firstMax, firstMax_in in E1; [|apply Hv].
    apply latest_firstMax, firstMax_in in E2; [|apply Hv].
    destruct E1 as [In1 Max1], E2 as [In2 Max2].
    apply relevant_in in In1 as C1. apply relevant_in in In2 as C2.
    assert (C21 : candidate l1 type d r2)
      by (apply (perm_candidate l2 l1); [now symmetry|exact C2]).
    assert (C12 : candidate l2 type d r1)
      by (apply (perm_candidate l1 l2); assumption).
    assert (K : timeKey r1 = timeKey r2).
    { apply Z.le_antisymm.
      - apply Max2. now apply relevant_in.
      - apply Max1. now apply relevant_in. }
    f_equal.
    destruct C1 as (I1 & T1 & (t1 & _ & G1 & _)).
    destruct C21 as (I2 & T2 & (t2 & _ & G2 & _)).
    unfold timeKey in K. rewrite G1, G2 in K. subst t2.
    apply (Hc r1 r2 t1); congruence.
  - exfalso. apply latest_nil_iff in E2.
    apply latest_firstMax, firstMax_in in E1; [|apply Hv].
    destruct E1 as [In1 _]. apply relevant_in in In1.
    apply (perm_candidate l1 l2) in In1; [|exact Hp].
    apply relevant_in in In1. rewrite E2 in In1. destruct In1.
  - exfalso. apply latest_nil_iff in E1.
    apply latest_firstMax, firstMax_in in E2; [|apply Hv].
    destruct E2 as [In2 _]. apply relevant_in in In2.
    apply (perm_candidate l2 l1) in In2; [|now symmetry].
    apply relevant_in in In2. rewrite E1 in In2. destruct In2.
Qed.

Lemma perm_timelineStep (l1 l2 : list Asset.t) (d type : string) (v : Vals) :
  Permutation l1 l2 -> consistent l1 ->
  timelineStep l1 (getTime d) v type = timelineStep l2 (getTime d) v type.
Proof.
  intros Hp Hc. rewrite !timelineStep_latest.
  pose proof (perm_latest_value l1 l2 type d Hp Hc) as H.
  destruct (latest (relevantRecords l1 type (getTime d)));
    destruct (latest (relevantRecords l2 type (getTime d)));
    simpl in H; congruence.
Qed.

Lemma perm_dataPoint (l1 l2 : list Asset.t) (d : string) :
  Permutation l1 l2 -> consistent l1 -> dataPoint l1 d = dataPoint l2 d.
Proof.
  intros Hp Hc. unfold dataPoint. f_equal; f_equal;
    unfold categoryVals; cbn [fold_left];
    now rewrite !(perm_timelineStep l1 l2 d _ _ Hp Hc).
Qed.

(** C4 fails as stated: two records of one category on one day, worth 100
    and 200, give a total of 100 in one order and of 200 in the other. *)
Lemma timeline_order_dependent :
  Permutation [clashA; clashB] [clashB; clashA]
  /\ map Point.total (timelineData [clashA; clashB]) = [100%float]
  /\ map Point.total (timelineData [clashB; clashA]) = [200%float]
  /\ timelineData [clashA; clashB] <> timelineData [clashB; clashA].
Proof.
  split; [apply perm_swap|].
  split; [vm_compute; reflexivity|].
  split; [vm_compute; reflexivity|].
  intros E.
  apply (f_equal (fun l => map (fun p => PrimFloat.eqb (Point.total p) 100) l))
    in E.
  vm_compute in E. discriminate.
Qed.

(** C4, amended.  When the records of the ledger that share a category and
    a date are worth the same (in particular when no two records share
    both), every reordering of the ledger has the same timeline. *)
Theorem timeline_permutation (l1 l2 : list Asset.t) :
  Permutation l1 l2 -> consistent l1 -> timelineData l1 = timelineData l2.
Proof.
  intros Hp Hc. destruct l1 as [|a1 l1], l2 as [|a2 l2].
  - reflexivity.
  - apply Permutation_nil in Hp. discriminate.
  - symmetry in Hp. apply Permutation_nil in Hp. discriminate.
  - unfold timelineData. rewrite (perm_uniqueDates _ _ Hp).
    apply map_ext. intros d. now apply perm_dataPoint.
Qed.

Lemma defaultAssets_consistent : consistent defaultAssets.
Proof.
  intros r r' t Hr Hr'. simpl in Hr, Hr'.
  repeat (destruct Hr as [<-|Hr]; [|]); try destruct Hr;
    repeat (destruct Hr' as [<-|Hr']; [|]); try destruct Hr';
    vm_compute; congruence.
Defined.

Lemma timeline_permutation_witness :
  timelineData defaultAssets = timelineData (rev defaultAssets).
Proof.
  apply (timeline_permutation defaultAssets (rev defaultAssets)).
  - apply Permutation_rev.
  - exact defaultAssets_consistent.
Defined.

End TimelineClaims.

(** ** Trailing growth and the period filter *)

Module PeriodClaims.

Import JSDate JSArray App Spec ListFacts CalendarFacts Examples.

Local Set Warnings "-inexact-float".

Section Nearest.

Variable target : Z.

Lemma absDiff_valid (p : Point.t) :
  getTime (Point.date p) <> None ->
  absDiff (getTime (Point.date p)) (Some target)
  = Some (distanceTo target p).
Proof.
  unfold absDiff, distanceTo, pointTime.
  destruct (getTime (Point.date p)); congruence.
Qed.

(** The scan from a point already taken as nearest ends on the first
    nearest point of that point followed by the rest. *)
Lemma scan_nearest (l : list Point.t) (c : Point.t) :
  (forall p, In p l -> getTime (Point.date p) <> None) ->
  nearestFirst target (c :: l)
    (fst (fold_left (nearestStep (Some target)) l
            (c, Some (distanceTo target c)))).
Proof.
  revert c. induction l as [|p l IH]; intros c Hv.
  - exists [], []. simpl. repeat split; tauto.
  - cbn [fold_left]. unfold nearestStep at 2. cbn [snd].
    rewrite absDiff_valid by (apply Hv; now left). cbn [ltDiff].
    assert (Hv' : forall q, In q l -> getTime (Point.date q) <> None)
      by (intros q Hq; apply Hv; now right).
    destruct (Z.ltb_spec (distanceTo target p) (distanceTo target c)) as [Hlt|Hge].
    + destruct (IH p Hv') as (l1 & l2 & E & H1 & H2).
      revert E H1 H2.
      generalize (fst (fold_left (nearestStep (Some target)) l
                         (p, Some (distanceTo target p)))).
      intros r E H1 H2.
      exists (c :: l1), l2. split; [now rewrite E|]. split; [|exact H2].
      intros q [<-|Hq]; [|now apply H1].
      destruct l1 as [|x l1].
      * injection E as <- _. exact Hlt.
      * injection E as <- _. specialize (H1 p (or_introl eq_refl)). lia.
    + destruct (IH c Hv') as (l1 & l2 & E & H1 & H2).
      revert E H1 H2.
      generalize (fst (fold_left (nearestStep (Some target)) l
                         (c, Some (distanceTo target c)))).
      intros r E H1 H2.
      destruct l1 as [|x l1].
      * injection E as <- <-. exists [], (p :: l).
        split; [reflexivity|]. split; [simpl; tauto|].
        intros q [<-|Hq]; [exact Hge|now apply H2].
      * injection E as <- ->. exists (c :: p :: l1), l2.
        split; [reflexivity|]. split; [|exact H2].
        intros q [<-|[<-|Hq]].
        -- apply H1. now left.
        -- specialize (H1 c (or_introl eq_refl)). lia.
        -- apply H1. now right.
Qed.

Lemma comparisonPoint_nearest (first : Point.t) (l : list Point.t) :
  (forall p, In p (first :: l) -> getTime (Point.date p) <> None) ->
  nearestFirst target (first :: l)
    (comparisonPoint (first :: l) first (Some target)).
Proof.
  intros Hv. unfold comparisonPoint. cbn [fold_left].
  unfold nearestStep at 2. cbn [snd].
  rewrite absDiff_valid by (apply Hv; now left). cbn [ltDiff].
  apply scan_nearest. intros p Hp. apply Hv. now right.
Qed.

End Nearest.

(** Within the day that starts at [t], clocks show the date of [t]. *)
Lemma fields_within_day (t off : Z) :
  TimeWithinDay t = 0 -> 0 <= off < msPerDay ->
  fieldsOf (t + off)
  = (YearFromTime t, MonthFromTime t, DateFromTime t, off).
Proof.
  intros Ht Hoff.
  assert (Hd : Day (t + off) = Day t).
  { revert Ht. unfold Day, TimeWithinDay. revert Hoff. unfold msPerDay.
    intros Hoff Ht. Z.div_mod_to_equations. lia. }
  assert (Hw : TimeWithinDay (t + off) = off).
  { revert Ht. unfold TimeWithinDay. revert Hoff. unfold msPerDay.
    intros Hoff Ht. Z.div_mod_to_equations. lia. }
  unfold fieldsOf. rewrite Hw.
  unfold DateFromTime, MonthFromTime, InLeapYear, DayWithinYear, YearFromTime.
  now rewrite Hd.
Qed.

Lemma getTime_midnight (s : string) (t : Z) :
  getTime s = Some t -> TimeWithinDay t = 0.
Proof.
  unfold getTime. destruct (parseYMD s) as [[[y m] d]|]; [|discriminate].
  intros [= <-]. apply DateFacts.TimeWithinDay_MakeDate. unfold msPerDay. lia.
Qed.

(** Where the offset is from 0 to under a day east of Greenwich and the
    same at both ends, moving the local reading of a UTC midnight back is
    moving the UTC date back. *)
Lemma monthsBack_east (zone : Z -> bool -> Z) (k t w : Z) :
  TimeWithinDay t = 0 ->
  0 <= zone t true < msPerDay -> zone w false = zone t true ->
  monthsBack k (LocalTime zone t) w -> monthsBack k t (UTC zone w).
Proof.
  intros Ht Hoff Hsame Hw.
  pose proof (monthsBack_reading k t) as H0.
  assert (E : UTC zone w
              = MakeDate (MakeDay (YearFromTime t) (MonthFromTime t - k)
                                  (DateFromTime t))
                         (TimeWithinDay t)); [|now rewrite E].
  destruct H0 as [E0 _]. revert E0. unfold fieldsOf.
  intros ->. revert Hw. unfold monthsBack, LocalTime.
  rewrite (fields_within_day t (zone t true) Ht Hoff).
  intros [-> _]. unfold UTC. rewrite Hsame, Ht.
  unfold MakeDate. lia.
Qed.



Lemma monthsBack_value (k w w' : Z) :
  monthsBack k w w' ->
  w' = MakeDate (MakeDay (YearFromTime w + (MonthFromTime w - k) / 12)
                         ((MonthFromTime w - k) mod 12) 1
                 + (DateFromTime w - 1))
                (TimeWithinDay w).
Proof. unfold monthsBack, fieldsOf. now intros [-> _]. Qed.


Lemma notBefore_spec (cutoff : Z) (p : Point.t) :
  notBefore (Some cutoff) p = true <-> onOrAfter cutoff p.
Proof.
  unfold notBefore, onOrAfter.
  destruct (getTime (Point.date p)) as [t|].
  - rewrite Z.leb_le. split; [intros H; now exists t|].
    now intros (t' & [= <-] & H).
  - split; [discriminate|]. now intros (t' & [=] & _).
Qed.

Lemma filter_kept {A : Type} (P : A -> Prop) (f : A -> bool) (l : list A) :
  (forall x, f x = true <-> P x) -> kept P l (filter f l).
Proof.
  intros H. induction l as [|x l IH]; [constructor|]. cbn [filter].
  destruct (f x) eqn:E.
  - apply kept_cons; [now apply H|exact IH].
  - apply kept_skip; [|exact IH]. intros Hx. apply H in Hx. congruence.
Qed.

(** Noon, at eight hours east of Greenwich, of four days: one month back
    is 28 days from 15 March 2026 and 31 days from 15 February 2026; from
    31 March 2026 it is 3 March, February having no 31st; and one year back
    from 29 February 2024 is 1 March 2023. *)
Example cutoff_by_the_calendar :
  let noon d :=
    match getTime d with
    | Some t => t + 14400000
    | None => 0
    end in
  let cutoff period d :=
    cutoffDate (fixedOffset 28800000) period (noon d) (noon d) in
  cutoff "1m"%string "2026-03-15"%string = Some (noon "2026-02-15"%string)
  /\ cutoff "1m"%string "2026-02-15"%string = Some (noon "2026-01-15"%string)
  /\ cutoff "1m"%string "2026-03-31"%string = Some (noon "2026-03-03"%string)
  /\ cutoff "1y"%string "2024-02-29"%string = Some (noon "2023-03-01"%string).
Proof. vm_compute. repeat split. Qed.

(** X18. With the period "all" the filter returns the timeline as it is.
    The function reads the clock twice.  With "1m", "3m" and "6m", when
    local clocks show the same month at both readings, it returns, in their
    order, exactly the points dated (at midnight UTC) at or after the
    cutoff, which is the instant of the second reading moved 1, 3 and 6
    calendar months back on local clocks; with "1y" and "3y" likewise, when
    local clocks show the same year at both readings, the reading being
    moved 1 and 3 calendar years back.  The second reading is a time value
    of magnitude at most 8e15 milliseconds (the time range ends at
    8.64e15), and the offsets of the zone are at most a day. *)
Theorem filtered_timeline (zone : Z -> bool -> Z) (points : list Point.t)
    (now now' : Z) :
  Z.abs now' <= 8000000000000000 -> boundedZone zone ->
  filteredTimeline zone points "all" now now' = points
  /\ (forall key k,
        In (key, k) [("1m"%string, 1); ("3m"%string, 3); ("6m"%string, 6)] ->
        sameLocalMonth zone now now' ->
        exists w cutoff,
          monthsBack k (LocalTime zone now') w
          /\ cutoff = UTC zone w
          /\ kept (onOrAfter cutoff) points
               (filteredTimeline zone points key now now'))
  /\ (forall key n,
        In (key, n) [("1y"%string, 1); ("3y"%string, 3)] ->
        sameLocalYear zone now now' ->
        exists w cutoff,
          yearsBack n (LocalTime zone now') w
          /\ cutoff = UTC zone w
          /\ kept (onOrAfter cutoff) points
               (filteredTimeline zone points key now now')).
Proof.
  intros Hnow Hz.
  split; [reflexivity|]. split.
  - intros key k Hk Hsame.
    destruct (setMonth_back zone now' k Hz) as (w & Hw & Ec);
      [destruct Hk as [[= <- <-]|[[= <- <-]|[[= <- <-]|[]]]]; lia|exact Hnow|].
    exists w, (UTC zone w). split; [exact Hw|]. split; [reflexivity|].
    replace (filteredTimeline zone points key now now')
      with (filter (notBefore (Some (UTC zone w))) points);
      [apply filter_kept; intros p; apply notBefore_spec|].
    unfold getMonth in Ec. rewrite <- Hsame in Ec.
    destruct Hk as [[= <- <-]|[[= <- <-]|[[= <- <-]|[]]]];
      unfold filteredTimeline, cutoffDate, getMonth;
      cbn [String.eqb Ascii.eqb Bool.eqb]; now rewrite Ec.
  - intros key n Hn Hsame.
    destruct (setFullYear_back zone now' n Hz) as (w & Hw & Ec);
      [destruct Hn as [[= <- <-]|[[= <- <-]|[]]]; lia|exact Hnow|].
    exists w, (UTC zone w). split; [exact Hw|]. split; [reflexivity|].
    replace (filteredTimeline zone points key now now')
      with (filter (notBefore (Some (UTC zone w))) points);
      [apply filter_kept; intros p; apply notBefore_spec|].
    unfold getFullYear in Ec. rewrite <- Hsame in Ec.
    destruct Hn as [[= <- <-]|[[= <- <-]|[]]];
      unfold filteredTimeline, cutoffDate, getFullYear;
      cbn [String.eqb Ascii.eqb Bool.eqb]; now rewrite Ec.
Qed.

Lemma filtered_timeline_witness :
  exists w cutoff,
    monthsBack 1 (LocalTime (fixedOffset 28800000) 1751241600005) w
    /\ cutoff = UTC (fixedOffset 28800000) w
    /\ kept (onOrAfter cutoff) twoYears
         (filteredTimeline (fixedOffset 28800000) twoYears "1m"
            1751241600000 1751241600005).
Proof.
  assert (H1 : Z.abs 1751241600005 <= 8000000000000000) by lia.
  assert (H2 : boundedZone (fixedOffset 28800000))
    by (intros t b; unfold fixedOffset, msPerDay; lia).
  assert (H3 : sameLocalMonth (fixedOffset 28800000)
                 1751241600000 1751241600005)
    by (vm_compute; reflexivity).
  exact (proj1 (proj2 (filtered_timeline (fixedOffset 28800000) twoYears
                         1751241600000 1751241600005 H1 H2))
           "1m"%string 1 (or_introl eq_refl) H3).
Defined.

(** C8. The function reads the clock twice and sets the month of the
    second reading from the month of the first.  Eight hours east of
    Greenwich, with the first reading in the last millisecond of 2026 and
    the second at midnight of 1 January 2027, the cutoff of "1m" is
    midnight of 1 November 2027, ten months after the readings, and the
    filter drops a point of 15 December 2026 although the point is dated
    after either reading moved one calendar month back. *)
Lemma cutoff_across_new_year :
  getTime "2027-01-01" = Some (newYear2027 + 28800000)
  /\ getTime "2027-11-01" = Some (1824998400000 + 28800000)
  /\ cutoffDate (fixedOffset 28800000) "1m" (newYear2027 - 1) newYear2027
     = Some 1824998400000
  /\ filteredTimeline (fixedOffset 28800000) [decemberPoint] "1m"
       (newYear2027 - 1) newYear2027 = []
  /\ forall ref w,
       newYear2027 - 1 <= ref <= newYear2027 ->
       monthsBack 1 (LocalTime (fixedOffset 28800000) ref) w ->
       onOrAfter (UTC (fixedOffset 28800000) w) decemberPoint.
Proof.
  split; [vm_compute; reflexivity|]. split; [vm_compute; reflexivity|].
  split; [vm_compute; reflexivity|]. split; [vm_compute; reflexivity|].
  intros ref w Href Hw. apply monthsBack_value in Hw.
  assert (C : ref = newYear2027 - 1 \/ ref = newYear2027)
    by (unfold newYear2027 in *; lia).
  destruct C as [-> | ->]; vm_compute in Hw; subst w;
    eexists; (split; [vm_compute; reflexivity|]);
    apply Z.leb_le; vm_compute; reflexivity.
Qed.

End PeriodClaims.

(** ** Insufficient data and growth over a calendar year *)

Module GrowthClaims.

Import JSDate JSArray App Spec ListFacts YearFacts Examples.

Local Set Warnings "-inexact-float".

(** C6. A timeline of fewer than two points has no trailing growth: the
    result is the no-result value [null] ([None]), for every number of
    months and both metrics; and it has no annual growth either, for every
    calendar year (a year of four digits) and both metrics, the dates of
    the timeline being well-formed. *)
Theorem insufficient_data (zone : Z -> bool -> Z) (points : list Point.t)
    (months : Z) (mode year : string) (Y : Z) :
  (List.length points <= 1)%nat ->
  validPoints points -> parseYear year = Some Y ->
  calculateTrailingGrowth zone points months mode = None
  /\ growth (calculateAnnualGrowth points mode year) = None.
Proof.
  intros Hlen Hv Hy. split.
  - unfold calculateTrailingGrowth.
    destruct (Nat.ltb_spec (List.length points) 2) as [_|H]; [reflexivity|lia].
  - destruct points as [|p [|q l]]; [reflexivity| |simpl in Hlen; lia].
    destruct (getTime_parse _ (Hv p (or_introl eq_refl))) as (y & m & d & E).
    unfold calculateAnnualGrowth, pointsInYear, pointsBeforeYear.
    cbn [filter].
    rewrite (prefix_year _ _ _ _ _ _ E Hy), (ltb_year _ _ _ _ _ _ E Hy).
    destruct (Z.eqb_spec y Y) as [->|Hne]; [|reflexivity].
    rewrite Z.ltb_irrefl. reflexivity.
Qed.

Lemma insufficient_data_witness :
  calculateTrailingGrowth (fixedOffset 28800000) singlePoint 12 "total"
  = None
  /\ growth (calculateAnnualGrowth singlePoint "total" "2026") = None.
Proof.
  apply (insufficient_data (fixedOffset 28800000) singlePoint 12 "total"
           "2026" 2026).
  - simpl. lia.
  - intros p [<-|[]]. vm_compute. discriminate.
  - reflexivity.
Defined.

Lemma year_filters (points : list Point.t) (year : string) (Y : Z) :
  validPoints points -> parseYear year = Some Y ->
  pointsInYear points year = filter (datedIn Y) points
  /\ pointsBeforeYear points year = filter (datedBefore Y) points.
Proof.
  intros Hv Hy. unfold pointsInYear, pointsBeforeYear.
  split; apply filter_ext_in; intros p Hp;
    destruct (getTime_parse _ (Hv p Hp)) as (y & m & d & E);
    unfold datedIn, datedBefore, yearOfDate; rewrite E.
  - apply (prefix_year _ _ _ _ _ _ E Hy).
  - apply (ltb_year _ _ _ _ _ _ E Hy).
Qed.

(** C7. Take a timeline of well-formed dates and a calendar year (of four
    digits) such that some point is dated in the year.  The points the
    function reads as in the year are the points dated in that year, in
    their order, and those it reads as before the year are the points dated
    in an earlier year.  The closing value is the figure (the total or the
    investment, by the mode) of the last point in the year.  The baseline
    is the figure of the last point before the year when there is one, and
    otherwise the figure of the first point in the year, unless that is the
    only point in the year, in which case there is no growth.  With a
    baseline, the growth is the closing value less the baseline, over the
    baseline, times 100, when the baseline is not zero, and there is no
    growth when it is zero, the baseline and the closing value being
    reported all the same. *)
Theorem annual_growth (points : list Point.t) (mode year : string) (Y : Z)
    (first : Point.t) (rest : list Point.t) (endPoint : Point.t) :
  validPoints points -> parseYear year = Some Y ->
  filter (datedIn Y) points = first :: rest ->
  lastOf (first :: rest) endPoint ->
  let r := calculateAnnualGrowth points mode year in
  pointsInYear points year = filter (datedIn Y) points
  /\ pointsBeforeYear points year = filter (datedBefore Y) points
  /\ measures mode endPoint (endVal r)
  /\ (forall prev,
        lastOf (filter (datedBefore Y) points) prev ->
        measures mode prev (startVal r) /\ growthReported r)
  /\ (filter (datedBefore Y) points = [] -> rest = [] -> growth r = None)
  /\ (filter (datedBefore Y) points = [] -> rest <> [] ->
        measures mode first (startVal r) /\ growthReported r).
Proof.
  intros Hv Hy Hin Hend r.
  destruct (year_filters points year Y Hv Hy) as [EI EB].
  split; [exact EI|]. split; [exact EB|].
  subst r. unfold calculateAnnualGrowth.
  destruct points as [|p0 l]; [discriminate|].
  rewrite EI, EB, Hin, (lastOf_lastElem _ _ Hend).
  assert (Hfin : forall sv,
    let r := if (sv =? 0)%float
             then mkAnnualStats None sv (metric mode endPoint)
             else mkAnnualStats (Some (growthRate (metric mode endPoint) sv))
                                sv (metric mode endPoint) in
    endVal r = metric mode endPoint /\ startVal r = sv /\ growthReported r).
  { intros sv. unfold growthReported.
    destruct (sv =? 0)%float eqn:E; simpl; rewrite E; auto. }
  destruct (lastElem (filter (datedBefore Y) (p0 :: l))) as [prev'|] eqn:Eb.
  - destruct (Hfin (metric mode prev')) as (He & Hs & Hg). cbv zeta in *.
    split; [rewrite He; apply measures_metric|].
    split; [|split; intros E; rewrite E in Eb; discriminate].
    intros prev Hprev. apply lastOf_lastElem in Hprev.
    rewrite Eb in Hprev. injection Hprev as <-.
    split; [rewrite Hs; apply measures_metric|exact Hg].
  - split; [|split; [|split]].
    + destruct rest as [|q rest']; [apply measures_metric|].
      cbn [List.length Nat.eqb].
      destruct (Hfin (metric mode first)) as (He & _ & _). cbv zeta in He.
      rewrite He. apply measures_metric.
    + intros prev Hprev. apply lastOf_lastElem in Hprev. congruence.
    + intros _ ->. reflexivity.
    + intros _ Hrest. destruct rest as [|q rest']; [contradiction|].
      cbn [List.length Nat.eqb].
      destruct (Hfin (metric mode first)) as (_ & Hs & Hg). cbv zeta in *.
      split; [rewrite Hs; apply measures_metric|exact Hg].
Qed.

Lemma annual_growth_witness :
  measures "investment"
    (Point.mk "2025-06-30" 1231500 1120000 600000 520000)
    (endVal (calculateAnnualGrowth twoYears "investment" "2025"))
  /\ (forall prev,
        lastOf (filter (datedBefore 2025) twoYears) prev ->
        measures "investment" prev
          (startVal (calculateAnnualGrowth twoYears "investment" "2025"))
        /\ growthReported (calculateAnnualGrowth twoYears "investment" "2025")).
Proof.
  assert (H1 : validPoints twoYears).
  { intros p Hp. simpl in Hp.
    repeat (destruct Hp as [<-|Hp]; [vm_compute; discriminate|]).
    destruct Hp. }
  assert (H2 : parseYear "2025" = Some 2025) by reflexivity.
  assert (H3 : filter (datedIn 2025) twoYears
               = Point.mk "2025-03-31" 631500 520000 0 520000
                 :: [Point.mk "2025-06-30" 1231500 1120000 600000 520000])
    by (vm_compute; reflexivity).
  assert (H4 : lastOf
                 (Point.mk "2025-03-31" 631500 520000 0 520000
                  :: [Point.mk "2025-06-30" 1231500 1120000 600000 520000])
                 (Point.mk "2025-06-30" 1231500 1120000 600000 520000))
    by (exists [Point.mk "2025-03-31" 631500 520000 0 520000]; reflexivity).
  pose proof (annual_growth twoYears "investment" "2025" 2025 _ _ _
                H1 H2 H3 H4) as H.
  exact (conj (proj1 (proj2 (proj2 H))) (proj1 (proj2 (proj2 (proj2 H))))).
Defined.

(** *** The ledger the application starts with *)

(** C9 fails as stated: the two totals of the default ledger are not
    2,647,172.5 and 3,232,554.5, and the growth of 2026 is not within half a
    hundredth of 22.12. *)
Lemma default_figures_differ :
  map Point.total (timelineData defaultAssets)
  <> [2647172.5%float; 3232554.5%float]
  /\ forall g,
       growth (calculateAnnualGrowth (timelineData defaultAssets)
                                     "total" "2026") = Some g ->
       (22.115 <=? g)%float = false.
Proof.
  split.
  - intros E.
    apply (f_equal (map (fun x => PrimFloat.eqb x 2647172%float))) in E.
    vm_compute in E. discriminate.
  - intros g E. vm_compute in E. injection E as <-. vm_compute. reflexivity.
Qed.

(** C9, amended.  On the four records of the default ledger, whatever
    their identifiers and notes, the timeline has exactly two points, of
    totals 2,647,172 for 2025-01-05 and 3,232,559.5 for 2026-01-05, and the
    annual growth of 2026 on the total compares these two values: the
    baseline is the first, the closing value the second, and the growth is
    about 22.11 per cent (between 22.113 and 22.114). *)
Theorem default_figures (i1 i2 i3 i4 n1 n2 n3 n4 : string) :
  let assets :=
    [ Asset.mk i1 "2025-01-05" "us_stock" 78130 32.5 n1;
      Asset.mk i2 "2025-01-05" "tw_stock" 107947 1 n2;
      Asset.mk i3 "2026-01-05" "us_stock" 94937 32.5 n3;
      Asset.mk i4 "2026-01-05" "tw_stock" 147107 1 n4 ] in
  timelineData assets
  = [ Point.mk "2025-01-05" 2647172 2647172 2539225 107947;
      Point.mk "2026-01-05" 3232559.5 3232559.5 3085452.5 147107 ]
  /\ exists g,
       calculateAnnualGrowth (timelineData assets) "total" "2026"
       = mkAnnualStats (Some g) 2647172 3232559.5
       /\ g = growthRate 3232559.5 2647172
       /\ (22.113 <? g)%float = true /\ (g <? 22.114)%float = true.
Proof.
  intros assets. split; [vm_compute; reflexivity|].
  exists (growthRate 3232559.5 2647172).
  repeat split; vm_compute; reflexivity.
Qed.

End GrowthClaims.

(** ** The current status and the end of the timeline *)

Module StatusClaims.

Import JSDate JSArray App Spec ListFacts SortFacts TimelineFacts ParseFacts FloatFacts.
Import Examples.

(** The last element of a strictly ascending list is its greatest. *)
Lemma sorted_last_max (l : list string) (x : string) :
  StronglySorted lt l -> lastElem l = Some x ->
  forall y, In y l -> y = x \/ lt y x.
Proof.
  intros Hs. induction Hs as [|a l Hs IH Ha]; intros Hx y Hy; [destruct Hy|].
  destruct l as [|b l].
  - injection Hx as <-. destruct Hy as [<-|[]]. now left.
  - rewrite lastElem_cons2 in Hx. destruct Hy as [<-|Hy].
    + rewrite Forall_forall in Ha.
      destruct (IH Hx b (or_introl eq_refl)) as [<-|Hb].
      * right. apply Ha. now left.
      * right. eapply StringOrder.lt_trans; [apply Ha; now left|exact Hb].
    + now apply IH.
Qed.

(** On the last date of the timeline every record of a category is
    relevant. *)
Lemma relevant_at_last_date (assets : list Asset.t) (type dmax : string) :
  validLedger assets -> lastElem (uniqueDates assets) = Some dmax ->
  relevantRecords assets type (getTime dmax)
  = filter (fun a => (Asset.type a =? type)%string) assets.
Proof.
  intros Hv Hlast. unfold relevantRecords. apply filter_ext_in. intros r Hr.
  assert (Hd : In (Asset.date r) (uniqueDates assets))
    by (apply uniqueDates_in; now apply in_map).
  assert (Hmax : In dmax (uniqueDates assets))
    by (unfold lastElem in Hlast; eapply nth_error_In; eauto).
  apply uniqueDates_in, in_map_iff in Hmax. destruct Hmax as (rm & <- & Hrm).
  pose proof (Hv r Hr) as Vr. pose proof (Hv rm Hrm) as Vm.
  destruct (getTime (Asset.date r)) as [tr|] eqn:Er; [|congruence].
  destruct (getTime (Asset.date rm)) as [tm|] eqn:Em; [|congruence].
  replace (leTime (Some tr) (Some tm)) with true;
    [now rewrite andb_true_r|].
  symmetry. apply Z.leb_le.
  destruct (sorted_last_max _ _ (uniqueDates_sorted assets) Hlast _ Hd)
    as [E|Hlt].
  - rewrite E in Er. assert (tr = tm) by congruence. lia.
  - apply (getTime_lt _ _ _ _ Er Em) in Hlt. lia.
Qed.

Lemma currentStatusStep_latest (assets : list Asset.t) (status : Status)
    (type : string) :
  currentStatusStep assets status type
  = match latest (filter (fun a => (Asset.type a =? type)%string) assets) with
    | Some r => setProp type (value r) status
    | None => status
    end.
Proof.
  unfold currentStatusStep, latest.
  destruct (filter (fun a => (Asset.type a =? type)%string) assets) as [|a l];
    [reflexivity|].
  destruct (sort byDateDesc (a :: l)); reflexivity.
Qed.

(** The status object after the four categories have been visited. *)
Lemma currentStatus_values (assets : list Asset.t) :
  let lv type :=
    latestValue (filter (fun a => (Asset.type a =? type)%string) assets) in
  currentStatus assets
  = [ ("tw_stock"%string, lv "tw_stock"%string);
      ("us_stock"%string, lv "us_stock"%string);
      ("tw_cash"%string, lv "tw_cash"%string);
      ("us_cash"%string, lv "us_cash"%string) ].
Proof.
  unfold currentStatus. cbn [fold_left ASSET_LABELS_keys].
  rewrite !currentStatusStep_latest. unfold latestValue.
  destruct (latest (filter (fun a => (Asset.type a =? "tw_stock")%string) assets));
    destruct (latest (filter (fun a => (Asset.type a =? "us_stock")%string) assets));
    destruct (latest (filter (fun a => (Asset.type a =? "tw_cash")%string) assets));
    destruct (latest (filter (fun a => (Asset.type a =? "us_cash")%string) assets));
    reflexivity.
Qed.



End StatusClaims.


(** * Further properties of the code *)

(** ** Stable sorting by a key *)

Module StableSort.

Import JSArray Spec StoreSpec SortFacts.

Section Keyed.

Context {A : Type} (compareFn : A -> A -> Z) (key : A -> Z).

Lemma keyed_incl (l l' : list A) :
  keyed compareFn key l -> incl l' l -> keyed compareFn key l'.
Proof. intros H Hi a b Ha Hb. apply H; now apply Hi. Qed.

Lemma insert_in (x y : A) (l : list A) :
  In y (insert compareFn x l) <-> y = x \/ In y l.
Proof.
  split; intros H.
  - apply (Permutation_in y (Permutation_sym (insert_perm compareFn x l))) in H.
    destruct H as [<-|H]; auto.
  - apply (Permutation_in y (insert_perm compareFn x l)).
    destruct H as [->|H]; [now left|now right].
Qed.

Lemma insert_desc (x : A) (l : list A) :
  keyed compareFn key (x :: l) ->
  StronglySorted (descBy key) l ->
  StronglySorted (descBy key) (insert compareFn x l).
Proof.
  intros Hk Hs. induction Hs as [|y l Hs IH Hy]; simpl.
  - repeat constructor.
  - rewrite (Hk x y) by (simpl; auto).
    rewrite Forall_forall in Hy.
    destruct (Z.ltb_spec 0 (key y - key x)) as [Hlt|Hge].
    + constructor.
      * apply IH. eapply keyed_incl; [exact Hk|].
        intros z [<-|Hz]; simpl; auto.
      * apply Forall_forall. intros z Hz. apply insert_in in Hz.
        destruct Hz as [->|Hz]; [unfold descBy; lia|now apply Hy].
    + constructor; [now constructor; [|apply Forall_forall]|].
      apply Forall_forall. intros z [<-|Hz]; [unfold descBy; lia|].
      specialize (Hy z Hz). unfold descBy in *. lia.
Qed.

(** The sorted array is in descending order of the key. *)
Lemma sort_desc (l : list A) :
  keyed compareFn key l -> StronglySorted (descBy key) (sort compareFn l).
Proof.
  induction l as [|x l IH]; intros Hk; simpl; [constructor|].
  apply insert_desc.
  - eapply keyed_incl; [exact Hk|].
    intros z [<-|Hz]; [now left|right; now apply sort_in in Hz].
  - apply IH. eapply keyed_incl; [exact Hk|]. intros z Hz. now right.
Qed.

Lemma insert_front (x : A) (l : list A) :
  keyed compareFn key (x :: l) ->
  (forall z, In z l -> key z <= key x) ->
  insert compareFn x l = x :: l.
Proof.
  intros Hk Hle. destruct l as [|y l]; [reflexivity|]. simpl.
  rewrite (Hk x y) by (simpl; auto).
  specialize (Hle y (or_introl eq_refl)).
  destruct (Z.ltb_spec 0 (key y - key x)); [lia|reflexivity].
Qed.

Lemma insert_filter (P : A -> bool) (x : A) (l : list A) :
  keyed compareFn key (x :: l) ->
  StronglySorted (descBy key) l ->
  filter P (insert compareFn x l)
  = if P x then insert compareFn x (filter P l) else filter P l.
Proof.
  intros Hk Hs. induction Hs as [|y l Hs IH Hy].
  - simpl. destruct (P x); reflexivity.
  - cbn [insert]. rewrite (Hk x y) by (simpl; auto).
    rewrite Forall_forall in Hy.
    destruct (Z.ltb_spec 0 (key y - key x)) as [Hlt|Hge].
    + cbn [filter]. rewrite IH.
      2:{ eapply keyed_incl; [exact Hk|]. intros z [<-|Hz]; simpl; auto. }
      destruct (P y) eqn:Py, (P x) eqn:Px; try reflexivity.
      cbn [insert]. rewrite (Hk x y) by (simpl; auto).
      destruct (Z.ltb_spec 0 (key y - key x)); [reflexivity|lia].
    + change (filter P (x :: y :: l))
        with (if P x then x :: filter P (y :: l) else filter P (y :: l)).
      destruct (P x) eqn:Px; [|reflexivity].
      symmetry. apply insert_front.
      * eapply keyed_incl; [exact Hk|].
        intros z [<-|Hz]; [now left|right]. now apply filter_In in Hz.
      * intros z Hz. apply filter_In in Hz. destruct Hz as [[<-|Hz] _]; [lia|].
        specialize (Hy z Hz). unfold descBy in Hy. lia.
Qed.

(** Sorting and filtering commute: the sort is stable. *)
Lemma filter_sort (P : A -> bool) (l : list A) :
  keyed compareFn key l ->
  filter P (sort compareFn l) = sort compareFn (filter P l).
Proof.
  induction l as [|x l IH]; intros Hk; [reflexivity|].
  assert (Hl : keyed compareFn key l)
    by (eapply keyed_incl; [exact Hk|]; intros z Hz; now right).
  cbn [sort fold_right]. fold (sort compareFn l).
  rewrite insert_filter.
  - rewrite (IH Hl). cbn [filter]. destruct (P x); reflexivity.
  - eapply keyed_incl; [exact Hk|].
    intros z [<-|Hz]; [now left|right; now apply sort_in in Hz].
  - now apply sort_desc.
Qed.

(** Sorting an array that is in order leaves it as it is. *)
Lemma sort_sorted_id (l : list A) :
  keyed compareFn key l -> StronglySorted (descBy key) l ->
  sort compareFn l = l.
Proof.
  intros Hk Hs. induction Hs as [|x l Hs IH Hx]; [reflexivity|].
  cbn [sort fold_right]. fold (sort compareFn l).
  rewrite IH by (eapply keyed_incl; [exact Hk|]; intros z Hz; now right).
  apply insert_front; [exact Hk|].
  rewrite Forall_forall in Hx. exact Hx.
Qed.

Lemma sort_idem (l : list A) :
  keyed compareFn key l ->
  sort compareFn (sort compareFn l) = sort compareFn l.
Proof.
  intros Hk. apply sort_sorted_id; [|now apply sort_desc].
  eapply keyed_incl; [exact Hk|]. intros z Hz. now apply sort_in in Hz.
Qed.

(** An array of one key is in order. *)
Lemma constant_key_sorted (k : Z) (l : list A) :
  (forall z, In z l -> key z = k) -> StronglySorted (descBy key) l.
Proof.
  induction l as [|x l IH]; intros H; constructor.
  - apply IH. intros z Hz. apply H. now right.
  - apply Forall_forall. intros z Hz. unfold descBy.
    rewrite (H x (or_introl eq_refl)), (H z (or_intror Hz)). lia.
Qed.

End Keyed.

End StableSort.

(** ** The order of the ledger *)

Module LedgerOrder.

Import JSDate JSArray App Spec Store StoreSpec ListFacts SortFacts.
Import ParseFacts TimelineFacts StableSort Examples StoreExamples.

Lemma valid_keyed (l : list Asset.t) :
  validLedger l -> keyed byDateDesc timeKey l.
Proof. intros Hv a b Ha Hb. apply byDateDesc_key; now apply Hv. Qed.

Lemma defaultAssets_valid : validLedger defaultAssets.
Proof.
  intros a Ha. simpl in Ha.
  repeat (destruct Ha as [<-|Ha]; [vm_compute; discriminate|]).
  destruct Ha.
Defined.

(** X1. The history table sorts the ledger in place.  When the dates are
    well-formed, the ledger it leaves behind holds the same records, in
    descending order of date, and the records of one date among them in
    the order they had before. *)
Theorem history_table_order (st : State) :
  validLedger (assets st) ->
  Permutation (assets st) (assets (renderAssets st))
  /\ StronglySorted (descBy timeKey) (assets (renderAssets st))
  /\ (forall d,
        filter (fun a => (Asset.date a =? d)%string) (assets (renderAssets st))
        = filter (fun a => (Asset.date a =? d)%string) (assets st)).
Proof.
  intros Hv. cbn [renderAssets assets].
  pose proof (valid_keyed _ Hv) as Hk.
  split; [apply sort_perm|]. split; [now apply sort_desc|].
  intros d. rewrite (filter_sort byDateDesc timeKey) by exact Hk.
  apply (sort_sorted_id byDateDesc timeKey).
  - eapply keyed_incl; [exact Hk|]. intros z Hz. now apply filter_In in Hz.
  - apply (constant_key_sorted timeKey
             (match getTime d with Some t => t | None => 0 end)).
    intros z Hz. apply filter_In in Hz. destruct Hz as [_ Hz].
    apply String.eqb_eq in Hz. unfold timeKey. now rewrite Hz.
Qed.

Lemma history_table_order_witness :
  StronglySorted (descBy timeKey) (assets (renderAssets initialState)).
Proof.
  apply (history_table_order initialState). exact defaultAssets_valid.
Defined.

Lemma latest_after_sort (P : Asset.t -> bool) (l : list Asset.t) :
  validLedger l ->
  latest (filter P (sort byDateDesc l)) = latest (filter P l).
Proof.
  intros Hv. pose proof (valid_keyed _ Hv) as Hk. unfold latest.
  rewrite (filter_sort byDateDesc timeKey) by exact Hk.
  rewrite (sort_idem byDateDesc timeKey); [reflexivity|].
  eapply keyed_incl; [exact Hk|]. intros z Hz. now apply filter_In in Hz.
Qed.

Lemma timelineStep_after_sort (l : list Asset.t) (m : option Z) (v : Vals)
    (type : string) :
  validLedger l ->
  timelineStep (sort byDateDesc l) m v type = timelineStep l m v type.
Proof.
  intros Hv. rewrite !timelineStep_latest. unfold relevantRecords.
  now rewrite latest_after_sort.
Qed.

Lemma sort_cons_inv (l : list Asset.t) (a : Asset.t) (r : list Asset.t) :
  sort byDateDesc l = a :: r -> exists b l', l = b :: l'.
Proof.
  destruct l as [|b l']; [discriminate|]. intros _. now exists b, l'.
Qed.

(** X2. Sorting the ledger in place, as the history table does, changes
    nothing of what is derived from it: with well-formed dates the
    timeline, the current status and the displayed total are those of the
    ledger before. *)
Theorem history_table_keeps_derived_data (st : State) :
  validLedger (assets st) ->
  timelineData (assets (renderAssets st)) = timelineData (assets st)
  /\ currentStatus (assets (renderAssets st)) = currentStatus (assets st)
  /\ totalAssetsTwd (assets (renderAssets st)) = totalAssetsTwd (assets st).
Proof.
  intros Hv. cbn [renderAssets assets].
  set (l := assets st) in *. clearbody l.
  assert (Hcs : currentStatus (sort byDateDesc l) = currentStatus l).
  { unfold currentStatus. cbn [fold_left ASSET_LABELS_keys].
    rewrite !StatusClaims.currentStatusStep_latest.
    now rewrite !latest_after_sort. }
  split; [|split; [exact Hcs|unfold totalAssetsTwd; now rewrite Hcs]].
  assert (Hu : uniqueDates (sort byDateDesc l) = uniqueDates l).
  { symmetry. apply TimelineClaims.perm_uniqueDates, sort_perm. }
  assert (Hd : forall d, dataPoint (sort byDateDesc l) d = dataPoint l d).
  { intros d. unfold dataPoint, categoryVals. cbn [fold_left].
    now rewrite !timelineStep_after_sort. }
  unfold timelineData.
  destruct (sort byDateDesc l) as [|a r] eqn:Es.
  - apply sort_nil_inv in Es. now rewrite Es.
  - destruct (sort_cons_inv _ _ _ Es) as (b & l' & El).
    rewrite Hu.
    replace (match l with [] => [] | _ :: _ => map (dataPoint l) (uniqueDates l) end)
      with (map (dataPoint l) (uniqueDates l)) by (now rewrite El).
    now apply map_ext.
Qed.

Lemma history_table_keeps_derived_data_witness :
  timelineData (assets (renderAssets initialState))
  = timelineData (assets initialState).
Proof.
  apply (history_table_keeps_derived_data initialState).
  exact defaultAssets_valid.
Defined.

End LedgerOrder.

(** ** Saving a snapshot *)

Module LedgerGrowth.

Import JSDate JSArray App Spec Store StoreSpec ListFacts SortFacts.
Import ParseFacts TimelineFacts Examples StoreExamples.

Lemma sorted_snoc (l : list string) (x : string) :
  StronglySorted lt l -> (forall y, In y l -> lt y x) ->
  StronglySorted lt (l ++ [x]).
Proof.
  intros Hs Hx. induction Hs as [|a l Hs IH Ha]; simpl.
  - repeat constructor.
  - constructor.
    + apply IH. intros y Hy. apply Hx. now right.
    + apply Forall_forall. intros y Hy. apply in_app_or in Hy.
      rewrite Forall_forall in Ha.
      destruct Hy as [Hy|[<-|[]]]; [now apply Ha|apply Hx; now left].
Qed.

Lemma timelineData_map (l : list Asset.t) :
  timelineData l = map (dataPoint l) (uniqueDates l).
Proof. destruct l; reflexivity. Qed.

Section Later.

Variables (assets : list Asset.t) (r : Asset.t) (tr : Z).
Hypothesis Hvalid : validLedger assets.
Hypothesis Hr : getTime (Asset.date r) = Some tr.
Hypothesis Hlater : forall a, In a assets -> timeKey a < tr.

Lemma earlier_time (a : Asset.t) :
  In a assets -> exists ta, getTime (Asset.date a) = Some ta /\ ta < tr.
Proof.
  intros Ha. specialize (Hlater a Ha). specialize (Hvalid a Ha).
  unfold timeKey in Hlater.
  destruct (getTime (Asset.date a)) as [ta|]; [|congruence].
  now exists ta.
Qed.

Lemma uniqueDates_snoc :
  uniqueDates (assets ++ [r]) = uniqueDates assets ++ [Asset.date r].
Proof.
  apply strict_sorted_unique.
  - apply uniqueDates_sorted.
  - apply sorted_snoc; [apply uniqueDates_sorted|].
    intros d Hd. apply uniqueDates_in, in_map_iff in Hd.
    destruct Hd as (a & <- & Ha).
    destruct (earlier_time a Ha) as (ta & Ea & Hlt).
    now apply (getTime_lt _ _ _ _ Ea Hr).
  - intros d. rewrite uniqueDates_in, map_app, !in_app_iff, uniqueDates_in.
    reflexivity.
Qed.

Lemma relevant_before (type d : string) :
  In d (uniqueDates assets) ->
  relevantRecords (assets ++ [r]) type (getTime d)
  = relevantRecords assets type (getTime d).
Proof.
  intros Hd. apply uniqueDates_in, in_map_iff in Hd.
  destruct Hd as (a & <- & Ha).
  destruct (earlier_time a Ha) as (ta & Ea & Hlt).
  unfold relevantRecords. rewrite filter_app. cbn [filter].
  rewrite Hr, Ea. cbn [leTime].
  destruct (Z.leb_spec tr ta); [lia|].
  rewrite andb_false_r. apply app_nil_r.
Qed.

Lemma dataPoint_before (d : string) :
  In d (uniqueDates assets) -> dataPoint (assets ++ [r]) d = dataPoint assets d.
Proof.
  intros Hd. unfold dataPoint, categoryVals. cbn [fold_left].
  unfold timelineStep. now rewrite !(relevant_before _ d Hd).
Qed.

Lemma relevant_at_new (type : string) :
  relevantRecords (assets ++ [r]) type (getTime (Asset.date r))
  = filter (fun a => (Asset.type a =? type)%string) assets
    ++ (if (Asset.type r =? type)%string then [r] else []).
Proof.
  unfold relevantRecords. rewrite filter_app. f_equal.
  - apply filter_ext_in. intros a Ha.
    destruct (earlier_time a Ha) as (ta & Ea & Hlt).
    rewrite Hr, Ea. cbn [leTime].
    destruct (Z.leb_spec ta tr); [apply andb_true_r|lia].
  - cbn [filter]. rewrite Hr. cbn [leTime]. rewrite Z.leb_refl, andb_true_r.
    reflexivity.
Qed.

Lemma latest_at_new :
  latest (relevantRecords (assets ++ [r]) (Asset.type r)
            (getTime (Asset.date r))) = Some r.
Proof.
  rewrite relevant_at_new, String.eqb_refl.
  set (l0 := filter (fun a => (Asset.type a =? Asset.type r)%string) assets).
  assert (Hv : forall a, In a (l0 ++ [r]) -> getTime (Asset.date a) <> None).
  { intros a Ha. apply in_app_or in Ha.
    destruct Ha as [Ha|[<-|[]]]; [|congruence].
    apply filter_In in Ha. now apply Hvalid. }
  destruct (latest (l0 ++ [r])) as [r'|] eqn:E.
  - f_equal. apply latest_firstMax in E; [|exact Hv].
    apply (firstMax_unique timeKey (l0 ++ [r])); [exact E|].
    exists l0, []. split; [reflexivity|]. split; [|intros x []].
    intros x Hx. apply filter_In in Hx. destruct Hx as [Hx _].
    specialize (Hlater x Hx). unfold timeKey at 2. rewrite Hr. exact Hlater.
  - apply latest_nil_iff in E. destruct l0; discriminate.
Qed.

End Later.



End LedgerGrowth.

(** ** The periods of the chart *)

Module PeriodNesting.

Import JSDate JSArray App Spec Store StoreSpec DateFacts ParseFacts.
Import CalendarFacts Examples.

Lemma MakeDay_year_month (y n m d : Z) :
  MakeDay (y - n) m d = MakeDay y (m - 12 * n) d.
Proof.
  unfold MakeDay.
  replace ((m - 12 * n) / 12) with (m / 12 - n)
    by (Z.div_mod_to_equations; lia).
  replace ((m - 12 * n) mod 12) with (m mod 12)
    by (Z.div_mod_to_equations; lia).
  replace (y - n + m / 12) with (y + (m / 12 - n)) by lia.
  reflexivity.
Qed.

Lemma DaysInMonth_ge (y m : Z) : 28 <= DaysInMonth y m.
Proof.
  unfold DaysInMonth.
  repeat match goal with
         | |- context [match ?x with _ => _ end] => destruct x
         end; lia.
Qed.

(** A later month starts no earlier. *)
Lemma MakeDay_mono_month (y m m' d : Z) :
  m <= m' -> MakeDay y m d <= MakeDay y m' d.
Proof.
  intros Hm. rewrite (MakeDay_normal y m), (MakeDay_normal y m').
  assert (H1 : 0 <= m mod 12 <= 11)
    by (pose proof (Z.mod_pos_bound m 12); lia).
  assert (H2 : 0 <= m' mod 12 <= 11)
    by (pose proof (Z.mod_pos_bound m' 12); lia).
  rewrite (MakeDay_first _ _ d H1), (MakeDay_first _ _ d H2).
  assert (Hc : ymdCompare (y + m / 12, m mod 12 + 1, 1)
                          (y + m' / 12, m' mod 12 + 1, 1) <> Gt).
  { unfold ymdCompare.
    destruct (Z.compare_spec (y + m / 12) (y + m' / 12)) as [E|Hlt|Hgt];
      [|discriminate|exfalso; Z.div_mod_to_equations; lia].
    destruct (Z.compare_spec (m mod 12 + 1) (m' mod 12 + 1)) as [E'|Hlt|Hgt];
      [discriminate|discriminate|exfalso; Z.div_mod_to_equations; lia]. }
  rewrite ymdCompare_days in Hc;
    try lia; try (pose proof (DaysInMonth_ge (y + m / 12) (m mod 12 + 1));
                  pose proof (DaysInMonth_ge (y + m' / 12) (m' mod 12 + 1)); lia).
  replace (m mod 12 + 1 - 1) with (m mod 12) in Hc by lia.
  replace (m' mod 12 + 1 - 1) with (m' mod 12) in Hc by lia.
  pose proof (proj1 (Z.compare_le_iff _ _) Hc) as Hle. lia.
Qed.

(** The farther back in months, the earlier the instant. *)
Lemma monthsBackInstant_mono (tza t k k' : Z) :
  k <= k' -> monthsBackInstant tza t k' <= monthsBackInstant tza t k.
Proof.
  intros Hk. unfold monthsBackInstant, UTC, MakeDate, msPerDay.
  pose proof (MakeDay_mono_month (YearFromTime (LocalTime (fixedOffset tza) t))
                (MonthFromTime (LocalTime (fixedOffset tza) t) - k')
                (MonthFromTime (LocalTime (fixedOffset tza) t) - k)
                (DateFromTime (LocalTime (fixedOffset tza) t))) as H.
  revert H.
  generalize (MakeDay (YearFromTime (LocalTime (fixedOffset tza) t))
                (MonthFromTime (LocalTime (fixedOffset tza) t) - k')
                (DateFromTime (LocalTime (fixedOffset tza) t))).
  generalize (MakeDay (YearFromTime (LocalTime (fixedOffset tza) t))
                (MonthFromTime (LocalTime (fixedOffset tza) t) - k)
                (DateFromTime (LocalTime (fixedOffset tza) t))).
  intros a b H. unfold fixedOffset. lia.
Qed.

Lemma setMonth_value (tza now j c : Z) :
  setMonth (fixedOffset tza) now (getMonth (fixedOffset tza) now - j) = Some c ->
  c = monthsBackInstant tza now j.
Proof.
  unfold setMonth, getMonth, monthsBackInstant. intros Ec.
  apply TimeClip_some in Ec. exact Ec.
Qed.

Lemma setFullYear_value (tza now n c : Z) :
  setFullYear (fixedOffset tza) now (getFullYear (fixedOffset tza) now - n) = Some c ->
  c = monthsBackInstant tza now (12 * n).
Proof.
  unfold setFullYear, getFullYear, monthsBackInstant. intros Ec.
  apply TimeClip_some in Ec. rewrite <- MakeDay_year_month. exact Ec.
Qed.

Lemma setMonth_instant (tza now j : Z) :
  Z.abs now <= 8000000000000000 -> Z.abs j <= 1200 ->
  setMonth (fixedOffset tza) now (getMonth (fixedOffset tza) now - j)
  = Some (monthsBackInstant tza now j).
Proof.
  intros Hnow Hj. destruct (setMonth_defined tza now j Hj Hnow) as (c & Ec).
  rewrite Ec. f_equal. now apply setMonth_value.
Qed.

Lemma setFullYear_instant (tza now n k : Z) :
  Z.abs now <= 8000000000000000 -> Z.abs n <= 100 -> k = 12 * n ->
  setFullYear (fixedOffset tza) now (getFullYear (fixedOffset tza) now - n)
  = Some (monthsBackInstant tza now k).
Proof.
  intros Hnow Hn ->.
  destruct (setFullYear_defined tza now n Hn Hnow) as (c & Ec).
  rewrite Ec. f_equal. now apply setFullYear_value.
Qed.

(** The cutoff of each bounded period is the clock reading moved back by
    the months of the period. *)
Lemma cutoff_of_period (tza now : Z) (key : string) (k : Z) :
  Z.abs now <= 8000000000000000 ->
  In (key, k) periodMonths ->
  cutoffDate (fixedOffset tza) key now now = Some (monthsBackInstant tza now k).
Proof.
  intros Hnow Hk. unfold periodMonths in Hk.
  destruct Hk as [E|[E|[E|[E|[E|[]]]]]]; injection E as <- <-.
  - change (cutoffDate (fixedOffset tza) "1m" now now)
      with (setMonth (fixedOffset tza) now (getMonth (fixedOffset tza) now - 1)).
    apply setMonth_instant; lia.
  - change (cutoffDate (fixedOffset tza) "3m" now now)
      with (setMonth (fixedOffset tza) now (getMonth (fixedOffset tza) now - 3)).
    apply setMonth_instant; lia.
  - change (cutoffDate (fixedOffset tza) "6m" now now)
      with (setMonth (fixedOffset tza) now (getMonth (fixedOffset tza) now - 6)).
    apply setMonth_instant; lia.
  - change (cutoffDate (fixedOffset tza) "1y" now now)
      with (setFullYear (fixedOffset tza) now (getFullYear (fixedOffset tza) now - 1)).
    apply setFullYear_instant; lia.
  - change (cutoffDate (fixedOffset tza) "3y" now now)
      with (setFullYear (fixedOffset tza) now (getFullYear (fixedOffset tza) now - 3)).
    apply setFullYear_instant; lia.
Qed.

Lemma notBefore_mono (c c' : Z) (p : Point.t) :
  c' <= c -> notBefore (Some c) p = true -> notBefore (Some c') p = true.
Proof.
  unfold notBefore. destruct (getTime (Point.date p)); [|discriminate].
  rewrite !Z.leb_le. lia.
Qed.

(** X4. The periods of the chart are nested, in a zone of fixed offset
    and for one reading of the clock: every point shown for one month is
    shown for three months, every point shown for three months is shown
    for six, then for one year, then for three years, and every point
    shown for three years is a point of the whole timeline. *)
Theorem periods_nested (tza : Z) (points : list Point.t) (now : Z) :
  Z.abs now <= 8000000000000000 ->
  let shown key := filteredTimeline (fixedOffset tza) points key now now in
  incl (shown "1m"%string) (shown "3m"%string)
  /\ incl (shown "3m"%string) (shown "6m"%string)
  /\ incl (shown "6m"%string) (shown "1y"%string)
  /\ incl (shown "1y"%string) (shown "3y"%string)
  /\ incl (shown "3y"%string) (shown "all"%string).
Proof.
  intros Hnow shown.
  assert (Hs : forall key k, In (key, k) periodMonths ->
            shown key
            = filter (notBefore (Some (monthsBackInstant tza now k))) points).
  { intros key k Hk. subst shown. cbv beta. unfold filteredTimeline.
    rewrite (cutoff_of_period tza now key k Hnow Hk).
    unfold periodMonths in Hk.
    destruct Hk as [[= <- <-]|[[= <- <-]|[[= <- <-]|[[= <- <-]|[[= <- <-]|[]]]]]];
      reflexivity. }
  assert (Hi : forall k k', k <= k' ->
            incl (filter (notBefore (Some (monthsBackInstant tza now k))) points)
                 (filter (notBefore (Some (monthsBackInstant tza now k'))) points)).
  { intros k k' Hk p Hp. apply filter_In in Hp. apply filter_In.
    destruct Hp as [Hin Hp]. split; [exact Hin|].
    eapply notBefore_mono; [|exact Hp]. now apply monthsBackInstant_mono. }
  rewrite (Hs "1m"%string 1), (Hs "3m"%string 3), (Hs "6m"%string 6),
    (Hs "1y"%string 12), (Hs "3y"%string 36)
    by (unfold periodMonths; simpl; auto 10).
  repeat split; try (apply Hi; lia).
  intros p Hp. apply filter_In in Hp. exact (proj1 Hp).
Qed.

Lemma periods_nested_witness :
  incl (filteredTimeline (fixedOffset 28800000) twoYears "1m" 1751241600000 1751241600000)
       (filteredTimeline (fixedOffset 28800000) twoYears "3m" 1751241600000 1751241600000).
Proof.
  assert (H : Z.abs 1751241600000 <= 8000000000000000) by lia.
  exact (proj1 (periods_nested 28800000 twoYears 1751241600000 H)).
Defined.

End PeriodNesting.

(** ** The handlers of the store *)

Module StoreProps.

Import JSDate JSArray App Spec Store StoreSpec ListFacts SortFacts.
Import Examples StoreExamples.

Local Open Scope string_scope.

Lemma formRate_home (f : AssetForm.t) :
  isForeign (AssetForm.type f) = false -> formRate f = 1%float.
Proof. unfold formRate. now intros ->. Qed.

Lemma guard_passes (x : float) (d : string) :
  falsyNumber x || falsyString d = false ->
  falsyNumber x = false /\ d <> "".
Proof.
  intros H. apply orb_false_iff in H. destruct H as [Hx Hd].
  split; [exact Hx|]. unfold falsyString in Hd. now apply String.eqb_neq.
Qed.

Lemma step_keeps_storeOk (st : State) (e : Event) :
  storeOk st -> enabled st e -> storeOk (step st e).
Proof.
  intros (Ha & Hc & He) Hen.
  destruct e; cbn [step];
    try (split; [exact Ha|split; [exact Hc|exact He]]).
  - (* EditAsset *)
    split; [exact Ha|split; [exact Hc|]]. cbn.
    intros e [= <-]. now apply in_map.
  - (* SaveAsset *)
    unfold handleSaveAsset.
    destruct (falsyNumber (AssetForm.amount (newAsset st))
              || falsyString (AssetForm.date (newAsset st))) eqn:G;
      [split; [exact Ha|split; [exact Hc|exact He]]|].
    apply guard_passes in G. destruct G as [Gx Gd].
    destruct (truthyId (editingAssetId st)) as [eid|] eqn:Et; cbn.
    + split; [|split; [exact Hc|discriminate]].
      intros r Hr. apply in_map_iff in Hr. destruct Hr as (a & <- & Hin).
      destruct (Asset.id a =? eid); [|now apply Ha].
      repeat split; cbn; auto. apply formRate_home.
    + split; [|split; [exact Hc|]].
      * intros r Hr. apply in_app_or in Hr.
        destruct Hr as [Hr|[<-|[]]]; [now apply Ha|].
        repeat split; cbn; auto. apply formRate_home.
      * intros e Hee. specialize (He e Hee). apply in_map_iff in He.
        destruct He as (a & Ea & Hin). apply in_map_iff. exists a.
        split; [exact Ea|]. apply in_or_app. now left.
  - (* CancelEdit *)
    split; [exact Ha|split; [exact Hc|discriminate]].
  - (* DeleteAsset *)
    unfold handleDeleteAsset. destruct confirmed;
      [|split; [exact Ha|split; [exact Hc|exact He]]].
    split; [|split].
    + cbn. intros r Hr. apply filter_In in Hr. now apply Ha.
    + destruct (editingAssetId st) as [e0|]; [destruct (e0 =? id)|]; exact Hc.
    + intros e Hee. cbn [assets editingAssetId] in *.
      destruct (editingAssetId st) as [e0|] eqn:Ee0;
        [destruct (String.eqb_spec e0 id) as [Eid|Nid]|];
        cbn in Hee; try discriminate; try congruence.
      rewrite Ee0 in Hee. injection Hee as <-.
      specialize (He e0 eq_refl). apply in_map_iff in He.
      destruct He as (a & Ea & Hin). apply in_map_iff. exists a.
      split; [exact Ea|]. apply filter_In. split; [exact Hin|].
      apply negb_true_iff, String.eqb_neq. congruence.
  - (* AddContribution *)
    unfold handleAddContribution.
    destruct (falsyNumber (ContributionForm.amount (newContribution st))
              || falsyString (ContributionForm.date (newContribution st)))
      eqn:G; [split; [exact Ha|split; [exact Hc|exact He]]|].
    apply guard_passes in G. destruct G as [Gx Gd].
    split; [exact Ha|split; [|exact He]].
    cbn. intros c Hin. apply in_app_or in Hin.
    destruct Hin as [Hin|[<-|[]]]; [now apply Hc|]. split; cbn; auto.
  - (* DeleteContribution *)
    unfold handleDeleteContribution. destruct confirmed;
      [|split; [exact Ha|split; [exact Hc|exact He]]].
    split; [exact Ha|split; [|exact He]].
    cbn. intros c Hin. apply filter_In in Hin. now apply Hc.
  - (* RenderAssets *)
    split; [|split; [exact Hc|]]; cbn.
    + intros r Hr. apply sort_in in Hr. now apply Ha.
    + intros e Hee. specialize (He e Hee). apply in_map_iff in He.
      destruct He as (a & Ea & Hin). apply in_map_iff. exists a.
      split; [exact Ea|]. now apply sort_in.
  - (* RenderContributions *)
    split; [exact Ha|split; [|exact He]]. cbn.
    intros c Hin. apply sort_in in Hin. now apply Hc.
Qed.

(** X5. Whatever the user does (typing in the two forms, editing a row,
    saving, cancelling, deleting with or without confirmation, opening the
    two tables), a store that starts with well-formed records keeps them
    well-formed: every asset record has a date, an amount that is neither
    zero nor NaN, and the exchange rate 1 unless its category is foreign;
    every contribution has a date and such an amount; and the record being
    edited, if any, is still in the ledger. *)
Theorem store_stays_well_formed (init st : State) :
  storeOk init -> reachable init st -> storeOk st.
Proof.
  intros Hinit Hr. induction Hr as [|st e Hr IH Hen]; [exact Hinit|].
  now apply step_keeps_storeOk.
Qed.

Lemma initialState_ok : storeOk initialState.
Proof.
  split; [|split].
  - intros r Hr. cbn in Hr.
    repeat (destruct Hr as [<-|Hr];
            [repeat split; try discriminate; try reflexivity;
             cbn; discriminate|]).
    destruct Hr.
  - intros c [<-|[]]. split; [discriminate|reflexivity].
  - discriminate.
Defined.

Lemma store_stays_well_formed_witness :
  storeOk (step (step initialState (EditAsset (Asset.mk "1" "2025-01-05"
                   "us_stock" 78130 32.5 "")))
                (DeleteAsset "1" true "2026-11-03")).
Proof.
  apply (store_stays_well_formed initialState).
  - exact initialState_ok.
  - apply reach_step; [apply reach_step; [apply reach_init|]|exact I].
    cbn. now left.
Defined.

Lemma updated_same (r : Asset.t) :
  recordOk r ->
  updated r (AssetForm.mk (Asset.date r) (Asset.type r)
               (Asset.exchangeRate r) (Asset.amount r) (Asset.note r)) = r.
Proof.
  intros (_ & _ & Hrate). destruct r as [i d t x q n].
  unfold updated, formRate. cbn in *.
  destruct (isForeign t); [reflexivity|]. now rewrite Hrate.
Qed.

Lemma map_update_other (eid : string) (g : Asset.t -> Asset.t)
    (l : list Asset.t) :
  (forall a, In a l -> Asset.id a <> eid) ->
  map (fun a => if Asset.id a =? eid then g a else a) l = l.
Proof.
  intros H. induction l as [|a l IH]; [reflexivity|]. cbn [map].
  rewrite IH by (intros x Hx; apply H; now right).
  destruct (String.eqb_spec (Asset.id a) eid) as [E|_]; [|reflexivity].
  exfalso. now apply (H a); [left|].
Qed.

Lemma truthy_some (e : string) : e <> "" -> truthyId (Some e) = Some e.
Proof.
  intros H. unfold truthyId.
  destruct (String.eqb_spec e ""); [contradiction|reflexivity].
Qed.

Lemma guard_of (x : float) (d : string) :
  falsyNumber x = false -> d <> "" ->
  falsyNumber x || falsyString d = false.
Proof.
  intros -> H. unfold falsyString.
  destruct (String.eqb_spec d ""); [contradiction|reflexivity].
Qed.

(** X6. Saving while a record is being edited replaces that record, at its
    place in the ledger, by a record with the same id and the fields of
    the form (the exchange rate being 1 unless the category is foreign);
    the records before and after it are untouched, the edit ends and the
    form is reset. *)
Theorem save_updates_in_place (st : State) (l1 l2 : list Asset.t)
    (r : Asset.t) (newId today : string) :
  assets st = (l1 ++ r :: l2)%list ->
  truthyId (editingAssetId st) = Some (Asset.id r) ->
  (forall a, In a (l1 ++ l2)%list -> Asset.id a <> Asset.id r) ->
  falsyNumber (AssetForm.amount (newAsset st)) = false ->
  AssetForm.date (newAsset st) <> "" ->
  let f := newAsset st in
  let st' := handleSaveAsset st newId today in
  assets st'
  = (l1 ++ Asset.mk (Asset.id r) (AssetForm.date f) (AssetForm.type f)
                    (AssetForm.amount f)
                    (if isForeign (AssetForm.type f)
                     then AssetForm.exchangeRate f else 1%float)
                    (AssetForm.note f) :: l2)%list
  /\ editingAssetId st' = None
  /\ newAsset st' = blankAsset today
  /\ contributions st' = contributions st.
Proof.
  intros Hl Hedit Hother Hx Hd. cbv zeta. unfold handleSaveAsset.
  rewrite (guard_of _ _ Hx Hd), Hedit. cbn.
  split; [|auto]. rewrite Hl, map_app. cbn [map].
  rewrite String.eqb_refl.
  rewrite !map_update_other
    by (intros a Ha; apply Hother, in_or_app; auto).
  reflexivity.
Qed.

Lemma save_updates_in_place_witness :
  assets (handleSaveAsset
            (mkState defaultAssets [] (Some "3")
               (AssetForm.mk "2026-02-01" "tw_cash" 32.5 5000 "") 
               (ContributionForm.mk "2026-11-03" "A_Ru" 0))
            "9" "2026-11-03")
  = ([ Asset.mk "1" "2025-01-05" "us_stock" 78130 32.5 "";
       Asset.mk "2" "2025-01-05" "tw_stock" 107947 1 "" ]
     ++ Asset.mk "3" "2026-02-01" "tw_cash" 5000 1 ""
        :: [ Asset.mk "4" "2026-01-05" "tw_stock" 147107 1 "" ])%list.
Proof.
  refine (proj1 (save_updates_in_place
    (mkState defaultAssets [] (Some "3")
       (AssetForm.mk "2026-02-01" "tw_cash" 32.5 5000 "")
       (ContributionForm.mk "2026-11-03" "A_Ru" 0))
    [ Asset.mk "1" "2025-01-05" "us_stock" 78130 32.5 "";
      Asset.mk "2" "2025-01-05" "tw_stock" 107947 1 "" ]
    [ Asset.mk "4" "2026-01-05" "tw_stock" 147107 1 "" ]
    (Asset.mk "3" "2026-01-05" "us_stock" 94937 32.5 "")
    "9" "2026-11-03" _ _ _ _ _)).
  - reflexivity.
  - reflexivity.
  - intros a Ha. cbn in Ha.
    repeat (destruct Ha as [<-|Ha]; [cbn; discriminate|]). destruct Ha.
  - reflexivity.
  - cbn. discriminate.
Defined.

(** X7. Opening a record for editing and saving at once changes nothing in
    the ledger, provided the record is as the form writes records (a date,
    an amount that is neither zero nor NaN, the rate 1 unless foreign), its
    id is not the empty string and no other record carries its id. *)
Theorem edit_then_save_is_identity (st : State) (r : Asset.t)
    (newId today : string) :
  recordOk r -> Asset.id r <> "" -> uniqueId (assets st) r ->
  let st' := handleSaveAsset (handleEditAsset st r) newId today in
  assets st' = assets st
  /\ editingAssetId st' = None
  /\ newAsset st' = blankAsset today.
Proof.
  intros Hok Hid Huniq. cbv zeta. unfold handleSaveAsset, handleEditAsset.
  cbn [newAsset editingAssetId assets contributions newContribution
       AssetForm.amount AssetForm.date].
  destruct Hok as (Hd & Hx & Hrate).
  rewrite (guard_of _ _ Hx Hd), (truthy_some _ Hid). cbn.
  split; [|auto].
  transitivity (map (fun a : Asset.t => a) (assets st)); [|apply map_id].
  apply map_ext_in. intros a Ha.
  destruct (String.eqb_spec (Asset.id a) (Asset.id r)) as [E|_];
    [|reflexivity].
  rewrite (Huniq a Ha E). apply updated_same. now repeat split.
Qed.

Lemma edit_then_save_is_identity_witness :
  assets (handleSaveAsset
            (handleEditAsset initialState
               (Asset.mk "1" "2025-01-05" "us_stock" 78130 32.5 ""))
            "9" "2026-11-03")
  = assets initialState.
Proof.
  refine (proj1 (edit_then_save_is_identity initialState
    (Asset.mk "1" "2025-01-05" "us_stock" 78130 32.5 "")
    "9" "2026-11-03" _ _ _)).
  - repeat split; cbn; discriminate.
  - cbn. discriminate.
  - intros a Ha. cbn in Ha.
    repeat (destruct Ha as [<-|Ha];
            [cbn; intros E; (reflexivity || discriminate E)|]).
    destruct Ha.
Defined.

(** X8. A record whose id is the empty string cannot be updated: opening
    it for editing and saving leaves it as it was and appends a record
    with a fresh id and the fields of the form, and the store still holds
    the empty id as the record being edited. *)
Theorem empty_id_is_never_updated (st : State) (r : Asset.t)
    (newId today : string) :
  Asset.id r = "" ->
  falsyNumber (Asset.amount r) = false -> Asset.date r <> "" ->
  let st' := handleSaveAsset (handleEditAsset st r) newId today in
  assets st'
  = (assets st
     ++ [ Asset.mk newId (Asset.date r) (Asset.type r) (Asset.amount r)
            (if isForeign (Asset.type r)
             then Asset.exchangeRate r else 1%float)
            (Asset.note r) ])%list
  /\ editingAssetId st' = Some "".
Proof.
  intros Hid Hx Hd. cbv zeta. unfold handleSaveAsset, handleEditAsset.
  cbn [newAsset editingAssetId assets contributions newContribution
       AssetForm.amount AssetForm.date].
  rewrite (guard_of _ _ Hx Hd), Hid. cbn. split; reflexivity.
Qed.

Lemma empty_id_is_never_updated_witness :
  editingAssetId
    (handleSaveAsset
       (handleEditAsset initialState
          (Asset.mk "" "2025-03-01" "tw_cash" 100 1 ""))
       "9" "2026-11-03")
  = Some "".
Proof.
  refine (proj2 (empty_id_is_never_updated initialState
    (Asset.mk "" "2025-03-01" "tw_cash" 100 1 "") "9" "2026-11-03" _ _ _)).
  - reflexivity.
  - reflexivity.
  - cbn. discriminate.
Defined.

Lemma filter_other_ids (id : string) (l : list Asset.t) :
  ~ In id (map Asset.id l) ->
  filter (fun a => negb (Asset.id a =? id)) l = l.
Proof.
  intros H. induction l as [|a l IH]; [reflexivity|]. cbn [filter].
  destruct (String.eqb_spec (Asset.id a) id) as [E|_].
  - exfalso. apply H. now left.
  - cbn. f_equal. apply IH. intros Hin. apply H. now right.
Qed.

(** X9. Adding a record and deleting it again restores the ledger: when no
    record is being edited, the form passes the check of the amount and
    the date, and the fresh id is not yet in the ledger, saving and then
    deleting the new id (confirming the dialog) gives back the records
    that were there, in their order. *)
Theorem add_then_delete_restores (st : State) (newId today today' : string) :
  truthyId (editingAssetId st) = None ->
  falsyNumber (AssetForm.amount (newAsset st)) = false ->
  AssetForm.date (newAsset st) <> "" ->
  ~ In newId (map Asset.id (assets st)) ->
  assets (handleDeleteAsset (handleSaveAsset st newId today)
                            newId true today')
  = assets st.
Proof.
  intros Hedit Hx Hd Hfresh. unfold handleSaveAsset.
  rewrite (guard_of _ _ Hx Hd), Hedit.
  unfold handleDeleteAsset. cbn [assets].
  rewrite filter_app, (filter_other_ids _ _ Hfresh). cbn [filter Asset.id].
  rewrite String.eqb_refl. cbn. apply app_nil_r.
Qed.

Lemma add_then_delete_restores_witness :
  assets (handleDeleteAsset (handleSaveAsset readyToSave "9" "2026-11-03")
                            "9" true "2026-11-03")
  = assets readyToSave.
Proof.
  refine (add_then_delete_restores readyToSave "9" "2026-11-03" "2026-11-03"
            _ _ _ _).
  - reflexivity.
  - reflexivity.
  - cbn. discriminate.
  - cbn. intros H.
    repeat (destruct H as [H|H]; [discriminate H|]). destruct H.
Defined.

(** X10. Deleting an id, once the dialog is confirmed, leaves no record
    with that id, keeps every other record, never leaves the store editing
    the deleted id, and leaves the form and the edit alone when another
    record (or none) is being edited.  Declining the dialog changes
    nothing. *)
Theorem delete_removes_the_id (st : State) (id today : string) :
  let st' := handleDeleteAsset st id true today in
  ~ In id (map Asset.id (assets st'))
  /\ (forall a, Asset.id a <> id -> In a (assets st') <-> In a (assets st))
  /\ editingAssetId st' <> Some id
  /\ (editingAssetId st <> Some id ->
        editingAssetId st' = editingAssetId st
        /\ newAsset st' = newAsset st)
  /\ contributions st' = contributions st
  /\ handleDeleteAsset st id false today = st.
Proof.
  cbv zeta. unfold handleDeleteAsset. cbn [assets].
  split; [|split; [|split; [|split; [|split]]]].
  - intros H. apply in_map_iff in H. destruct H as (a & Ea & Ha).
    apply filter_In in Ha. destruct Ha as [_ Ha].
    apply negb_true_iff, String.eqb_neq in Ha. contradiction.
  - intros a Ha. rewrite filter_In. split; [tauto|]. intros Hin.
    split; [exact Hin|]. now apply negb_true_iff, String.eqb_neq.
  - destruct (editingAssetId st) as [e|] eqn:Ee; [|cbn; now rewrite Ee].
    destruct (String.eqb_spec e id) as [E|N]; cbn; [discriminate|].
    rewrite Ee. congruence.
  - intros Hne. destruct (editingAssetId st) as [e|] eqn:Ee;
      [|cbn; now rewrite Ee].
    destruct (String.eqb_spec e id) as [E|N]; [congruence|].
    cbn. now rewrite Ee.
  - destruct (editingAssetId st) as [e|]; [destruct (e =? id)|]; reflexivity.
  - reflexivity.
Qed.

Lemma personTotal_app (l : list Contribution.t) (c : Contribution.t)
    (p : string) :
  personTotal (l ++ [c])%list p
  = if Contribution.person c =? p
    then (personTotal l p + Contribution.amount c)%float
    else personTotal l p.
Proof.
  unfold personTotal. rewrite filter_app. cbn [filter].
  destruct (Contribution.person c =? p).
  - now rewrite fold_left_app.
  - now rewrite app_nil_r.
Qed.

Lemma personTotal_nobody (l : list Contribution.t) (q : string) :
  (forall c, In c l -> Contribution.person c <> q) ->
  personTotal l q = 0%float.
Proof.
  intros Hq. unfold personTotal.
  replace (filter _ l) with (@nil Contribution.t); [reflexivity|].
  symmetry. induction l as [|c l IH]; [reflexivity|]. cbn [filter].
  destruct (String.eqb_spec (Contribution.person c) q) as [E|_].
  - exfalso. apply (Hq c); [now left|exact E].
  - apply IH. intros c' Hc'. apply Hq. now right.
Qed.

(** X11. A contribution that passes the check of the amount and the date
    is appended to the ledger: the total of its person becomes the former
    total plus its amount (one binary64 addition), and the total of every
    other person is what it was.  A person without any contribution has
    the total 0. *)
Theorem contribution_raises_one_total (st : State) (newId : string) :
  falsyNumber (ContributionForm.amount (newContribution st)) = false ->
  ContributionForm.date (newContribution st) <> "" ->
  let g := newContribution st in
  let st' := handleAddContribution st newId in
  personTotal (contributions st') (ContributionForm.person g)
  = (personTotal (contributions st) (ContributionForm.person g)
     + ContributionForm.amount g)%float
  /\ (forall q, q <> ContributionForm.person g ->
        personTotal (contributions st') q = personTotal (contributions st) q)
  /\ (forall q, (forall c, In c (contributions st') ->
                           Contribution.person c <> q) ->
        personTotal (contributions st') q = 0%float).
Proof.
  intros Hx Hd. cbv zeta. unfold handleAddContribution.
  rewrite (guard_of _ _ Hx Hd). cbn [contributions].
  split; [|split].
  - rewrite personTotal_app. cbn. now rewrite String.eqb_refl.
  - intros q Hq. rewrite personTotal_app. cbn.
    destruct (String.eqb_spec (ContributionForm.person (newContribution st)) q);
      [congruence|reflexivity].
  - intros q Hq. now apply personTotal_nobody.
Qed.

Lemma contribution_raises_one_total_witness :
  personTotal
    (contributions
       (handleAddContribution
          (mkState defaultAssets
             [ Contribution.mk "1" "A_Hui" "2026-12-31" 350000 ] None
             (blankAsset "2026-11-03")
             (ContributionForm.mk "2026-11-03" "A_Hui" 50000)) "7"))
    "A_Hui"
  = (personTotal [ Contribution.mk "1" "A_Hui" "2026-12-31" 350000 ] "A_Hui"
     + 50000)%float.
Proof.
  refine (proj1 (contribution_raises_one_total
    (mkState defaultAssets
       [ Contribution.mk "1" "A_Hui" "2026-12-31" 350000 ] None
       (blankAsset "2026-11-03")
       (ContributionForm.mk "2026-11-03" "A_Hui" 50000)) "7" _ _)).
  - reflexivity.
  - cbn. discriminate.
Defined.

(** X12. Deleting a contribution, once the dialog is confirmed, leaves
    no contribution with that id and does not touch the asset ledger; the
    total of a person who owns no contribution with that id is what it
    was.  Declining the dialog changes nothing. *)
Theorem delete_contribution_keeps_other_totals (st : State) (id q : string) :
  (forall c, In c (contributions st) ->
             Contribution.id c = id -> Contribution.person c <> q) ->
  let st' := handleDeleteContribution st id true in
  personTotal (contributions st') q = personTotal (contributions st) q
  /\ ~ In id (map Contribution.id (contributions st'))
  /\ assets st' = assets st
  /\ handleDeleteContribution st id false = st.
Proof.
  intros Hq. cbv zeta. unfold handleDeleteContribution. cbn [contributions].
  split; [|split; [|split; reflexivity]].
  - unfold personTotal. f_equal.
    induction (contributions st) as [|c l IH]; [reflexivity|].
    cbn [filter].
    destruct (String.eqb_spec (Contribution.id c) id) as [E|N]; cbn [negb].
    + destruct (String.eqb_spec (Contribution.person c) q) as [P|_].
      * exfalso. now apply (Hq c); [left| |].
      * apply IH. intros c' Hc'. apply Hq. now right.
    + cbn [filter]. destruct (Contribution.person c =? q);
        [f_equal|]; apply IH; intros c' Hc'; apply Hq; now right.
  - intros H. apply in_map_iff in H. destruct H as (c & Ec & Hc).
    apply filter_In in Hc. destruct Hc as [_ Hc].
    apply negb_true_iff, String.eqb_neq in Hc. contradiction.
Qed.

Lemma delete_contribution_keeps_other_totals_witness :
  personTotal
    (contributions (handleDeleteContribution initialState "1" true)) "A_Ru"
  = personTotal (contributions initialState) "A_Ru".
Proof.
  refine (proj1 (delete_contribution_keeps_other_totals initialState
                   "1" "A_Ru" _)).
  intros c [<-|[]] _. cbn. discriminate.
Defined.

End StoreProps.

(** ** The current status and the pie chart *)

Module StatusProps.

Import JSDate JSArray App Spec Store StoreSpec ListFacts SortFacts.
Import TimelineFacts Examples.

Lemma getProp_currentStatus (assets : list Asset.t) (type : string) :
  In type ASSET_LABELS_keys ->
  getProp type (currentStatus assets)
  = Some (latestValue
            (filter (fun a => (Asset.type a =? type)%string) assets)).
Proof.
  intros Ht. pose proof (StatusClaims.currentStatus_values assets) as Hcs.
  cbv zeta in Hcs. rewrite Hcs.
  destruct Ht as [<-|[<-|[<-|[<-|[]]]]]; reflexivity.
Qed.

Lemma filter_nil {A : Type} (f : A -> bool) (l : list A) :
  (forall x, In x l -> f x = false) -> filter f l = [].
Proof.
  intros H. induction l as [|a l IH]; [reflexivity|]. cbn [filter].
  rewrite (H a (or_introl eq_refl)). apply IH. intros x Hx. apply H.
  now right.
Qed.

(** X13. For a ledger of well-formed dates and each of the four
    categories, the current status holds 0 when the ledger has no record
    of the category, and otherwise the amount times the exchange rate of
    the record of the category that comes first in the ledger among those
    of the latest date: the record [r] such that every record of the
    category before it is strictly earlier and every one after it is not
    later. *)
Theorem current_status_most_recent_record (assets : list Asset.t)
    (type : string) :
  validLedger assets -> In type ASSET_LABELS_keys ->
  ((forall a, In a assets -> Asset.type a <> type) ->
     getProp type (currentStatus assets) = Some 0%float)
  /\ (forall l1 r l2,
        assets = l1 ++ r :: l2 -> Asset.type r = type ->
        (forall x, In x l1 -> Asset.type x = type -> timeKey x < timeKey r) ->
        (forall x, In x l2 -> Asset.type x = type -> timeKey x <= timeKey r) ->
        getProp type (currentStatus assets)
        = Some (Asset.amount r * Asset.exchangeRate r)%float).
Proof.
  intros Hvalid Ht. rewrite (getProp_currentStatus _ _ Ht). split.
  - intros Hnone. rewrite filter_nil; [reflexivity|].
    intros a Ha. apply String.eqb_neq. now apply Hnone.
  - intros l1 r l2 Hl Hr H1 H2. f_equal. unfold latestValue.
    set (f := fun a => (Asset.type a =? type)%string).
    assert (Ef : filter f assets = filter f l1 ++ r :: filter f l2).
    { rewrite Hl, filter_app. cbn [filter]. unfold f at 2.
      now rewrite Hr, String.eqb_refl. }
    destruct (latest (filter f assets)) as [r'|] eqn:E.
    + change (App.value r' = App.value r). f_equal.
      apply latest_firstMax in E.
      * apply (firstMax_unique timeKey (filter f assets)); [exact E|].
        exists (filter f l1), (filter f l2). split; [exact Ef|].
        split; intros x Hx; apply filter_In in Hx; destruct Hx as [Hx Hfx];
          apply String.eqb_eq in Hfx; auto.
      * intros a Ha. apply filter_In in Ha. now apply Hvalid.
    + apply latest_nil_iff in E. rewrite E in Ef.
      now destruct (filter f l1).
Qed.

Lemma current_status_most_recent_record_witness :
  getProp "tw_stock" (currentStatus defaultAssets)
  = Some (147107 * 1)%float.
Proof.
  refine (proj2 (current_status_most_recent_record defaultAssets "tw_stock"
                   LedgerOrder.defaultAssets_valid _)
            [ Asset.mk "1" "2025-01-05" "us_stock" 78130 32.5 "";
              Asset.mk "2" "2025-01-05" "tw_stock" 107947 1 "";
              Asset.mk "3" "2026-01-05" "us_stock" 94937 32.5 "" ]
            (Asset.mk "4" "2026-01-05" "tw_stock" 147107 1 "")
            [] _ _ _ _).
  - cbn. auto.
  - reflexivity.
  - reflexivity.
  - intros x Hx. cbn in Hx.
    repeat (destruct Hx as [<-|Hx];
            [cbn; intros E; (discriminate E || (vm_compute; reflexivity))|]).
    destruct Hx.
  - intros x [].
Defined.

(** X14. Every slice of the pie chart is one of the four categories, with
    the value the current status holds for it, and that value is
    greater than 0; conversely every category whose status value is
    greater than 0 has a slice.  So a category without records, or whose
    latest value is zero, negative or NaN, has no slice, and no category
    has two. *)
Theorem pie_slices (assets : list Asset.t) :
  (forall e, In e (pieData assets) ->
     In (Store.type e) ASSET_LABELS_keys
     /\ getProp (Store.type e) (currentStatus assets) = Some (Store.value e)
     /\ (0 <? Store.value e)%float = true)
  /\ (forall t v, In t ASSET_LABELS_keys ->
        getProp t (currentStatus assets) = Some v ->
        (0 <? v)%float = true ->
        exists e, In e (pieData assets)
                  /\ Store.type e = t /\ Store.value e = v)
  /\ (forall t, (forall a, In a assets -> Asset.type a <> t) ->
        ~ In t (map Store.type (pieData assets)))
  /\ NoDup (map Store.type (pieData assets)).
Proof.
  assert (H1 : forall e, In e (pieData assets) ->
     In (Store.type e) ASSET_LABELS_keys
     /\ getProp (Store.type e) (currentStatus assets) = Some (Store.value e)
     /\ (0 <? Store.value e)%float = true).
  { intros e He. unfold pieData in He. cbv zeta in He.
    apply filter_In in He. destruct He as [He Hpos].
    split; [|split; [|exact Hpos]].
    - cbn in He. destruct He as [<-|[<-|[<-|[<-|[]]]]]; cbn; auto.
    - pose proof (StatusClaims.currentStatus_values assets) as Hcs.
      cbv zeta in Hcs. rewrite Hcs in *.
      cbn in He. destruct He as [<-|[<-|[<-|[<-|[]]]]]; reflexivity. }
  split; [exact H1|]. split; [|split].
  - intros t v Ht Hv Hpos.
    assert (Hs : statusOf (currentStatus assets) t = v)
      by (unfold statusOf; now rewrite Hv).
    unfold pieData. cbv zeta.
    destruct Ht as [<-|[<-|[<-|[<-|[]]]]]; eexists.
    + split; [apply filter_In; split; [left; reflexivity|]|split];
        cbn [Store.value Store.type]; try reflexivity;
        [rewrite Hs; exact Hpos|exact Hs].
    + split; [apply filter_In; split; [right; left; reflexivity|]|split];
        cbn [Store.value Store.type]; try reflexivity;
        [rewrite Hs; exact Hpos|exact Hs].
    + split; [apply filter_In; split;
                [right; right; left; reflexivity|]|split];
        cbn [Store.value Store.type]; try reflexivity;
        [rewrite Hs; exact Hpos|exact Hs].
    + split; [apply filter_In; split;
                [right; right; right; left; reflexivity|]|split];
        cbn [Store.value Store.type]; try reflexivity;
        [rewrite Hs; exact Hpos|exact Hs].
  - intros t Hnone Hin. apply in_map_iff in Hin.
    destruct Hin as (e & <- & He). destruct (H1 e He) as (Hk & Hv & Hpos).
    rewrite (getProp_currentStatus _ _ Hk), filter_nil in Hv.
    + injection Hv as Hv. rewrite <- Hv in Hpos. discriminate.
    + intros a Ha. apply String.eqb_neq. now apply Hnone.
  - unfold pieData. cbv zeta. cbn [filter Store.value].
    repeat match goal with
           | |- context [(0 <? ?x)%float] => destruct (0 <? x)%float
           end; cbn;
      repeat (constructor; [cbn; intuition discriminate|]); constructor.
Qed.

End StatusProps.

(** ** The points a year's growth reads *)

Module YearProps.

Import JSDate JSArray App Spec ListFacts StringOrder ParseFacts YearFacts.
Import TimelineFacts Examples.

Lemma year_le_of_lt (s s' : string) (y m d y' m' d' : Z) :
  parseYMD s = Some (y, m, d) -> parseYMD s' = Some (y', m', d') ->
  lt s s' -> y <= y'.
Proof.
  intros H H' Hlt. unfold lt in Hlt.
  rewrite (parseYMD_compare _ _ _ _ H H') in Hlt. unfold ymdCompare in Hlt.
  destruct (Z.compare_spec y y'); [lia|lia|discriminate].
Qed.

Lemma timeline_valid (assets : list Asset.t) :
  validLedger assets -> validPoints (timelineData assets).
Proof.
  intros Hv p Hp. apply timeline_in in Hp. destruct Hp as [Hd _].
  apply in_map_iff in Hd. destruct Hd as (a & <- & Ha). now apply Hv.
Qed.

Lemma points_three_way (year : string) (Y : Z) (l : list Point.t) :
  parseYear year = Some Y -> validPoints l ->
  StronglySorted lt (map Point.date l) ->
  l = pointsBeforeYear l year ++ pointsInYear l year
      ++ filter (fun p => match yearOfDate (Point.date p) with
                          | Some y => Y <? y
                          | None => false
                          end) l.
Proof.
  intros Hy. induction l as [|a l IH]; intros Hv Hs; [reflexivity|].
  cbn [map] in Hs. inversion Hs as [|x xs Hs' Hall]; subst.
  assert (Hvl : validPoints l) by (intros p Hp; apply Hv; now right).
  specialize (IH Hvl Hs').
  destruct (getTime_parse _ (Hv a (or_introl eq_refl))) as (y & m & d & E).
  assert (Hle : forall b, In b l ->
            exists y' m' d', parseYMD (Point.date b) = Some (y', m', d')
                             /\ y <= y').
  { intros b Hb.
    destruct (getTime_parse _ (Hvl b Hb)) as (y' & m' & d' & E').
    exists y', m', d'. split; [exact E'|].
    apply (year_le_of_lt _ _ _ _ _ _ _ _ E E').
    rewrite Forall_forall in Hall. apply Hall. now apply in_map. }
  unfold pointsBeforeYear, pointsInYear in *. cbn [filter].
  rewrite (ltb_year _ _ _ _ _ _ E Hy), (prefix_year _ _ _ _ _ _ E Hy).
  unfold yearOfDate at 1. rewrite E.
  set (B := filter _ l) in *.
  set (I := filter (fun d0 => String.prefix year (Point.date d0)) l) in *.
  set (L := filter _ l) in *.
  destruct (Z.ltb_spec y Y) as [Hlt|Hge].
  - replace (y =? Y) with false by (symmetry; apply Z.eqb_neq; lia).
    replace (Y <? y) with false by (symmetry; apply Z.ltb_ge; lia).
    cbn. f_equal. exact IH.
  - assert (HB : B = []).
    { apply StatusProps.filter_nil. intros b Hb.
      destruct (Hle b Hb) as (y' & m' & d' & E' & Hyy).
      rewrite (ltb_year _ _ _ _ _ _ E' Hy). apply Z.ltb_ge. lia. }
    rewrite HB in *. cbn [app] in *.
    destruct (Z.eqb_spec y Y) as [->|Hne].
    + rewrite Z.ltb_irrefl. cbn. f_equal. exact IH.
    + assert (HI : I = []).
      { apply StatusProps.filter_nil. intros b Hb.
        destruct (Hle b Hb) as (y' & m' & d' & E' & Hyy).
        rewrite (prefix_year _ _ _ _ _ _ E' Hy). apply Z.eqb_neq. lia. }
      rewrite HI in *. cbn [app] in *.
      replace (Y <? y) with true by (symmetry; apply Z.ltb_lt; lia).
      f_equal. exact IH.
Qed.

(** X15. For a ledger of well-formed dates and a four-digit year, the
    points that the annual growth reads as before the year, then the points
    it reads as in the year, then the points of later years, follow one
    another in the timeline and make it up.  So the baseline taken from
    before the year is the point just before the first point of the year,
    and nothing lies between the points of the year. *)
Theorem year_points_are_contiguous (assets : list Asset.t) (year : string)
    (Y : Z) :
  validLedger assets -> parseYear year = Some Y ->
  let points := timelineData assets in
  exists later,
    points = pointsBeforeYear points year ++ pointsInYear points year ++ later
    /\ forall p, In p later ->
         exists y, yearOfDate (Point.date p) = Some y /\ Y < y.
Proof.
  intros Hv Hy points.
  exists (filter (fun p => match yearOfDate (Point.date p) with
                           | Some y => Y <? y
                           | None => false
                           end) points).
  split.
  - apply (points_three_way year Y points Hy).
    + now apply timeline_valid.
    + unfold points. rewrite timeline_dates. apply uniqueDates_sorted.
  - intros p Hp. apply filter_In in Hp. destruct Hp as [_ Hp].
    destruct (yearOfDate (Point.date p)) as [y|]; [|discriminate].
    exists y. split; [reflexivity|now apply Z.ltb_lt].
Qed.

Lemma year_points_are_contiguous_witness :
  exists later,
    timelineData defaultAssets
    = pointsBeforeYear (timelineData defaultAssets) "2026"
      ++ pointsInYear (timelineData defaultAssets) "2026" ++ later
    /\ forall p, In p later ->
         exists y, yearOfDate (Point.date p) = Some y /\ 2026 < y.
Proof.
  exact (year_points_are_contiguous defaultAssets "2026" 2026
           LedgerOrder.defaultAssets_valid eq_refl).
Defined.

(** X16. For a timeline of well-formed dates and a four-digit year in
    which no point is dated, the annual growth has no figure and reports 0
    for both the baseline and the closing value, whatever the points of
    the other years are. *)
Theorem year_without_points (points : list Point.t) (mode year : string)
    (Y : Z) :
  validPoints points -> parseYear year = Some Y ->
  (forall p, In p points -> yearOfDate (Point.date p) <> Some Y) ->
  calculateAnnualGrowth points mode year = mkAnnualStats None 0 0.
Proof.
  intros Hv Hy Hnone.
  assert (E : pointsInYear points year = []).
  { destruct (pointsInYear points year) as [|p l] eqn:E; [reflexivity|].
    assert (Hp : In p (pointsInYear points year))
      by (rewrite E; now left).
    apply (in_year_spec _ _ _ _ Hv Hy) in Hp. destruct Hp as [Hin Hyear].
    now apply Hnone in Hin. }
  unfold calculateAnnualGrowth. destruct points; [reflexivity|].
  now rewrite E.
Qed.

Lemma year_without_points_witness :
  calculateAnnualGrowth twoYears "total" "2030" = mkAnnualStats None 0 0.
Proof.
  refine (year_without_points twoYears "total" "2030" 2030 _ _ _).
  - intros p Hp. simpl in Hp.
    repeat (destruct Hp as [<-|Hp]; [vm_compute; discriminate|]).
    destruct Hp.
  - reflexivity.
  - intros p Hp. simpl in Hp.
    repeat (destruct Hp as [<-|Hp]; [vm_compute; discriminate|]).
    destruct Hp.
Defined.

End YearProps.

(** ** The date the forms start with *)

Module ISODateProps.

Import JSDate ISODate DateFacts.

Lemma digit_digitChar (n : Z) :
  0 <= n <= 9 -> digit (digitChar n) = Some n.
Proof.
  intros H. destruct n as [|p|p]; [reflexivity| |lia].
  do 4 (try destruct p as [p|p|]; try lia; try reflexivity).
Qed.

Lemma num2_digits (n : Z) :
  0 <= n <= 99 -> num2 (digitChar (n / 10)) (digitChar (n mod 10)) = Some n.
Proof.
  intros H. unfold num2.
  rewrite !digit_digitChar by (Z.div_mod_to_equations; lia).
  f_equal. Z.div_mod_to_equations. lia.
Qed.

Lemma num4_digits (n : Z) :
  0 <= n <= 9999 ->
  num4 (digitChar (n / 100 / 10)) (digitChar ((n / 100) mod 10))
       (digitChar (n mod 100 / 10)) (digitChar ((n mod 100) mod 10))
  = Some n.
Proof.
  intros H. unfold num4.
  rewrite !num2_digits by (Z.div_mod_to_equations; lia).
  f_equal. Z.div_mod_to_equations. lia.
Qed.

Lemma DaysInMonth_le (y m : Z) : DaysInMonth y m <= 31.
Proof.
  unfold DaysInMonth.
  repeat match goal with
         | |- context [match ?x with _ => _ end] => destruct x
         end; lia.
Qed.

Lemma parse_iso (y m d : Z) :
  0 <= y <= 9999 -> 1 <= m <= 12 -> 1 <= d <= DaysInMonth y m ->
  parseYMD (String.append (pad4 y)
              (String "-" (String.append (pad2 m) (String "-" (pad2 d)))))
  = Some (y, m, d).
Proof.
  intros Hy Hm Hd. pose proof (DaysInMonth_le y m) as Hle.
  unfold pad4, pad2. cbn [String.append]. unfold parseYMD.
  rewrite (num4_digits y Hy), (num2_digits m), (num2_digits d) by lia.
  replace (isDash "-") with true by reflexivity.
  replace (1 <=? m) with true by (symmetry; apply Z.leb_le; lia).
  replace (m <=? 12) with true by (symmetry; apply Z.leb_le; lia).
  replace (1 <=? d) with true by (symmetry; apply Z.leb_le; lia).
  replace (d <=? DaysInMonth y m) with true
    by (symmetry; apply Z.leb_le; lia).
  reflexivity.
Qed.

Lemma iso_string (y m d : Z) :
  0 <= y <= 9999 -> 0 <= m <= 11 -> 1 <= d <= DaysInMonth y (m + 1) ->
  parseYMD (String.append (isoYear y)
              (String "-" (String.append (pad2 (m + 1))
                                         (String "-" (pad2 d)))))
  = Some (y, m + 1, d).
Proof.
  intros Hy Hm Hd. unfold isoYear.
  destruct ((0 <=? y) && (y <=? 9999)) eqn:T.
  - apply parse_iso; [exact Hy|lia|exact Hd].
  - apply andb_false_iff in T. destruct T as [T|T]; apply Z.leb_gt in T; lia.
Qed.

Lemma getTime_of_parse (s : string) (y m d : Z) :
  parseYMD s = Some (y, m, d) ->
  getTime s = Some (MakeDate (MakeDay y (m - 1) d) 0).
Proof. unfold getTime. now intros ->. Qed.

Lemma midnight (day tw t : Z) :
  MakeDate day tw = t -> MakeDate day 0 = t - tw.
Proof. unfold MakeDate. lia. Qed.

(** X17. The date the two forms start with and are reset to, the first
    part of [toISOString()], reads back as the instant it was made from,
    cut down to midnight UTC: for every instant of the years 0 to 9999 it
    is a well-formed date whose year, month and day are those of the
    instant in UTC. *)
Theorem iso_date_round_trip (now : Z) :
  0 <= YearFromTime now <= 9999 ->
  parseYMD (toISODate now)
  = Some (YearFromTime now, MonthFromTime now + 1, DateFromTime now)
  /\ getTime (toISODate now) = Some (now - TimeWithinDay now).
Proof.
  intros Hy. destruct (fields_valid now) as (Hm & Hd & Hnow).
  pose proof (iso_string _ _ _ Hy Hm Hd) as E.
  fold (toISODate now) in E.
  split; [exact E|]. rewrite (getTime_of_parse _ _ _ _ E). f_equal.
  apply midnight.
  replace (MonthFromTime now + 1 - 1) with (MonthFromTime now) by lia.
  exact Hnow.
Qed.

Lemma iso_date_round_trip_witness :
  getTime (toISODate 1751241600123)
  = Some (1751241600123 - TimeWithinDay 1751241600123).
Proof.
  assert (H : 0 <= YearFromTime 1751241600123 <= 9999)
    by (vm_compute; split; discriminate).
  exact (proj2 (iso_date_round_trip 1751241600123 H)).
Defined.

End ISODateProps.
